(** * Plugin-host bridges of Theia: workspace, text content and notebooks

    A shallow embedding of
    - [packages/plugin-ext/src/main/browser/workspace-main.ts],
    - [packages/plugin-ext/src/main/browser/notebooks/notebook-documents-main.ts],
    - [packages/notebook/src/browser/notebook-cell-resource-resolver.ts],
    and the properties of these classes that the specification states.

    Conventions.  A class instance is a record of its fields.  A method is a
    function from the instance to a tree of calls into the collaborators
    (RPC proxy, services) ending in an outcome and the new instance; an
    [await] is a call whose answer is a settled promise.  [Map]s are
    [gmap]s, [Set]s are [gset]s, arrays are lists. *)

From Stdlib Require Import ZArith Lia.
From stdpp Require Import base option list strings pretty gmap.

Set Default Proof Using "Type".
Local Open Scope string_scope.

(** ** JavaScript values the code tests for truthiness or nullishness *)

Module Js.

(** [T | undefined | null] *)
Inductive nullable (A : Type) : Type :=
| undefined
| null
| val (a : A).
Arguments undefined {A}.
Arguments null {A}.
Arguments val {A} a.

(** [x ?? y] *)
Definition coalesce {A} (x y : nullable A) : nullable A :=
  match x with
  | val a => val a
  | _ => y
  end.

(** truthiness of a string: every string but the empty one *)
Definition truthy (s : string) : bool :=
  match s with
  | EmptyString => false
  | String _ _ => true
  end.

(** truthiness of a [string | undefined] *)
Definition truthy_opt (c : option string) : bool :=
  match c with
  | Some s => truthy s
  | None => false
  end.

(** [Object.prototype.toString] applied to a plain object *)
Definition object_toString : string := "[object Object]".

End Js.

(** ** Methods: state, rejection and calls into collaborators *)

Record Error := { message : string }.

(** A settled promise, or the completion of a call that may throw. *)
Inductive Outcome (R : Type) : Type :=
| Resolved (r : R)
| Rejected (e : Error).
Arguments Resolved {R} r.
Arguments Rejected {R} e.

(** A computation that calls collaborators described by [E]; [E X] is a call
    answered with an [X]. *)
Inductive Prog (E : Type -> Type) (R : Type) : Type :=
| Ret (r : R)
| Vis (X : Type) (e : E X) (k : X -> Prog E R).
Arguments Ret {E R} r.
Arguments Vis {E R X} e k.

Fixpoint pbind {E R S} (p : Prog E R) (f : R -> Prog E S) : Prog E S :=
  match p with
  | Ret r => f r
  | Vis e k => Vis e (fun x => pbind (k x) f)
  end.

(** A method of an object with fields [S]. *)
Definition Method (E : Type -> Type) (S R : Type) : Type :=
  S -> Prog E (Outcome R * S).

Module Method.
Section Ops.
Context {E : Type -> Type} {S : Type}.

Definition ret {R} (r : R) : Method E S R :=
  fun s => Ret (Resolved r, s).

(** [throw new Error(msg)] *)
Definition throw {R} (msg : string) : Method E S R :=
  fun s => Ret (Rejected {| message := msg |}, s).

(** sequencing: a rejection skips what follows and keeps the state *)
Definition bind {R R'} (m : Method E S R) (f : R -> Method E S R')
  : Method E S R' :=
  fun s => pbind (m s) (fun '(o, s') =>
    match o with
    | Resolved r => f r s'
    | Rejected e => Ret (Rejected e, s')
    end).

(** [this] *)
Definition get : Method E S S := fun s => Ret (Resolved s, s).

(** an assignment to fields of [this] *)
Definition modify (f : S -> S) : Method E S unit :=
  fun s => Ret (Resolved tt, f s).

(** a call that returns *)
Definition call {X} (e : E X) : Method E S X :=
  fun s => Vis e (fun x => Ret (Resolved x, s)).

(** a call that returns or throws, and [await] of a promise *)
Definition await {X} (e : E (Outcome X)) : Method E S X :=
  fun s => Vis e (fun o => Ret (o, s)).

End Ops.
End Method.

(** a method of a field, run in place *)
Definition zoom {E S T R} (getf : S -> T) (setf : T -> S -> S)
  (m : Method E T R) : Method E S R :=
  fun s => pbind (m (getf s)) (fun '(o, t) => Ret (o, setf t s)).

Declare Scope method_scope.
Delimit Scope method_scope with method.
Notation "x <- m ;; k" := (Method.bind m (fun x => k))
  (at level 100, m at next level, right associativity) : method_scope.
Notation "m ;; k" := (Method.bind m (fun _ => k))
  (at level 100, right associativity) : method_scope.

(** *** Running a method against an environment

    The collaborators are an arbitrary environment: a world [W] and, for each
    call, an answer and a new world.  [exec] returns the calls in the order
    they were made. *)

Inductive Call (E : Type -> Type) : Type :=
| called (X : Type) (e : E X).
Arguments called {E X} e.

Definition Env (E : Type -> Type) (W : Type) : Type :=
  forall X, E X -> W -> X * W.

Fixpoint exec {E W R} (env : Env E W) (p : Prog E R) (w : W)
  : list (Call E) * R * W :=
  match p with
  | Ret r => ([], r, w)
  | Vis e k =>
      let '(x, w1) := env _ e w in
      let '(tr, r, w2) := exec env (k x) w1 in
      (called e :: tr, r, w2)
  end.

Definition trace_of {E W R} (env : Env E W) (p : Prog E R) (w : W)
  : list (Call E) := (exec env p w).1.1.
Definition result_of {E W R} (env : Env E W) (p : Prog E R) (w : W) : R :=
  (exec env p w).1.2.

(** No collaborator at all. *)
Inductive NoCall : Type -> Type := .

(** The result of a method that calls nobody. *)
Definition pure_result {R} (p : Prog NoCall R) : R :=
  match p with
  | Ret r => r
  | Vis e _ => match e with end
  end.

(** ** URIs *)

(** Modelled from the spec: the declaration of [UriComponents] (of
    [vscode-uri], re-exported by [@theia/core]) is not among the sources.
    The spec lists it with the wire DTOs as the decomposition of a URI into
    scheme, path, query and fragment: a plain object of string fields, the
    value [URI.toComponents()] builds and the RPC layer carries. *)
Record UriComponents := {
  scheme : string;
  authority : string;
  path : string;
  query : string;
  fragment : string;
}.

(** [uri.toString()] where [uri] is a [UriComponents]: the object has no
    [toString] of its own, so the call is [Object.prototype.toString].
    Where the bridge needs the URI string of components it converts them
    first, with [URI.fromComponents]. *)
Definition UriComponents_toString (_ : UriComponents) : string :=
  Js.object_toString.

(** The [URI] class of [@theia/core] is a collaborator: the bridges read
    its scheme, print it, and convert it from and to components. *)
Class UriApi := {
  URI : Type;
  uri_scheme : URI -> string;
  uri_toString : URI -> string;
  fromComponents : UriComponents -> URI;
  toComponents : URI -> UriComponents;
}.

(** A plain instance, to evaluate the methods on concrete URIs: a URI is
    its components and prints as [scheme:path]. *)
Definition plain_uri : UriApi := {|
  URI := UriComponents;
  uri_scheme := scheme;
  uri_toString := fun u => scheme u ++ ":" ++ path u;
  fromComponents := fun c => c;
  toComponents := fun c => c;
|}.

Definition file_uri (p : string) : UriComponents :=
  {| scheme := "file"; authority := ""; path := p; query := "";
     fragment := "" |}.

(** The RPC proxy of the plugin side, as the object a resource or a
    provider holds on to. *)
Definition WorkspaceExt : Type := nat.

(** ** Text content resources ([workspace-main.ts], lines 37-138) *)

Module TextContent.
Section WithUri.
Context `{UriApi}.

(** The calls a [TextContentResource] makes: the RPC proxy's
    [$provideTextDocumentContent], and firing its change emitter. *)
Inductive ResourceCall : Type -> Type :=
| provideTextDocumentContent (proxy : WorkspaceExt) (uri : string)
    : ResourceCall (Outcome (Js.nullable string))
| fireDidChangeContents : ResourceCall unit.

Record TextContentResource := {
  uri : URI;
  proxy : WorkspaceExt;
  cache : option string;   (* [cache: string | undefined] *)
}.

Definition set_cache (c : option string) (r : TextContentResource)
  : TextContentResource :=
  {| uri := uri r; proxy := proxy r; cache := c |}.

(** the value of an expression of type [string | undefined] *)
Definition of_cache (c : option string) : Js.nullable string :=
  match c with
  | Some s => Js.val s
  | None => Js.undefined
  end.

Definition readContents
  : Method ResourceCall TextContentResource (Js.nullable string) :=
  (self <- Method.get ;;
   if Js.truthy_opt (cache self) then
     let content := cache self in
     Method.modify (set_cache None) ;;
     Method.ret (of_cache content)
   else
     content <- Method.await
                  (provideTextDocumentContent (proxy self)
                     (uri_toString (uri self))) ;;
     Method.ret (Js.coalesce content (Js.val "")))%method.

Definition setContent (content : string)
  : Method ResourceCall TextContentResource unit :=
  (Method.modify (set_cache (Some content)) ;;
   Method.call fireDidChangeContents)%method.

(** *** [TextContentResourceResolver] *)

(** A provider is the closure [registerContentProvider] builds: it holds
    the proxy it was registered with. *)
Record TextContentResourceProvider := {
  provider_proxy : WorkspaceExt;
}.

Record TextContentResourceResolver := {
  providers : gmap string TextContentResourceProvider;
  resources : gmap string TextContentResource;
}.

Definition set_providers
  (f : gmap string TextContentResourceProvider ->
       gmap string TextContentResourceProvider)
  (r : TextContentResourceResolver) : TextContentResourceResolver :=
  {| providers := f (providers r); resources := resources r |}.

Definition set_resources
  (f : gmap string TextContentResource -> gmap string TextContentResource)
  (r : TextContentResourceResolver) : TextContentResourceResolver :=
  {| providers := providers r; resources := f (resources r) |}.

Definition already_registered (scheme : string) : string :=
  "Text Content Resource Provider for scheme '" ++ scheme ++
  "' is already registered".

Definition not_registered (scheme : string) : string :=
  "Text Content Resource Provider for scheme '" ++ scheme ++
  "' has not been registered".

Definition no_provider (scheme : string) : string :=
  "Unable to find Text Content Resource Provider for scheme '" ++ scheme ++
  "'".

Definition registerContentProvider {E} (scheme : string) (p : WorkspaceExt)
  : Method E TextContentResourceResolver unit :=
  (self <- Method.get ;;
   match providers self !! scheme with
   | Some _ => Method.throw (already_registered scheme)
   | None =>
       Method.modify
         (set_providers (insert scheme {| provider_proxy := p |}))
   end)%method.

(** [Map.prototype.delete]: whether the key was there, and the map
    without it. *)
Definition map_delete {V} (k : string) (m : gmap string V)
  : bool * gmap string V :=
  (bool_decide (is_Some (m !! k)), delete k m).

Definition unregisterContentProvider {E} (scheme : string)
  : Method E TextContentResourceResolver unit :=
  (self <- Method.get ;;
   let '(deleted, rest) := map_delete scheme (providers self) in
   Method.modify (set_providers (fun _ => rest)) ;;
   if negb deleted then Method.throw (not_registered scheme)
   else Method.ret tt)%method.

(** [provideResource] of the provider registered for the proxy [p] *)
Definition provideResource {E} (p : WorkspaceExt) (u : URI)
  : Method E TextContentResourceResolver TextContentResource :=
  (self <- Method.get ;;
   match resources self !! uri_toString u with
   | Some resource => Method.ret resource
   | None =>
       let resource := {| uri := u; proxy := p; cache := None |} in
       Method.modify (set_resources (insert (uri_toString u) resource)) ;;
       Method.ret resource
   end)%method.

Definition resolve {E} (u : URI)
  : Method E TextContentResourceResolver TextContentResource :=
  (self <- Method.get ;;
   match providers self !! uri_scheme u with
   | Some provider => provideResource (provider_proxy provider) u
   | None => Method.throw (no_provider (uri_scheme u))
   end)%method.

(** a method of the resource stored under [key], run on that object *)
Definition on_resource {R} (key : string) (resource : TextContentResource)
  (m : Method ResourceCall TextContentResource R)
  : Method ResourceCall TextContentResourceResolver R :=
  fun self =>
    pbind (m resource) (fun '(o, resource') =>
      Ret (o, set_resources (insert key resource') self)).

Definition onContentChange (key content : string)
  : Method ResourceCall TextContentResourceResolver unit :=
  (self <- Method.get ;;
   match resources self !! key with
   | Some resource => on_resource key resource (setContent content)
   | None => Method.ret tt
   end)%method.

(** [dispose] of a resource the resolver opened: the disposable it was
    given deletes the entry of its URI string from [resources] *)
Definition dispose {E} (resource : TextContentResource)
  : Method E TextContentResourceResolver unit :=
  Method.modify (set_resources (delete (uri_toString (uri resource)))).

End WithUri.
End TextContent.

(** ** [WorkspaceMainImpl] ([workspace-main.ts], lines 140-417) *)

(** [Array.prototype.some] with the element and its index *)
Fixpoint some_from {A} (f : A -> nat -> bool) (i : nat) (l : list A) : bool :=
  match l with
  | [] => false
  | x :: l' => f x i || some_from f (S i) l'
  end.

Definition some {A} (f : A -> nat -> bool) (l : list A) : bool :=
  some_from f 0 l.

(** the cap as the specification words it: [options.maxResults] when
    given, otherwise the default *)
Definition stated_cap (maxResults : option Z) : Z :=
  match maxResults with
  | Some n => n
  | None => 150%Z
  end.

(** the specification's test for a change of roots: the new list differs
    from the old one in length or at a position *)
Definition differs (old new_roots : list string) : Prop :=
  length old <> length new_roots \/
  exists i root, old !! i = Some root /\ new_roots !! i <> Some root.

Module Workspace.
Section WithUri.
Context `{UriApi}.

(** what the plugin server stores per workspace; only passed along *)
Variable KeysToKeysToAnyValue : Type.

Definition Disposable : Type := nat.

(** The calls of the methods below into the proxy, the workspace service,
    the plugin server, the storage proxy, the canonical-URI service, a
    disposable, and the console. *)
Inductive WorkspaceCall : Type -> Type :=
| onWorkspaceFoldersChanged (roots : list string) : WorkspaceCall unit
| workspace_resource : WorkspaceCall (option string)
| tryGetRoots : WorkspaceCall (list string)
| getAllStorageValues (workspace : option string) (roots : list string)
    : WorkspaceCall (Outcome KeysToKeysToAnyValue)
| updatePluginsWorkspaceData (data : KeysToKeysToAnyValue)
    : WorkspaceCall unit
| canonicalUriService_register (scheme : string)
    : WorkspaceCall (Outcome Disposable)
| dispose (d : Disposable) : WorkspaceCall unit
| console_warn (msg : string) : WorkspaceCall unit.

Record WorkspaceMainImpl := {
  proxy : WorkspaceExt;
  (* the injected resolver, in the state it has when a method runs *)
  resourceResolver : TextContent.TextContentResourceResolver;
  (* the disposables pushed by [$registerTextDocumentContentProvider]: each
     unregisters the content provider of its scheme *)
  toDispose : list string;
  workspaceSearch : gset Z;
  canonicalUriProviders : gmap string Disposable;
  roots : option (list string);   (* unset until the first change *)
}.

Definition set_resourceResolver (r : TextContent.TextContentResourceResolver)
  (w : WorkspaceMainImpl) : WorkspaceMainImpl :=
  {| proxy := proxy w; resourceResolver := r; toDispose := toDispose w;
     workspaceSearch := workspaceSearch w;
     canonicalUriProviders := canonicalUriProviders w; roots := roots w |}.

Definition set_toDispose (f : list string -> list string)
  (w : WorkspaceMainImpl) : WorkspaceMainImpl :=
  {| proxy := proxy w; resourceResolver := resourceResolver w;
     toDispose := f (toDispose w); workspaceSearch := workspaceSearch w;
     canonicalUriProviders := canonicalUriProviders w; roots := roots w |}.

Definition set_workspaceSearch (f : gset Z -> gset Z)
  (w : WorkspaceMainImpl) : WorkspaceMainImpl :=
  {| proxy := proxy w; resourceResolver := resourceResolver w;
     toDispose := toDispose w; workspaceSearch := f (workspaceSearch w);
     canonicalUriProviders := canonicalUriProviders w; roots := roots w |}.

Definition set_canonicalUriProviders
  (f : gmap string Disposable -> gmap string Disposable)
  (w : WorkspaceMainImpl) : WorkspaceMainImpl :=
  {| proxy := proxy w; resourceResolver := resourceResolver w;
     toDispose := toDispose w; workspaceSearch := workspaceSearch w;
     canonicalUriProviders := f (canonicalUriProviders w); roots := roots w |}.

Definition set_roots (r : option (list string)) (w : WorkspaceMainImpl)
  : WorkspaceMainImpl :=
  {| proxy := proxy w; resourceResolver := resourceResolver w;
     toDispose := toDispose w; workspaceSearch := workspaceSearch w;
     canonicalUriProviders := canonicalUriProviders w; roots := r |}.

(** *** Workspace roots *)

Definition isAnyRootChanged (new_roots : list string)
  (self : WorkspaceMainImpl) : bool :=
  match roots self with
  | None => true
  | Some old =>
      if negb (length old =? length new_roots)%nat then true
      else some (fun root index =>
                   bool_decide (new_roots !! index <> Some root)) old
  end.

Definition processWorkspaceFoldersChanged (new_roots : list string)
  : Method WorkspaceCall WorkspaceMainImpl unit :=
  (self <- Method.get ;;
   if negb (isAnyRootChanged new_roots self) then Method.ret tt
   else
     Method.modify (set_roots (Some new_roots)) ;;
     Method.call (onWorkspaceFoldersChanged new_roots) ;;
     workspace <- Method.call workspace_resource ;;
     current <- Method.call tryGetRoots ;;
     data <- Method.await (getAllStorageValues workspace current) ;;
     Method.call (updatePluginsWorkspaceData data))%method.

(** *** Text content providers *)

Definition registerTextDocumentContentProvider (scheme : string)
  : Method WorkspaceCall WorkspaceMainImpl unit :=
  (self <- Method.get ;;
   zoom resourceResolver set_resourceResolver
     (TextContent.registerContentProvider scheme (proxy self)) ;;
   Method.modify (set_toDispose (fun ds => (ds ++ [scheme])%list)))%method.

Definition unregisterTextDocumentContentProvider (scheme : string)
  : Method WorkspaceCall WorkspaceMainImpl unit :=
  zoom resourceResolver set_resourceResolver
    (TextContent.unregisterContentProvider scheme).

(** *** Canonical URI providers *)

Definition no_canonical_provider (scheme : string) : string :=
  "No canonical uri provider registered for '" ++ scheme ++ "'".

(** The provider object handed to the service only holds callbacks into
    the proxy; the service calls them later, if ever. *)
Definition registerCanonicalUriProvider (scheme : string)
  : Method WorkspaceCall WorkspaceMainImpl unit :=
  (d <- Method.await (canonicalUriService_register scheme) ;;
   Method.modify (set_canonicalUriProviders (insert scheme d)))%method.

Definition unregisterCanonicalUriProvider (scheme : string)
  : Method WorkspaceCall WorkspaceMainImpl unit :=
  (self <- Method.get ;;
   match canonicalUriProviders self !! scheme with
   | Some disposable =>
       Method.modify (set_canonicalUriProviders (delete scheme)) ;;
       Method.call (dispose disposable)
   | None => Method.call (console_warn (no_canonical_provider scheme))
   end)%method.

(** *** Text search: [$findTextInFiles]

    The search service drives the two callbacks; the token may be cancelled
    between them.  A callback that does not return (its loop runs for ever)
    is [None]. *)

Variable SearchMatch : Type.

Record SearchInWorkspaceResult := {
  fileUri : string;
  root : string;
  result_matches : list SearchMatch;
}.

Definition set_result_matches (ms : list SearchMatch)
  (r : SearchInWorkspaceResult) : SearchInWorkspaceResult :=
  {| fileUri := fileUri r; root := root r; result_matches := ms |}.

(** [options.maxResults ? options.maxResults : 150] *)
Definition maxHits_of (maxResults : option Z) : Z :=
  match maxResults with
  | Some n => if (n =? 0)%Z then 150%Z else n
  | None => 150%Z
  end.

(** [a.splice(a.length - 1, 1)]: the last element goes; on the empty array
    the start index -1 is clamped and nothing goes. *)
Definition splice_last {A} (a : list A) : list A := removelast a.

(** [while ((matches + result.matches.length) > maxHits) splice last] *)
Fixpoint truncate_loop (fuel : nat) (matches maxHits : Z)
  (ms : list SearchMatch) : option (list SearchMatch) :=
  if (maxHits <? matches + Z.of_nat (length ms))%Z then
    match fuel with
    | O => None
    | S fuel' => truncate_loop fuel' matches maxHits (splice_last ms)
    end
  else Some ms.

(** The variables of one [$findTextInFiles] call, with the instance and the
    token it was given. *)
Record FindTextInFiles := {
  this : WorkspaceMainImpl;
  searchRequestId : Z;
  maxHits : Z;
  isCancellationRequested : bool;   (* of the token *)
  (* the search ids held by the callbacks given to
     [token.onCancellationRequested] *)
  token_listeners : list Z;
  canceledRequest : bool;
  matches : Z;
}.

Definition set_this (f : WorkspaceMainImpl -> WorkspaceMainImpl)
  (c : FindTextInFiles) : FindTextInFiles :=
  {| this := f (this c); searchRequestId := searchRequestId c;
     maxHits := maxHits c;
     isCancellationRequested := isCancellationRequested c;
     token_listeners := token_listeners c;
     canceledRequest := canceledRequest c; matches := matches c |}.

Definition set_isCancellationRequested (b : bool) (c : FindTextInFiles)
  : FindTextInFiles :=
  {| this := this c; searchRequestId := searchRequestId c;
     maxHits := maxHits c; isCancellationRequested := b;
     token_listeners := token_listeners c;
     canceledRequest := canceledRequest c; matches := matches c |}.

Definition set_token_listeners (f : list Z -> list Z) (c : FindTextInFiles)
  : FindTextInFiles :=
  {| this := this c; searchRequestId := searchRequestId c;
     maxHits := maxHits c;
     isCancellationRequested := isCancellationRequested c;
     token_listeners := f (token_listeners c);
     canceledRequest := canceledRequest c; matches := matches c |}.

Definition set_canceledRequest (b : bool) (c : FindTextInFiles)
  : FindTextInFiles :=
  {| this := this c; searchRequestId := searchRequestId c;
     maxHits := maxHits c;
     isCancellationRequested := isCancellationRequested c;
     token_listeners := token_listeners c;
     canceledRequest := b; matches := matches c |}.

Definition set_matches (m : Z) (c : FindTextInFiles) : FindTextInFiles :=
  {| this := this c; searchRequestId := searchRequestId c;
     maxHits := maxHits c;
     isCancellationRequested := isCancellationRequested c;
     token_listeners := token_listeners c;
     canceledRequest := canceledRequest c; matches := m |}.

(** the closure at the time [searchWithCallback] is called *)
Definition findTextInFiles (self : WorkspaceMainImpl)
  (maxResults : option Z) (requestId : Z) (token_cancelled : bool)
  : FindTextInFiles :=
  {| this := self; searchRequestId := requestId;
     maxHits := maxHits_of maxResults;
     isCancellationRequested := token_cancelled;
     token_listeners := [];
     canceledRequest := false; matches := 0 |}.

(** What a callback does to the outside. *)
Inductive SearchEffect :=
| cancel (searchId : Z)
| onTextSearchResult (requestId : Z) (done : bool)
    (result : option SearchInWorkspaceResult)
| resolve_promise (limitHit : bool).

(** What happens to a running search. *)
Inductive SearchInput :=
| onResult (searchId : Z) (result : option SearchInWorkspaceResult)
| onDone (searchId : Z)
| cancellationRequested.

Definition handle_onResult (searchId : Z)
  (result : option SearchInWorkspaceResult) (c : FindTextInFiles)
  : option (FindTextInFiles * list SearchEffect) :=
  if canceledRequest c then Some (c, [])
  else
    let hasSearch := bool_decide (searchId ∈ workspaceSearch (this c)) in
    let c :=
      if negb hasSearch then
        set_token_listeners (fun ls => (ls ++ [searchId])%list)
          (set_this (set_workspaceSearch (fun ws => {[searchId]} ∪ ws)) c)
      else c in
    if isCancellationRequested c then
      Some (set_canceledRequest true c, [cancel searchId])
    else
      match result with
      | Some r =>
          if (0 <? length (result_matches r))%nat then
            match truncate_loop (S (length (result_matches r)))
                    (matches c) (maxHits c) (result_matches r) with
            | None => None
            | Some ms =>
                let r := set_result_matches ms r in
                let c := set_matches
                           (matches c + Z.of_nat (length ms))%Z c in
                Some (c,
                      (onTextSearchResult (searchRequestId c) false (Some r)
                       :: if (maxHits c <=? matches c)%Z
                          then [cancel searchId] else [])%list)
            end
          else Some (c, [])
      | None => Some (c, [])
      end.

Definition handle_onDone (searchId : Z) (c : FindTextInFiles)
  : FindTextInFiles * list SearchEffect :=
  let hasSearch := bool_decide (searchId ∈ workspaceSearch (this c)) in
  let done :=
    [onTextSearchResult (searchRequestId c) true None;
     resolve_promise (maxHits c <=? matches c)%Z] in
  if hasSearch then
    (set_this (set_workspaceSearch (fun ws => ws ∖ {[searchId]})) c,
     cancel searchId :: done)
  else (c, done).

(** the token is cancelled and runs the callbacks it was given *)
Definition handle_cancellation (c : FindTextInFiles)
  : FindTextInFiles * list SearchEffect :=
  let c := set_isCancellationRequested true c in
  (match token_listeners c with
   | [] => c
   | _ :: _ => set_canceledRequest true c
   end,
   cancel <$> token_listeners c).

Definition step (i : SearchInput) (c : FindTextInFiles)
  : option (FindTextInFiles * list SearchEffect) :=
  match i with
  | onResult searchId result => handle_onResult searchId result c
  | onDone searchId => Some (handle_onDone searchId c)
  | cancellationRequested => Some (handle_cancellation c)
  end.

Fixpoint run (ins : list SearchInput) (c : FindTextInFiles)
  : option (FindTextInFiles * list SearchEffect) :=
  match ins with
  | [] => Some (c, [])
  | i :: ins' =>
      match step i c with
      | None => None
      | Some (c1, e1) =>
          match run ins' c1 with
          | None => None
          | Some (c2, e2) => Some (c2, (e1 ++ e2)%list)
          end
      end
  end.

(** the matches a call of the proxy hands to the plugin *)
Definition delivered_by (e : SearchEffect) : Z :=
  match e with
  | onTextSearchResult _ false (Some r) =>
      Z.of_nat (length (result_matches r))
  | _ => 0%Z
  end.

Definition delivered (es : list SearchEffect) : Z :=
  foldr (fun e n => (delivered_by e + n)%Z) 0%Z es.

(** the value the promise settles with: the first [resolve] counts *)
Fixpoint promise_value (es : list SearchEffect) : option bool :=
  match es with
  | [] => None
  | resolve_promise limitHit :: _ => Some limitHit
  | _ :: es' => promise_value es'
  end.

(** the batch of [i] reached the plugin with fewer matches than it had *)
Definition truncates (i : SearchInput) (c : FindTextInFiles) : bool :=
  match i, step i c with
  | onResult _ (Some r), Some (_, es) =>
      existsb (fun e =>
        match e with
        | onTextSearchResult _ false (Some r') =>
            (length (result_matches r') <? length (result_matches r))%nat
        | _ => false
        end) es
  | _, _ => false
  end.

Definition is_onDone (i : SearchInput) : bool :=
  match i with
  | onDone _ => true
  | _ => false
  end.

(** the search id a callback is called with *)
Definition searchId_of (i : SearchInput) : option Z :=
  match i with
  | onResult searchId _ => Some searchId
  | onDone searchId => Some searchId
  | cancellationRequested => None
  end.

End WithUri.

Arguments fileUri {SearchMatch} s.
Arguments root {SearchMatch} s.
Arguments result_matches {SearchMatch} s.
Arguments Build_SearchInWorkspaceResult {SearchMatch} fileUri root
  result_matches.
Arguments set_result_matches {SearchMatch} ms r.
Arguments truncate_loop {SearchMatch} fuel matches maxHits ms.
Arguments cancel {SearchMatch} searchId.
Arguments onTextSearchResult {SearchMatch} requestId done result.
Arguments resolve_promise {SearchMatch} limitHit.
Arguments onResult {SearchMatch} searchId result.
Arguments onDone {SearchMatch} searchId.
Arguments cancellationRequested {SearchMatch}.
Arguments handle_onResult {H SearchMatch} searchId result c.
Arguments handle_onDone {H SearchMatch} searchId c.
Arguments handle_cancellation {H SearchMatch} c.
Arguments step {H SearchMatch} i c.
Arguments run {H SearchMatch} ins c.
Arguments delivered_by {SearchMatch} e.
Arguments delivered {SearchMatch} es.
Arguments promise_value {SearchMatch} es.
Arguments truncates {H SearchMatch} i c.
Arguments is_onDone {SearchMatch} i.
Arguments searchId_of {SearchMatch} i.

(** *** [$pickWorkspaceFolder] *)

(** [s.lastIndexOf(c)] for a character [c]: the index of its last
    occurrence in [s], or -1 *)
Fixpoint lastIndexOf (c : Ascii.ascii) (s : string) : Z :=
  match s with
  | EmptyString => (-1)%Z
  | String a s' =>
      let i := lastIndexOf c s' in
      if (0 <=? i)%Z then (i + 1)%Z
      else if Ascii.eqb a c then 0%Z else (-1)%Z
  end.

Fixpoint string_drop (n : nat) (s : string) : string :=
  match n, s with
  | O, _ => s
  | S n', String _ s' => string_drop n' s'
  | S _, EmptyString => EmptyString
  end.

(** [s.substring(start)]: [s] from the index [start] on; a negative [start]
    counts as 0 and one beyond the end as the end *)
Definition substring_from (start : Z) (s : string) : string :=
  string_drop (Z.to_nat start) s.

(** the character of ['/'] *)
Definition slash : Ascii.ascii :=
  Eval cbv in
    match "/" with
    | String c _ => c
    | EmptyString => Ascii.zero
    end.

(** [path.substring(path.lastIndexOf('/') + 1)] *)
Definition rootPathName (path : string) : string :=
  substring_from (lastIndexOf slash path + 1) path.

Section Picker.
Context `{UriApi}.

(** [URI] of [vscode-uri], as far as the picker uses it: [Uri.parse] and
    the [path] of the result; and the element that has the focus. *)
Variable Uri : Type.
Variable Uri_parse : string -> Uri.
Variable Uri_path : Uri -> string.
Variable HTMLElement : Type.

Record WorkspaceFolder := {
  folder_uri : Uri;
  folder_name : string;
  folder_index : Z;
}.

(** an item of the pick menu; its [execute] is told by its place in the
    list of items *)
Record QuickPickItem := {
  label : string;
  detail : string;
}.

(** The calls of the picker: reading [window.document.activeElement];
    showing the menu, which answers when the menu hides with the places of
    the items whose [execute] it ran before that, in order; and giving the
    focus back. *)
Inductive PickCall : Type -> Type :=
| activeElement : PickCall (option HTMLElement)
| showQuickPick (items : list QuickPickItem) : PickCall (list nat)
| focus (element : HTMLElement) : PickCall unit.

Definition pick_item (root : string) : QuickPickItem :=
  let rootUri := Uri_parse root in
  {| label := rootPathName (Uri_path rootUri);
     detail := Uri_path rootUri |}.

(** what [execute] of the item of [root] assigns to [returnValue] *)
Definition picked_folder (root : string) : WorkspaceFolder :=
  let rootUri := Uri_parse root in
  {| folder_uri := rootUri;
     folder_name := rootPathName (Uri_path rootUri);
     folder_index := 0 |}.

(** [returnValue] after the [execute]s the menu ran *)
Definition returnValue_after (rootUris : list string) (executed : list nat)
  : option WorkspaceFolder :=
  fold_left
    (fun returnValue i =>
       match rootUris !! i with
       | Some root => Some (picked_folder root)
       | None => returnValue
       end)
    executed None.

Definition pickWorkspaceFolder
  : Method PickCall WorkspaceMainImpl (option WorkspaceFolder) :=
  (self <- Method.get ;;
   match roots self with
   | None | Some [] => Method.ret None
   | Some rootUris =>
       active <- Method.call activeElement ;;
       executed <- Method.call (showQuickPick (pick_item <$> rootUris)) ;;
       match active with
       | Some element => Method.call (focus element)
       | None => Method.ret tt
       end ;;
       Method.ret (returnValue_after rootUris executed)
   end)%method.

End Picker.

Arguments folder_uri {Uri} w.
Arguments folder_name {Uri} w.
Arguments folder_index {Uri} w.
Arguments Build_WorkspaceFolder {Uri} folder_uri folder_name folder_index.
Arguments activeElement {HTMLElement}.
Arguments showQuickPick {HTMLElement} items.
Arguments focus {HTMLElement} element.
Arguments pick_item {Uri} Uri_parse Uri_path root.
Arguments picked_folder {Uri} Uri_parse Uri_path root.
Arguments returnValue_after {Uri} Uri_parse Uri_path rootUris executed.
Arguments pickWorkspaceFolder {H Uri} Uri_parse Uri_path {HTMLElement}.

(** *** The canonical-URI service *)

(** Modelled from the spec: the canonical-URI service is a consumed
    service, in the specification's words the canonical-URI provider
    registry, whose code is not among the sources; the specification has
    the registration of canonical-URI providers guarded against double
    registration.  So: a registry of at most one provider per scheme.
    Registering a provider for a scheme that has one throws and changes
    nothing; otherwise the provider is stored and a new disposable is
    handed back, which removes the provider when it is disposed. *)
Record CanonicalUriService := {
  (* the schemes that have a provider, each with the disposable handed back
     for it *)
  service_providers : gmap string Disposable;
  next_disposable : Disposable;
}.

(** the message of the service's error *)
Definition provider_exists (scheme : string) : string :=
  "Canonical URI provider for scheme '" ++ scheme ++ "' already exists".

(** Modelled from the spec: registering a provider, guarded against double
    registration. *)
Definition service_register (scheme : string) (service : CanonicalUriService)
  : Outcome Disposable * CanonicalUriService :=
  match service_providers service !! scheme with
  | Some _ => (Rejected {| message := provider_exists scheme |}, service)
  | None =>
      (Resolved (next_disposable service),
       {| service_providers :=
            <[scheme := next_disposable service]> (service_providers service);
          next_disposable := S (next_disposable service) |})
  end.

(** Modelled from the spec: disposing what a registration handed back
    removes the provider it was handed back for. *)
Definition service_dispose (d : Disposable) (service : CanonicalUriService)
  : CanonicalUriService :=
  {| service_providers :=
       filter (fun entry => entry.2 <> d) (service_providers service);
     next_disposable := next_disposable service |}.

(** a service that has handed out no disposable yet *)
Definition new_service : CanonicalUriService :=
  {| service_providers := ∅; next_disposable := 0 |}.

(** the disposables handed back are distinct, and older than the next *)
Definition service_wf (service : CanonicalUriService) : Prop :=
  (forall scheme d,
     service_providers service !! scheme = Some d ->
     d < next_disposable service) /\
  (forall scheme1 scheme2 d,
     service_providers service !! scheme1 = Some d ->
     service_providers service !! scheme2 = Some d ->
     scheme1 = scheme2).

Section CanonicalService.
Context `{UriApi}.
Variable KeysToKeysToAnyValue : Type.

(** The collaborators [base] with the service in front: registrations and
    the disposal of what they handed back go to the service, every other
    call to [base]. *)
Definition with_canonical_service {W}
  (base : Env (WorkspaceCall KeysToKeysToAnyValue) W)
  : Env (WorkspaceCall KeysToKeysToAnyValue) (CanonicalUriService * W) :=
  fun X e sw =>
    match e in WorkspaceCall _ X return X * (CanonicalUriService * W) with
    | canonicalUriService_register _ scheme =>
        let r := service_register scheme sw.1 in (r.1, (r.2, sw.2))
    | dispose _ d => (tt, (service_dispose d sw.1, sw.2))
    | onWorkspaceFoldersChanged _ roots =>
        let r := base _ (onWorkspaceFoldersChanged _ roots) sw.2 in
        (r.1, (sw.1, r.2))
    | workspace_resource _ =>
        let r := base _ (workspace_resource _) sw.2 in (r.1, (sw.1, r.2))
    | tryGetRoots _ =>
        let r := base _ (tryGetRoots _) sw.2 in (r.1, (sw.1, r.2))
    | getAllStorageValues _ workspace roots =>
        let r := base _ (getAllStorageValues _ workspace roots) sw.2 in
        (r.1, (sw.1, r.2))
    | updatePluginsWorkspaceData _ data =>
        let r := base _ (updatePluginsWorkspaceData _ data) sw.2 in
        (r.1, (sw.1, r.2))
    | console_warn _ msg =>
        let r := base _ (console_warn _ msg) sw.2 in (r.1, (sw.1, r.2))
    end.

(** what the bridge holds under a scheme is what the service handed back
    for the provider it has for that scheme *)
Definition in_step (self : WorkspaceMainImpl) (service : CanonicalUriService)
  : Prop :=
  forall scheme d,
    canonicalUriProviders self !! scheme = Some d ->
    service_providers service !! scheme = Some d.

End CanonicalService.

Arguments with_canonical_service {KeysToKeysToAnyValue W} base X e sw.

End Workspace.

(** [for (const x of l) body(x)] *)
Fixpoint for_each {E S A} (l : list A) (body : A -> Method E S unit)
  : Method E S unit :=
  match l with
  | [] => Method.ret tt
  | x :: l' => (body x ;; for_each l' body)%method
  end.

(** ** [NotebookDocumentsMainImpl] ([notebook-documents-main.ts]) *)

(** The notebook types the bridge converts between, and the converters of
    [NotebookDto]; the bridge only passes them along.  The enum
    [NotebookCellsChangeType] is declared in [@theia/notebook]: [OtherKind]
    stands for its members, if any, besides the nine that the switch of the
    change listener names. *)
Class NotebookTypes := {
  NotebookCellModel : Type;
  NotebookCellDto : Type;
  toNotebookCellDto : NotebookCellModel -> NotebookCellDto;
  CellOutput : Type;
  NotebookOutputDto : Type;
  toNotebookOutputDto : CellOutput -> NotebookOutputDto;
  CellOutputItem : Type;
  NotebookOutputItemDto : Type;
  toNotebookOutputItemDto : CellOutputItem -> NotebookOutputItemDto;
  NotebookDocumentMetadata : Type;
  (* the fields, besides [newItems], of a splice of cells *)
  SpliceFields : Type;
  (* the fields, besides [kind], of an event pushed as it is *)
  RawFields : Type;
  OtherKind : Type;
}.

Module NotebookDocuments.
Section WithTypes.
Context `{UriApi} `{NotebookTypes}.

Inductive NotebookCellsChangeType :=
| ModelChange
| Move
| Output
| OutputItem
| ChangeCellLanguage
| ChangeCellContent
| ChangeCellMetadata
| ChangeCellInternalMetadata
| ChangeDocumentMetadata
| other_kind (k : OtherKind).

(** the four kinds whose cases share one body *)
Inductive CellChange :=
| Language
| Content
| Metadata
| InternalMetadata.

Definition kind_of_cell_change (k : CellChange) : NotebookCellsChangeType :=
  match k with
  | Language => ChangeCellLanguage
  | Content => ChangeCellContent
  | Metadata => ChangeCellMetadata
  | InternalMetadata => ChangeCellInternalMetadata
  end.

Record Splice (Item : Type) := {
  splice_fields : SpliceFields;
  newItems : list Item;
}.
Arguments splice_fields {Item} s.
Arguments newItems {Item} s.

(** An event of a notebook's [onDidChangeContent]. *)
Inductive NotebookContentChangedEvent :=
| ModelChangeEvent (changes : list (Splice NotebookCellModel))
| MoveEvent (index length newIdx : Z)
| OutputEvent (index : Z) (outputs : list CellOutput)
| OutputItemEvent (index : Z) (outputId : string)
    (outputItems : list CellOutputItem) (append : bool)
| CellChangeEvent (k : CellChange) (fields : RawFields)
| DocumentMetadataEvent (metadata : NotebookDocumentMetadata)
| OtherEvent (k : OtherKind) (fields : RawFields).

Definition kind (e : NotebookContentChangedEvent) : NotebookCellsChangeType :=
  match e with
  | ModelChangeEvent _ => ModelChange
  | MoveEvent _ _ _ => Move
  | OutputEvent _ _ => Output
  | OutputItemEvent _ _ _ _ => OutputItem
  | CellChangeEvent k _ => kind_of_cell_change k
  | DocumentMetadataEvent _ => ChangeDocumentMetadata
  | OtherEvent k _ => other_kind k
  end.

(** [e.kind === NotebookCellsChangeType.ChangeDocumentMetadata] *)
Definition is_ChangeDocumentMetadata (e : NotebookContentChangedEvent)
  : bool :=
  match kind e with
  | ChangeDocumentMetadata => true
  | _ => false
  end.

(** An entry of [rawEvents]. *)
Inductive NotebookRawContentEventDto :=
| ModelChangeDto (changes : list (Splice NotebookCellDto))
| MoveDto (index length newIdx : Z)
| OutputDto (index : Z) (outputs : list NotebookOutputDto)
| OutputItemDto (index : Z) (outputId : string)
    (outputItems : list NotebookOutputItemDto) (append : bool)
| CellChangeDto (k : CellChange) (fields : RawFields)
| DocumentMetadataDto (metadata : NotebookDocumentMetadata).

Record NotebookCellsChangedEventDto := {
  versionId : Z;
  rawEvents : list NotebookRawContentEventDto;
}.

(** [{ ...diff, newItems: diff.newItems.map(NotebookDto.toNotebookCellDto) }] *)
Definition splice_to_dto (diff : Splice NotebookCellModel)
  : Splice NotebookCellDto :=
  {| splice_fields := splice_fields diff;
     newItems := toNotebookCellDto <$> newItems diff |}.

(** the [switch (e.kind)] of the listener: what becomes of [rawEvents] *)
Definition switch (raw : list NotebookRawContentEventDto)
  (e : NotebookContentChangedEvent) : list NotebookRawContentEventDto :=
  match e with
  | ModelChangeEvent changes =>
      raw ++ [ModelChangeDto (splice_to_dto <$> changes)]
  | MoveEvent index length newIdx => raw ++ [MoveDto index length newIdx]
  | OutputEvent index outputs =>
      raw ++ [OutputDto index (toNotebookOutputDto <$> outputs)]
  | OutputItemEvent index outputId outputItems append =>
      raw ++ [OutputItemDto index outputId
                (toNotebookOutputItemDto <$> outputItems) append]
  | CellChangeEvent k fields => raw ++ [CellChangeDto k fields]
  | DocumentMetadataEvent metadata => raw ++ [DocumentMetadataDto metadata]
  | OtherEvent _ _ => raw   (* no case, no default *)
  end.

(** A notebook model, as the bridge reads it. *)
Record NotebookModel := {
  uri : URI;
  isDirty : bool;
  metadata : NotebookDocumentMetadata;
}.

Definition Disposable : Type := nat.

(** The calls of the bridge into the proxy, the notebook models and the
    model resolver service. *)
Inductive NotebookCall : Type -> Type :=
| acceptModelChanged (uri : UriComponents)
    (event : NotebookCellsChangedEventDto) (isDirty : bool)
    (newMetadata : option NotebookDocumentMetadata) : NotebookCall unit
| acceptDirtyStateChanged (uri : UriComponents) (isDirty : bool)
    : NotebookCall unit
| onDidChangeContent (notebook : NotebookModel) : NotebookCall Disposable
| dispose (collection : list Disposable) : NotebookCall unit
| resolveUntitledResource (viewType : string)
    : NotebookCall (Outcome NotebookModel)
| resolve (uri : URI) : NotebookCall (Outcome NotebookModel)
| save (ref : NotebookModel) : NotebookCall (Outcome bool)
| dispose_ref (ref : NotebookModel) : NotebookCall unit.

(** the event has one of the kinds the switch names *)
Definition named (e : NotebookContentChangedEvent) : Prop :=
  match e with
  | OtherEvent _ _ => False
  | _ => True
  end.

(** [named], decided *)
Definition is_named (e : NotebookContentChangedEvent) : bool :=
  match e with
  | OtherEvent _ _ => false
  | _ => true
  end.

(** The wire representation the specification asks for, kind by kind: the
    diffs of a structural change with their new items converted; index,
    length and target of a move; the converted payloads of an output and of
    an output-item change; a language, content or metadata change of a cell
    as it is; the metadata of a document-metadata change. *)
Inductive wire_representation
  : NotebookContentChangedEvent -> NotebookRawContentEventDto -> Prop :=
| wire_model_change changes dtos :
    Forall2 (fun diff dto =>
               splice_fields dto = splice_fields diff /\
               newItems dto = toNotebookCellDto <$> newItems diff)
      changes dtos ->
    wire_representation (ModelChangeEvent changes) (ModelChangeDto dtos)
| wire_move index length newIdx :
    wire_representation (MoveEvent index length newIdx)
      (MoveDto index length newIdx)
| wire_output index outputs :
    wire_representation (OutputEvent index outputs)
      (OutputDto index (toNotebookOutputDto <$> outputs))
| wire_output_item index outputId outputItems append :
    wire_representation (OutputItemEvent index outputId outputItems append)
      (OutputItemDto index outputId
         (toNotebookOutputItemDto <$> outputItems) append)
| wire_cell_change k fields :
    wire_representation (CellChangeEvent k fields) (CellChangeDto k fields)
| wire_document_metadata metadata :
    wire_representation (DocumentMetadataEvent metadata)
      (DocumentMetadataDto metadata).

(** the DTO the listener builds from a batch *)
Definition eventDto (events : list NotebookContentChangedEvent)
  : NotebookCellsChangedEventDto :=
  {| versionId := 1; rawEvents := fold_left switch events [] |}.

(** The listener [handleNotebooksAdded] gives to
    [notebook.onDidChangeContent]; [notebook] is the model as it is when
    the batch arrives. *)
Definition content_listener (notebook : NotebookModel)
  (events : list NotebookContentChangedEvent) : Prog NotebookCall unit :=
  let hasDocumentMetadataChangeEvent :=
    find is_ChangeDocumentMetadata events in
  Vis (acceptModelChanged
         (toComponents (uri notebook))
         (eventDto events)
         (isDirty notebook)
         (match hasDocumentMetadataChangeEvent with
          | Some _ => Some (metadata notebook)
          | None => None
          end))
      Ret.

Record NotebookDocumentsMainImpl := {
  (* a [DisposableCollection] is the list of what it disposes *)
  documentEventListenersMapping : gmap string (list Disposable);
}.

Definition set_mapping
  (f : gmap string (list Disposable) -> gmap string (list Disposable))
  (self : NotebookDocumentsMainImpl) : NotebookDocumentsMainImpl :=
  {| documentEventListenersMapping := f (documentEventListenersMapping self) |}.

Definition handleNotebooksAdded (notebooks : list NotebookModel)
  : Method NotebookCall NotebookDocumentsMainImpl unit :=
  for_each notebooks (fun notebook =>
    (listener <- Method.call (onDidChangeContent notebook) ;;
     Method.modify
       (set_mapping (insert (uri_toString (uri notebook)) [listener])))
    %method).

Definition handleNotebooksRemoved (uris : list UriComponents)
  : Method NotebookCall NotebookDocumentsMainImpl unit :=
  for_each uris (fun uri =>
    (self <- Method.get ;;
     match documentEventListenersMapping self !! UriComponents_toString uri
     with
     | Some collection => Method.call (dispose collection)
     | None => Method.ret tt
     end ;;
     Method.modify (set_mapping (delete (UriComponents_toString uri))))
    %method).

Definition tryCreateNotebook (viewType : string)
  : Method NotebookCall NotebookDocumentsMainImpl UriComponents :=
  (ref <- Method.await (resolveUntitledResource viewType) ;;
   Method.call (acceptDirtyStateChanged (toComponents (uri ref)) true) ;;
   Method.ret (toComponents (uri ref)))%method.

Definition tryOpenNotebook (uriComponents : UriComponents)
  : Method NotebookCall NotebookDocumentsMainImpl UriComponents :=
  let uri := fromComponents uriComponents in
  Method.ret (toComponents uri).

Definition trySaveNotebook (uriComponents : UriComponents)
  : Method NotebookCall NotebookDocumentsMainImpl bool :=
  let uri := fromComponents uriComponents in
  (ref <- Method.await (resolve uri) ;;
   Method.await (save ref) ;;
   Method.call (dispose_ref ref) ;;
   Method.ret true)%method.

End WithTypes.
End NotebookDocuments.

(** ** Notebook cell resources ([notebook-cell-resource-resolver.ts]) *)

Module NotebookCell.
Section WithUri.
Context `{UriApi}.

(** [CellUri] of [@theia/notebook/lib/common]: the scheme of cell URIs, and
    the parser giving the notebook's URI and the cell's handle. *)
Variable CellUri_scheme : string.
Variable CellUri_parse : URI -> option (URI * Z).

Record NotebookCellModel := {
  handle : Z;
  source : string;
}.

Record NotebookModel := {
  cells : list NotebookCellModel;
}.

(** [NotebookService], as far as the resolver asks it:
    [getNotebookEditorModel]. *)
Definition NotebookService : Type := URI -> option NotebookModel.

Record NotebookCellResource := {
  uri : URI;
  cell : NotebookCellModel;
}.

Definition readContents (r : NotebookCellResource) : Outcome string :=
  Resolved (source (cell r)).

Definition cannot_resolve (u : URI) : Error :=
  {| message := "Cannot resolve cell uri with scheme '" ++ uri_scheme u ++ "'" |}.

Definition cant_parse (u : URI) : Error :=
  {| message := "cant parse uri " ++ uri_toString u |}.

Definition no_notebook (notebook : URI) : Error :=
  {| message := "no notebook found for uri " ++ uri_toString notebook |}.

Definition no_cell (handle : Z) (notebook : URI) : Error :=
  {| message := "no cell found with hanlde " ++ pretty handle ++ " in " ++
                uri_toString notebook |}.

Definition resolve (notebookService : NotebookService) (u : URI)
  : Outcome NotebookCellResource :=
  if bool_decide (uri_scheme u <> CellUri_scheme) then
    Rejected (cannot_resolve u)
  else
    match CellUri_parse u with
    | None => Rejected (cant_parse u)
    | Some (notebook, h) =>
        match notebookService notebook with
        | None => Rejected (no_notebook notebook)
        | Some notebookModel =>
            match find (fun cell => bool_decide (handle cell = h))
                    (cells notebookModel) with
            | None => Rejected (no_cell h notebook)
            | Some notebookCellModel =>
                Resolved {| uri := u; cell := notebookCellModel |}
            end
        end
    end.

End WithUri.
End NotebookCell.

(** ** [$startFileSearch] ([workspace-main.ts], lines 268-305) *)

(** a block with a variable of its own: the method [m] works on the
    variable, which starts as [init], and the block gives its last value *)
Definition with_local {E S L R} (init : L) (m : Method E L R)
  : Method E S L :=
  fun s =>
    pbind (m init) (fun '(o, l) =>
      Ret (match o with
           | Resolved _ => Resolved l
           | Rejected e => Rejected e
           end, s)).

Module FileSearch.

(** [excludePatternOrDisregardExcludes?: string | false] *)
Inductive Excludes :=
| excludes_undefined
| excludes_false
| excludes_pattern (pattern : string).

(** [excludePatternOrDisregardExcludes !== false] *)
Definition is_not_false (excludes : Excludes) : bool :=
  match excludes with
  | excludes_false => false
  | _ => true
  end.

(** [FileSearchService.RootOptions]: for each root its options, which hold
    nothing but their [excludePatterns], unset or an array *)
Abbreviation RootOptions := (gmap string (option (list string))).

(** [FileSearchService.Options] *)
Record Options := {
  rootOptions : RootOptions;
  useGitIgnore : bool;
  includePatterns : option (list string);
  excludePatterns : option (list string);
  limit : option Z;
}.

(** The calls of the file search: the ['files.exclude'] preference of a
    root, an object from patterns to booleans given in the order of its
    keys, or [undefined]; and the search itself. *)
Inductive FileSearchCall : Type -> Type :=
| files_exclude (rootUri : string)
    : FileSearchCall (option (list (string * bool)))
| find (searchPattern : string) (opts : Options)
    : FileSearchCall (Outcome (list string)).

(** the [TypeError] of [for (const rootUri of undefined)], in the words of
    V8 *)
Definition not_iterable : string := "rootUris is not iterable".

(** [rootExcludePatterns = rootOptions.excludePatterns || []; push;
    rootOptions.excludePatterns = rootExcludePatterns], on
    [roots[rootUri]] *)
Definition push_exclude (rootUri excludePattern : string)
  (roots : RootOptions) : RootOptions :=
  alter (fun rootExcludePatterns =>
           Some (default [] rootExcludePatterns ++ [excludePattern])%list)
    rootUri roots.

(** the body of the second loop over the roots *)
Definition exclude_of_preferences (rootUri : string)
  : Method FileSearchCall RootOptions unit :=
  (filesExclude <- Method.call (files_exclude rootUri) ;;
   match filesExclude with
   | Some entries =>
       for_each entries (fun '(excludePattern, enabled) =>
         if enabled : bool
         then Method.modify (push_exclude rootUri excludePattern)
         else Method.ret tt)
   | None => Method.ret tt
   end)%method.

Section WithUri.
Context `{UriApi}.

(** [Uri.parse] of [vscode-uri] *)
Variable Uri : Type.
Variable Uri_parse : string -> Uri.

(** the roots a search looks in, [rootUris]: the folder, when one is given,
    and the roots of the workspace otherwise *)
Definition searches (includeFolderUri : option string)
  (self : Workspace.WorkspaceMainImpl) (rootUris : list string) : Prop :=
  (exists folder,
     includeFolderUri = Some folder /\ folder <> "" /\ rootUris = [folder]) \/
  ((includeFolderUri = None \/ includeFolderUri = Some "") /\
   Workspace.roots self = Some rootUris).

(** [uriStrs.map(uriStr => Uri.parse(uriStr))] *)
Definition parse_all (uriStrs : list string) : list Uri :=
  Uri_parse <$> uriStrs.

Definition startFileSearch (includePattern : string)
  (includeFolderUri : option string) (excludes : Excludes)
  (maxResults : option Z)
  : Method FileSearchCall Workspace.WorkspaceMainImpl (list Uri) :=
  (self <- Method.get ;;
   let rootUris :=
     match includeFolderUri with
     | Some folder =>
         if Js.truthy folder then Some [folder] else Workspace.roots self
     | None => Workspace.roots self
     end in
   match rootUris with
   | None => Method.throw not_iterable
   | Some rootUris =>
       roots <- with_local
                  (foldl (fun roots rootUri => <[rootUri := None]> roots)
                     (∅ : RootOptions) rootUris)
                  (if is_not_false excludes
                   then for_each rootUris exclude_of_preferences
                   else Method.ret tt) ;;
       let opts :=
         {| rootOptions := roots;
            useGitIgnore := is_not_false excludes;
            includePatterns :=
              if Js.truthy includePattern then Some [includePattern]
              else None;
            excludePatterns :=
              match excludes with
              | excludes_pattern pattern => Some [pattern]
              | _ => None
              end;
            limit := maxResults |} in
       uriStrs <- Method.await (find "" opts) ;;
       Method.ret (parse_all uriStrs)
   end)%method.

End WithUri.

(** the patterns of a preference that are switched on, as the loop leaves
    them in [excludePatterns] of a root that had none: unset when there is
    no such pattern *)
Definition enabled_patterns (filesExclude : option (list (string * bool)))
  : option (list string) :=
  match filesExclude with
  | None => None
  | Some entries =>
      match (filter (fun entry => entry.2 = true) entries).*1 with
      | [] => None
      | patterns => Some patterns
      end
  end.

(** what the inner loop does to the options of the roots *)
Definition apply_preference (rootUri : string)
  (filesExclude : option (list (string * bool))) (roots : RootOptions)
  : RootOptions :=
  match filesExclude with
  | Some entries =>
      foldl (fun roots '(excludePattern, enabled) =>
               if enabled : bool
               then push_exclude rootUri excludePattern roots else roots)
        roots entries
  | None => roots
  end.

Arguments parse_all {Uri} Uri_parse uriStrs.
Arguments startFileSearch {H Uri} Uri_parse includePattern includeFolderUri
  excludes maxResults.

End FileSearch.

(** ** Concrete collaborators, to run the methods on examples *)

Module Examples.

(** a plugin side that answers every content request with [answer] *)
Definition answering (answer : Outcome (Js.nullable string))
  : Env TextContent.ResourceCall unit :=
  fun X e w =>
    match e in TextContent.ResourceCall X return X * unit with
    | TextContent.provideTextDocumentContent _ _ => (answer, tt)
    | TextContent.fireDidChangeContents => (tt, tt)
    end.

Definition readme : @TextContent.TextContentResource plain_uri :=
  @TextContent.Build_TextContentResource plain_uri (file_uri "/readme") 0 None.

(** a history of (un)registrations on a resolver that starts empty; a
    call that throws leaves what it had done before throwing *)
Inductive ResolverOp :=
| Register (scheme : string) (p : WorkspaceExt)
| Unregister (scheme : string).

Definition apply_op `{UriApi} (op : ResolverOp)
  (self : TextContent.TextContentResourceResolver)
  : TextContent.TextContentResourceResolver :=
  match op with
  | Register scheme p =>
      (pure_result (TextContent.registerContentProvider scheme p self)).2
  | Unregister scheme =>
      (pure_result (TextContent.unregisterContentProvider scheme self)).2
  end.

Definition fresh `{UriApi} : TextContent.TextContentResourceResolver :=
  {| TextContent.providers := ∅; TextContent.resources := ∅ |}.

Definition after `{UriApi} (ops : list ResolverOp)
  : TextContent.TextContentResourceResolver :=
  foldl (fun self op => apply_op op self) fresh ops.

(** workspace collaborators: the canonical-URI service answers every
    registration with [registered]; nothing is stored by the plugin server *)
Definition workspace_env (registered : Outcome Workspace.Disposable)
  : Env (Workspace.WorkspaceCall unit) unit :=
  fun X e w =>
    match e in Workspace.WorkspaceCall _ X return X * unit with
    | Workspace.onWorkspaceFoldersChanged _ _ => (tt, tt)
    | Workspace.workspace_resource _ => (None, tt)
    | Workspace.tryGetRoots _ => ([], tt)
    | Workspace.getAllStorageValues _ _ _ => (Resolved tt, tt)
    | Workspace.updatePluginsWorkspaceData _ _ => (tt, tt)
    | Workspace.canonicalUriService_register _ _ => (registered, tt)
    | Workspace.dispose _ _ => (tt, tt)
    | Workspace.console_warn _ _ => (tt, tt)
    end.

Definition workspace (canonical : gmap string Workspace.Disposable)
  (current : option (list string)) : @Workspace.WorkspaceMainImpl plain_uri :=
  {| Workspace.proxy := 0;
     Workspace.resourceResolver := after [Register "git" 0];
     Workspace.toDispose := [];
     Workspace.workspaceSearch := ∅;
     Workspace.canonicalUriProviders := canonical;
     Workspace.roots := current |}.

(** one file with three matches, the matches being their line numbers *)
Definition three_matches : Workspace.SearchInWorkspaceResult nat :=
  {| Workspace.fileUri := "file:///a.txt"; Workspace.root := "file:///";
     Workspace.result_matches := [10; 20; 30] |}.

(** notebooks whose cells, outputs and metadata are numbers; the enum has
    no kind besides those the switch names *)
Definition plain_notebooks : NotebookTypes := {|
  NotebookCellModel := nat;
  NotebookCellDto := nat;
  toNotebookCellDto := fun cell => cell;
  CellOutput := nat;
  NotebookOutputDto := nat;
  toNotebookOutputDto := fun output => output;
  CellOutputItem := nat;
  NotebookOutputItemDto := nat;
  toNotebookOutputItemDto := fun item => item;
  NotebookDocumentMetadata := nat;
  SpliceFields := Z * Z;
  RawFields := nat;
  OtherKind := Empty_set;
|}.

(** the members of [NotebookCellsChangeType] that the switch of the change
    listener does not name *)
Inductive UnnamedKind :=
| Initialize
| Unknown.

(** the same notebooks, with the whole enum *)
Definition theia_notebooks : NotebookTypes := {|
  NotebookCellModel := nat;
  NotebookCellDto := nat;
  toNotebookCellDto := fun cell => cell;
  CellOutput := nat;
  NotebookOutputDto := nat;
  toNotebookOutputDto := fun output => output;
  CellOutputItem := nat;
  NotebookOutputItemDto := nat;
  toNotebookOutputItemDto := fun item => item;
  NotebookDocumentMetadata := nat;
  SpliceFields := Z * Z;
  RawFields := nat;
  OtherKind := UnnamedKind;
|}.

(** a proxy that accepts every batch *)
Definition accepting_env (types : NotebookTypes)
  (nb : @NotebookDocuments.NotebookModel plain_uri types)
  : Env (@NotebookDocuments.NotebookCall plain_uri types) unit :=
  fun X e w =>
    match e in NotebookDocuments.NotebookCall X return X * unit with
    | NotebookDocuments.acceptModelChanged _ _ _ _ => (tt, tt)
    | NotebookDocuments.acceptDirtyStateChanged _ _ => (tt, tt)
    | NotebookDocuments.onDidChangeContent _ => (1, tt)
    | NotebookDocuments.dispose _ => (tt, tt)
    | NotebookDocuments.resolveUntitledResource _ => (Resolved nb, tt)
    | NotebookDocuments.resolve _ => (Resolved nb, tt)
    | NotebookDocuments.save _ => (Resolved true, tt)
    | NotebookDocuments.dispose_ref _ => (tt, tt)
    end.

Definition notebook (p : string) (dirty : bool) (meta : nat)
  : @NotebookDocuments.NotebookModel plain_uri plain_notebooks :=
  @NotebookDocuments.Build_NotebookModel plain_uri plain_notebooks
    (file_uri p) dirty meta.

(** a model resolver that resolves everything to the notebook [nb], whose
    save succeeds; every listener registration gets the disposable 1 *)
Definition notebook_env
  (nb : @NotebookDocuments.NotebookModel plain_uri plain_notebooks)
  : Env (@NotebookDocuments.NotebookCall plain_uri plain_notebooks) unit :=
  fun X e w =>
    match e in NotebookDocuments.NotebookCall X return X * unit with
    | NotebookDocuments.acceptModelChanged _ _ _ _ => (tt, tt)
    | NotebookDocuments.acceptDirtyStateChanged _ _ => (tt, tt)
    | NotebookDocuments.onDidChangeContent _ => (1, tt)
    | NotebookDocuments.dispose _ => (tt, tt)
    | NotebookDocuments.resolveUntitledResource _ => (Resolved nb, tt)
    | NotebookDocuments.resolve _ => (Resolved nb, tt)
    | NotebookDocuments.save _ => (Resolved true, tt)
    | NotebookDocuments.dispose_ref _ => (tt, tt)
    end.

Definition no_listeners
  : @NotebookDocuments.NotebookDocumentsMainImpl :=
  {| NotebookDocuments.documentEventListenersMapping := ∅ |}.

(** cell URIs: a parser that reads the handle off the length of the
    fragment, and a service that knows one notebook of two cells *)
Definition cell_scheme : string := "vscode-notebook-cell".

Definition parse_cell (u : @URI plain_uri) : option (@URI plain_uri * Z) :=
  match fragment u with
  | EmptyString => None
  | f => Some (file_uri (path u), Z.of_nat (String.length f))
  end.

Definition two_cells : NotebookCell.NotebookModel :=
  {| NotebookCell.cells :=
       [ {| NotebookCell.handle := 1; NotebookCell.source := "import os" |};
         {| NotebookCell.handle := 2; NotebookCell.source := "print(1)" |} ]
  |}.

Definition one_notebook : @NotebookCell.NotebookService plain_uri :=
  fun u => if bool_decide (path u = "/nb.ipynb") then Some two_cells else None.

Definition cell_uri (p fragment : string) : @URI plain_uri :=
  {| scheme := cell_scheme; authority := ""; path := p; query := "";
     fragment := fragment |}.

(** URIs and resources of a "git" content provider registered with the
    proxy 1, and a resolver that has opened [readme] *)
Definition git_uri (p : string) : @URI plain_uri :=
  {| scheme := "git"; authority := ""; path := p; query := "";
     fragment := "" |}.

Definition git_resource (p : string) (cached : option string)
  : @TextContent.TextContentResource plain_uri :=
  @TextContent.Build_TextContentResource plain_uri (git_uri p) 1 cached.

Definition readme_opened : @TextContent.TextContentResourceResolver plain_uri :=
  TextContent.set_resources (insert "file:/readme" readme) fresh.

(** workspace collaborators whose plugin server fails to read the storage *)
Definition storage_failing (err : Error)
  : Env (Workspace.WorkspaceCall unit) unit :=
  fun X e w =>
    match e in Workspace.WorkspaceCall _ X return X * unit with
    | Workspace.onWorkspaceFoldersChanged _ _ => (tt, tt)
    | Workspace.workspace_resource _ => (None, tt)
    | Workspace.tryGetRoots _ => ([], tt)
    | Workspace.getAllStorageValues _ _ _ => (Rejected err, tt)
    | Workspace.updatePluginsWorkspaceData _ _ => (tt, tt)
    | Workspace.canonicalUriService_register _ _ => (Rejected err, tt)
    | Workspace.dispose _ _ => (tt, tt)
    | Workspace.console_warn _ _ => (tt, tt)
    end.

(** a model resolver that resolves to [nb] unless [resolver_fails], and
    whose saves fail *)
Definition failing_notebook_env (resolver_fails : bool)
  (nb : @NotebookDocuments.NotebookModel plain_uri plain_notebooks)
  (err : Error)
  : Env (@NotebookDocuments.NotebookCall plain_uri plain_notebooks) unit :=
  fun X e w =>
    match e in NotebookDocuments.NotebookCall X return X * unit with
    | NotebookDocuments.acceptModelChanged _ _ _ _ => (tt, tt)
    | NotebookDocuments.acceptDirtyStateChanged _ _ => (tt, tt)
    | NotebookDocuments.onDidChangeContent _ => (1, tt)
    | NotebookDocuments.dispose _ => (tt, tt)
    | NotebookDocuments.resolveUntitledResource _ =>
        (if resolver_fails then Rejected err else Resolved nb, tt)
    | NotebookDocuments.resolve _ =>
        (if resolver_fails then Rejected err else Resolved nb, tt)
    | NotebookDocuments.save _ => (Rejected err, tt)
    | NotebookDocuments.dispose_ref _ => (tt, tt)
    end.

(** the pick menu: a focused element 5, and a user who runs the items at
    the places [picks] before the menu hides; URIs are strings whose path
    is what follows "file://" *)
Definition picker_env (picks : list nat)
  : Env (Workspace.PickCall nat) unit :=
  fun X e w =>
    match e in Workspace.PickCall _ X return X * unit with
    | Workspace.activeElement => (Some 5, tt)
    | Workspace.showQuickPick _ => (picks, tt)
    | Workspace.focus _ => (tt, tt)
    end.

Definition path_of (root : string) : string :=
  Workspace.string_drop 7 root.

(** a file search that finds the same two files whatever is asked, and
    preferences that exclude [node_modules], but not [dist], in the root
    "file:///w/a" only *)
Definition file_search_env : Env FileSearch.FileSearchCall unit :=
  fun X e w =>
    match e in FileSearch.FileSearchCall X return X * unit with
    | FileSearch.files_exclude rootUri =>
        (if bool_decide (rootUri = "file:///w/a")
         then Some [("**/node_modules", true); ("**/dist", false)]
         else None, tt)
    | FileSearch.find _ _ =>
        (Resolved ["file:///w/a/x.ts"; "file:///w/b/y.ts"], tt)
    end.

End Examples.

(** * Properties *)

Local Open Scope list_scope.

Lemma truthy_nonempty s : Js.truthy s = true <-> s <> "".
Proof. destruct s; simpl; split; congruence. Qed.

Lemma truthy_opt_Some c :
  Js.truthy_opt c = true <-> exists s, c = Some s /\ s <> "".
Proof.
  destruct c as [s|]; simpl.
  - rewrite truthy_nonempty. split; [eauto | intros (? & [= <-] & ?); done].
  - split; [done | intros (? & ? & ?); done].
Qed.

(** ** Text content resources *)

Section TextContentFacts.
Context `{UriApi}.
Import TextContent.

(** A read with something in the cache is answered from it, without a
    call, and empties it. *)
Lemma readContents_cached (self : TextContentResource) s :
  cache self = Some s -> s <> "" ->
  readContents self = Ret (Resolved (Js.val s), set_cache None self).
Proof.
  intros Hc Hs. unfold readContents, Method.bind, Method.get. simpl.
  rewrite Hc. simpl. apply truthy_nonempty in Hs. rewrite Hs. reflexivity.
Qed.

(** A read with nothing (or the empty string) in the cache asks the plugin
    side once, and leaves the resource as it is. *)
Lemma readContents_fetch {W} (env : Env ResourceCall W) (w : W)
  (self : TextContentResource) :
  Js.truthy_opt (cache self) = false ->
  let request :=
    provideTextDocumentContent (proxy self) (uri_toString (uri self)) in
  exec env (readContents self) w =
  ([called request],
   (match (env _ request w).1 with
    | Resolved content => Resolved (Js.coalesce content (Js.val ""))
    | Rejected e => Rejected e
    end, self),
   (env _ request w).2).
Proof.
  intros Hc request. unfold readContents, Method.bind, Method.get. simpl.
  rewrite Hc. simpl. fold request.
  destruct (env _ request w) as [[content|e] w1]; reflexivity.
Qed.

Lemma setContent_exec {W} (env : Env ResourceCall W) (w : W)
  (self : TextContentResource) (s : string) {R}
  (next : Method ResourceCall TextContentResource R) :
  exec env ((setContent s ;; next)%method self) w =
  (let '(tr, r, w2) :=
     exec env (next (set_cache (Some s) self))
       (env _ fireDidChangeContents w).2 in
   (called fireDidChangeContents :: tr, r, w2)).
Proof.
  unfold setContent, Method.bind, Method.modify, Method.call. simpl.
  destruct (env _ fireDidChangeContents w) as [[] w1]. reflexivity.
Qed.

(** C3, as the code has it.  After [setContent s] with [s] not empty, the
    next [readContents] resolves to [s] without asking the plugin side and
    empties the cache; the read after that asks the plugin side through
    [$provideTextDocumentContent] and resolves to its answer ([''] for a
    nullish one), the cache staying empty. *)
Theorem read_after_setContent {W} (env : Env ResourceCall W) (w : W)
  (self : TextContentResource) (s : string) :
  s <> "" ->
  let first := exec env ((setContent s ;; readContents)%method self) w in
  let emptied := set_cache None self in
  let request :=
    provideTextDocumentContent (proxy self) (uri_toString (uri self)) in
  first.1.1 = [called fireDidChangeContents] /\
  first.1.2 = (Resolved (Js.val s), emptied) /\
  forall w',
    exec env (readContents emptied) w' =
    ([called request],
     (match (env _ request w').1 with
      | Resolved content => Resolved (Js.coalesce content (Js.val ""))
      | Rejected e => Rejected e
      end, emptied),
     (env _ request w').2).
Proof.
  intros Hs first emptied request. subst first.
  rewrite setContent_exec.
  rewrite (readContents_cached (set_cache (Some s) self) s eq_refl Hs).
  simpl. repeat split.
  intros w'. apply (readContents_fetch env w' emptied). reflexivity.
Qed.

(** C10.  [readContents] never resolves to [undefined] (nor to [null]): it
    resolves to a string, and to the empty string when the cache holds
    nothing and the plugin side answers [undefined] or [null]. *)
Theorem readContents_never_undefined {W} (env : Env ResourceCall W) (w : W)
  (self : TextContentResource) :
  (forall content self',
     result_of env (readContents self) w = (Resolved content, self') ->
     exists s, content = Js.val s) /\
  (Js.truthy_opt (cache self) = false ->
   forall answer,
     (env _ (provideTextDocumentContent (proxy self)
               (uri_toString (uri self))) w).1 = Resolved answer ->
     answer = Js.undefined \/ answer = Js.null ->
     result_of env (readContents self) w = (Resolved (Js.val ""), self)).
Proof.
  unfold result_of. split.
  - intros content self'.
    destruct (Js.truthy_opt (cache self)) eqn:Hc.
    + apply truthy_opt_Some in Hc as (s & Hc & Hs).
      rewrite (readContents_cached self s Hc Hs). simpl.
      intros [= <- _]. eauto.
    + rewrite (readContents_fetch env w self Hc). simpl.
      destruct (env _ _ w) as [[answer|e] w1]; simpl; [|done].
      intros [= <- _]. destruct answer; simpl; eauto.
  - intros Hc answer Ha Hnull.
    rewrite (readContents_fetch env w self Hc). simpl. rewrite Ha.
    destruct Hnull as [-> | ->]; reflexivity.
Qed.

End TextContentFacts.

(** C3 as stated fails for the empty string: [if (this.cache)] takes it
    for an empty cache, so the read asks the plugin side, resolves to its
    answer and leaves the cache as it was set. *)
Lemma setContent_empty_not_read_back :
  let out :=
    result_of (Examples.answering (Resolved (Js.val "from the plugin")))
      ((TextContent.setContent "" ;; TextContent.readContents)%method
         Examples.readme) tt in
  out.1 = Resolved (Js.val "from the plugin") /\
  out.1 <> Resolved (Js.val "") /\
  TextContent.cache out.2 = Some "".
Proof. vm_compute. repeat split. discriminate. Qed.

Lemma read_after_setContent_witness :
  (exec (Examples.answering (Resolved (Js.val "from the plugin")))
     ((TextContent.setContent "text" ;; TextContent.readContents)%method
        Examples.readme) tt).1.2 =
  (Resolved (Js.val "text"), Examples.readme).
Proof.
  apply (read_after_setContent
           (Examples.answering (Resolved (Js.val "from the plugin"))) tt
           Examples.readme "text").
  discriminate.
Defined.

Lemma readContents_never_undefined_witness :
  (exists s, Js.val "" = Js.val s) /\
  result_of (Examples.answering (Resolved Js.undefined))
    (TextContent.readContents Examples.readme) tt =
  (Resolved (Js.val ""), Examples.readme).
Proof.
  pose proof (readContents_never_undefined
                (Examples.answering (Resolved Js.undefined)) tt
                Examples.readme) as [Hstr Hempty].
  split.
  - apply (Hstr (Js.val "") Examples.readme). reflexivity.
  - apply (Hempty eq_refl Js.undefined eq_refl). left. reflexivity.
Defined.

(** ** The text content resolver *)

Section ResolverFacts.
Context `{UriApi}.
Import TextContent.

Lemma set_providers_id (self : TextContentResourceResolver) :
  set_providers (fun _ => providers self) self = self.
Proof. by destruct self. Qed.

Lemma registerContentProvider_taken {E} (self : TextContentResourceResolver)
  (s : string) (p : WorkspaceExt) :
  is_Some (providers self !! s) ->
  registerContentProvider (E := E) s p self =
  Ret (Rejected {| message := already_registered s |}, self).
Proof.
  intros [first Hs]. unfold registerContentProvider, Method.bind. simpl.
  by rewrite Hs.
Qed.

Lemma registerContentProvider_free {E} (self : TextContentResourceResolver)
  (s : string) (p : WorkspaceExt) :
  providers self !! s = None ->
  registerContentProvider (E := E) s p self =
  Ret (Resolved tt,
       set_providers (insert s {| provider_proxy := p |}) self).
Proof.
  intros Hs. unfold registerContentProvider, Method.bind. simpl.
  by rewrite Hs.
Qed.

Lemma unregisterContentProvider_absent {E}
  (self : TextContentResourceResolver) (s : string) :
  providers self !! s = None ->
  unregisterContentProvider (E := E) s self =
  Ret (Rejected {| message := not_registered s |}, self).
Proof.
  intros Hs. unfold unregisterContentProvider, map_delete, Method.bind.
  simpl. rewrite bool_decide_eq_false_2; [| by rewrite Hs; intros []].
  simpl. unfold set_providers. simpl.
  rewrite delete_id by done. by destruct self.
Qed.

Lemma unregisterContentProvider_present {E}
  (self : TextContentResourceResolver) (s : string) :
  is_Some (providers self !! s) ->
  unregisterContentProvider (E := E) s self =
  Ret (Resolved tt, set_providers (delete s) self).
Proof.
  intros Hs. unfold unregisterContentProvider, map_delete, Method.bind.
  simpl. by rewrite bool_decide_eq_true_2.
Qed.

(** C6.  Registering a content provider for a scheme that has one throws
    and leaves the resolver, and so the first registration, as it was;
    unregistering a scheme that has none throws. *)
Theorem registerContentProvider_guarded {E}
  (self : TextContentResourceResolver) (s : string) (p : WorkspaceExt) :
  (forall first,
     providers self !! s = Some first ->
     registerContentProvider (E := E) s p self =
       Ret (Rejected {| message := already_registered s |}, self) /\
     providers self !! s = Some first) /\
  (providers self !! s = None ->
   unregisterContentProvider (E := E) s self =
     Ret (Rejected {| message := not_registered s |}, self)).
Proof.
  split.
  - intros first Hs. split; [|done].
    apply registerContentProvider_taken. by exists first.
  - apply unregisterContentProvider_absent.
Qed.

Lemma never_registered_from (ops : list Examples.ResolverOp) (s : string) :
  forall self0 : TextContentResourceResolver,
  providers self0 !! s = None ->
  (forall p, Examples.Register s p ∉ ops) ->
  providers (foldl (fun self op => Examples.apply_op op self) self0 ops)
    !! s = None.
Proof.
  induction ops as [|op ops IH]; intros self0 H0 Hnot; [done|].
  simpl. apply IH.
  - destruct op as [s' p'|s']; unfold Examples.apply_op; simpl.
    + destruct (providers self0 !! s') eqn:Hs'.
      * rewrite registerContentProvider_taken by eauto. done.
      * rewrite registerContentProvider_free by done. simpl.
        rewrite lookup_insert_ne; [done|].
        intros ->. apply (Hnot p'). by left.
    + destruct (providers self0 !! s') eqn:Hs'.
      * rewrite unregisterContentProvider_present by eauto. simpl.
        destruct (decide (s' = s)) as [->|Hne].
        -- apply lookup_delete_eq.
        -- by rewrite lookup_delete_ne.
      * rewrite unregisterContentProvider_absent by done. done.
  - intros p Hin. apply (Hnot p). by right.
Qed.

(** A scheme that no call has registered is not in the map, whatever else
    was registered and unregistered, so unregistering it throws. *)
Lemma never_registered_unregister_throws {E}
  (ops : list Examples.ResolverOp) (s : string) :
  (forall p, Examples.Register s p ∉ ops) ->
  unregisterContentProvider (E := E) s (Examples.after ops) =
  Ret (Rejected {| message := not_registered s |}, Examples.after ops).
Proof.
  intros Hnot. apply unregisterContentProvider_absent.
  apply never_registered_from; [apply lookup_empty | done].
Qed.

End ResolverFacts.

Lemma registerContentProvider_guarded_witness :
  TextContent.registerContentProvider (E := NoCall) "git" 7
    (Examples.after (H := plain_uri) [Examples.Register "git" 1]) =
  Ret (Rejected {| message := TextContent.already_registered "git" |},
       Examples.after [Examples.Register "git" 1]) /\
  TextContent.unregisterContentProvider (E := NoCall) "svn"
    (Examples.after (H := plain_uri) [Examples.Register "git" 1]) =
  Ret (Rejected {| message := TextContent.not_registered "svn" |},
       Examples.after [Examples.Register "git" 1]).
Proof.
  pose proof (registerContentProvider_guarded (E := NoCall)
                (Examples.after (H := plain_uri) [Examples.Register "git" 1]))
    as Hg.
  split.
  - destruct (Hg "git" 7) as [Htaken _].
    apply (Htaken {| TextContent.provider_proxy := 1 |}). reflexivity.
  - destruct (Hg "svn" 0) as [_ Habsent].
    apply Habsent. reflexivity.
Defined.

(** ** Workspace roots *)

Lemma some_from_true {A} (f : A -> nat -> bool) (l : list A) (i : nat) :
  some_from f i l = true <->
  exists j x, l !! j = Some x /\ f x (i + j) = true.
Proof.
  revert i. induction l as [|x l IH]; intros i; simpl.
  - split; [done | intros (j & y & Hj & _); done].
  - rewrite orb_true_iff, IH. split.
    + intros [Hx | (j & y & Hj & Hy)].
      * exists 0, x. by rewrite Nat.add_0_r.
      * exists (S j), y. split; [done|]. by rewrite Nat.add_succ_r.
    + intros ([|j] & y & Hj & Hy); simpl in Hj.
      * left. injection Hj as ->. by rewrite Nat.add_0_r in Hy.
      * right. exists j, y. split; [done|]. by rewrite Nat.add_succ_r in Hy.
Qed.

Section RootsFacts.
Context `{UriApi}.
Variable KeysToKeysToAnyValue : Type.
Import Workspace.

Abbreviation WorkspaceCall := (WorkspaceCall KeysToKeysToAnyValue).

Lemma isAnyRootChanged_differs (self : WorkspaceMainImpl)
  (old new_roots : list string) :
  roots self = Some old ->
  isAnyRootChanged new_roots self = true <-> differs old new_roots.
Proof.
  intros Hold. unfold isAnyRootChanged, differs, some. rewrite Hold.
  destruct (Nat.eqb_spec (length old) (length new_roots)) as [Hlen|Hlen];
    simpl.
  - rewrite some_from_true. split.
    + intros (j & x & Hj & Hx). right. exists j, x. split; [done|].
      by apply bool_decide_eq_true in Hx.
    + intros [? | (j & x & Hj & Hx)]; [done|]. exists j, x.
      split; [done|]. by apply bool_decide_eq_true.
  - split; [by left | done].
Qed.

Lemma differs_neq (old new_roots : list string) :
  differs old new_roots <-> old <> new_roots.
Proof.
  split.
  - intros [Hlen | (i & root & Hi & Hne)] ->; [done|]. by rewrite Hi in Hne.
  - intros Hne.
    destruct (decide (length old = length new_roots)) as [Hlen|]; [|by left].
    right.
    revert new_roots Hne Hlen.
    induction old as [|x old IH]; intros [|y new_roots] Hne Hlen; try done.
    destruct (decide (x = y)) as [->|Hxy].
    + destruct (IH new_roots) as (i & root & Hi & Hd); [congruence|by inversion Hlen|].
      by exists (S i), root.
    + exists 0, x. split; [done|]. simpl. congruence.
Qed.

(** C5.  With roots stored before, [processWorkspaceFoldersChanged] sends
    [$onWorkspaceFoldersChanged] and stores the new list exactly when the
    new list differs from the stored one in length or at some position:
    the stored roots are then the new list, and nothing else of the
    instance changes; a list equal at every position makes no call and
    leaves the instance, and so the stored roots, as it was. *)
Theorem processWorkspaceFoldersChanged_notifies {W}
  (env : Env WorkspaceCall W) (w : W) (self : WorkspaceMainImpl)
  (old new_roots : list string) :
  roots self = Some old ->
  let out := exec env (processWorkspaceFoldersChanged _ new_roots self) w in
  (differs old new_roots ->
   (exists rest,
      out.1.1 = called (onWorkspaceFoldersChanged _ new_roots) :: rest) /\
   out.1.2.2 = set_roots (Some new_roots) self /\
   roots out.1.2.2 = Some new_roots /\
   proxy out.1.2.2 = proxy self /\
   resourceResolver out.1.2.2 = resourceResolver self /\
   toDispose out.1.2.2 = toDispose self /\
   workspaceSearch out.1.2.2 = workspaceSearch self /\
   canonicalUriProviders out.1.2.2 = canonicalUriProviders self) /\
  (~ differs old new_roots ->
   out = ([], (Resolved tt, self), w) /\ roots out.1.2.2 = Some old) /\
  (differs old new_roots <->
   exists r, In (called (onWorkspaceFoldersChanged _ r)) out.1.1).
Proof.
  intros Hold out. subst out.
  pose proof (isAnyRootChanged_differs self old new_roots Hold) as Hiff.
  unfold processWorkspaceFoldersChanged, Method.bind, Method.get. simpl.
  destruct (isAnyRootChanged new_roots self) eqn:Hchanged; simpl.
  - assert (differs old new_roots) as Hd by by apply Hiff.
    unfold Method.call, Method.await. simpl.
    destruct (env _ (onWorkspaceFoldersChanged _ new_roots) w) as [[] w1].
    destruct (env _ (workspace_resource _) w1) as [ws w2].
    destruct (env _ (tryGetRoots _) w2) as [current w3].
    destruct (env _ (getAllStorageValues _ ws current) w3) as [[data|e] w4];
      simpl.
    + destruct (env _ (updatePluginsWorkspaceData _ data) w4) as [[] w5].
      simpl. repeat split; eauto; try done.
    + repeat split; eauto; try done.
  - assert (~ differs old new_roots) as Hd.
    { intros Hd. apply Hiff in Hd. done. }
    repeat split; try done.
    intros (r & []).
Qed.

End RootsFacts.

Lemma processWorkspaceFoldersChanged_notifies_witness :
  let out :=
    exec (Examples.workspace_env (Resolved 0))
      (Workspace.processWorkspaceFoldersChanged unit ["file:///b"]
         (Examples.workspace ∅ (Some ["file:///a"]))) tt in
  exists r, In (called (Workspace.onWorkspaceFoldersChanged unit r)) out.1.1.
Proof.
  apply (processWorkspaceFoldersChanged_notifies unit
           (Examples.workspace_env (Resolved 0)) tt
           (Examples.workspace ∅ (Some ["file:///a"]))
           ["file:///a"] ["file:///b"] eq_refl).
  right. exists 0, "file:///a". split; [reflexivity | discriminate].
Defined.

(** ** The two registries of [WorkspaceMainImpl] *)

Section RegistryFacts.
Context `{UriApi}.
Variable KeysToKeysToAnyValue : Type.
Import Workspace.

Abbreviation WorkspaceCall := (WorkspaceCall KeysToKeysToAnyValue).

Lemma set_resourceResolver_id (self : WorkspaceMainImpl) :
  set_resourceResolver (resourceResolver self) self = self.
Proof. by destruct self. Qed.

(** What the four methods do, whatever the collaborators: the text
    content path throws on a second registration and on unregistering an
    absent scheme, making no call and leaving the instance as it was; the
    canonical-URI path warns on the console when asked to unregister an
    absent scheme and leaves the instance as it was;
    [$registerCanonicalUriProvider] asks the canonical-URI service once,
    rejects and leaves the instance as it was when that call throws, and
    otherwise stores the returned disposable under the scheme. *)
Lemma registry_methods {W} (env : Env WorkspaceCall W) (w : W)
  (self : WorkspaceMainImpl) (s : string) :
  (is_Some (TextContent.providers (resourceResolver self) !! s) ->
   exec env (registerTextDocumentContentProvider _ s self) w =
   ([], (Rejected {| message := TextContent.already_registered s |}, self),
    w)) /\
  (TextContent.providers (resourceResolver self) !! s = None ->
   exec env (unregisterTextDocumentContentProvider _ s self) w =
   ([], (Rejected {| message := TextContent.not_registered s |}, self),
    w)) /\
  (canonicalUriProviders self !! s = None ->
   let warning := console_warn _ (no_canonical_provider s) in
   exec env (unregisterCanonicalUriProvider _ s self) w =
   ([called warning], (Resolved tt, self), (env _ warning w).2)) /\
  (let request := canonicalUriService_register _ s in
   exec env (registerCanonicalUriProvider _ s self) w =
   ([called request],
    match (env _ request w).1 with
    | Resolved d =>
        (Resolved tt, set_canonicalUriProviders (insert s d) self)
    | Rejected e => (Rejected e, self)
    end,
    (env _ request w).2)).
Proof.
  repeat split.
  - intros Hs.
    unfold registerTextDocumentContentProvider, Method.bind, zoom. simpl.
    rewrite registerContentProvider_taken by done. simpl.
    by rewrite set_resourceResolver_id.
  - intros Hs.
    unfold unregisterTextDocumentContentProvider, zoom.
    rewrite unregisterContentProvider_absent by done. simpl.
    by rewrite set_resourceResolver_id.
  - intros Hs warning.
    unfold unregisterCanonicalUriProvider, Method.bind, Method.call. simpl.
    rewrite Hs. simpl. fold warning.
    by destruct (env _ warning w) as [[] w1].
  - unfold registerCanonicalUriProvider, Method.bind, Method.await. simpl.
    by destruct (env _ (canonicalUriService_register _ s) w)
      as [[d|e] w1].
Qed.

(** *** The bridge in front of the canonical-URI service *)

Lemma service_register_taken (s : string) (service : CanonicalUriService) :
  is_Some (service_providers service !! s) ->
  service_register s service =
  (Rejected {| message := provider_exists s |}, service).
Proof. intros [d Hd]. unfold service_register. by rewrite Hd. Qed.

Lemma service_wf_new : service_wf new_service.
Proof. split; intros *; simpl; by rewrite lookup_empty. Qed.

Lemma in_step_new (self : WorkspaceMainImpl) (service : CanonicalUriService) :
  canonicalUriProviders self = ∅ -> in_step self service.
Proof. intros Hempty s d. by rewrite Hempty, lookup_empty. Qed.

Lemma service_register_wf (s : string) (service : CanonicalUriService) :
  service_wf service -> service_wf (service_register s service).2.
Proof.
  intros [Hold Hinj]. unfold service_register.
  destruct (service_providers service !! s) as [d|] eqn:Hs; [done|].
  split; simpl.
  - intros s1 d1. destruct (decide (s1 = s)) as [->|Hne].
    + rewrite lookup_insert_eq. intros [= <-]. lia.
    + rewrite lookup_insert_ne by done. intros Hd1.
      specialize (Hold s1 d1 Hd1). lia.
  - intros s1 s2 d1.
    destruct (decide (s1 = s)) as [->|Hne1];
      destruct (decide (s2 = s)) as [->|Hne2]; try done.
    + rewrite lookup_insert_eq, lookup_insert_ne by done.
      intros [= <-] Hd2. specialize (Hold s2 _ Hd2). lia.
    + rewrite lookup_insert_eq, lookup_insert_ne by done.
      intros Hd1 [= <-]. specialize (Hold s1 _ Hd1). lia.
    + rewrite !lookup_insert_ne by done. apply Hinj.
Qed.

Lemma service_dispose_wf (d : Disposable) (service : CanonicalUriService) :
  service_wf service -> service_wf (service_dispose d service).
Proof.
  intros [Hold Hinj]. split; simpl.
  - intros s1 d1 [Hd1 _]%map_lookup_filter_Some. by apply (Hold s1).
  - intros s1 s2 d1 [Hd1 _]%map_lookup_filter_Some
      [Hd2 _]%map_lookup_filter_Some.
    by apply (Hinj s1 s2 d1).
Qed.

(** The two canonical-URI methods keep the bridge in step with the
    service: what the bridge holds stays what the service handed back. *)
Lemma registerCanonicalUriProvider_in_step {W} (base : Env WorkspaceCall W)
  (w : W) (service : CanonicalUriService) (self : WorkspaceMainImpl)
  (s : string) :
  service_wf service -> in_step self service ->
  let out :=
    exec (with_canonical_service base)
      (registerCanonicalUriProvider _ s self) (service, w) in
  service_wf out.2.1 /\ in_step out.1.2.2 out.2.1.
Proof.
  intros Hwf Hstep out. subst out.
  destruct (registry_methods (with_canonical_service base) (service, w)
              self s) as (_ & _ & _ & ->).
  cbn [with_canonical_service fst snd].
  split; [by apply service_register_wf|].
  unfold service_register.
  destruct (service_providers service !! s) as [d|] eqn:Hs; [done|].
  cbn [fst snd]. intros s1 d1. simpl.
  destruct (decide (s1 = s)) as [->|Hne].
  - by rewrite !lookup_insert_eq.
  - rewrite !lookup_insert_ne by done. apply Hstep.
Qed.

Lemma unregisterCanonicalUriProvider_in_step {W} (base : Env WorkspaceCall W)
  (w : W) (service : CanonicalUriService) (self : WorkspaceMainImpl)
  (s : string) :
  service_wf service -> in_step self service ->
  let out :=
    exec (with_canonical_service base)
      (unregisterCanonicalUriProvider _ s self) (service, w) in
  service_wf out.2.1 /\ in_step out.1.2.2 out.2.1.
Proof.
  intros Hwf Hstep out. subst out.
  unfold unregisterCanonicalUriProvider, Method.bind, Method.get,
    Method.modify, Method.call.
  cbn [pbind].
  destruct (canonicalUriProviders self !! s) as [d|] eqn:Hs.
  - cbn [pbind exec with_canonical_service fst snd].
    split; [by apply service_dispose_wf|].
    intros s1 d1. simpl.
    destruct (decide (s1 = s)) as [->|Hne].
    + by rewrite lookup_delete_eq.
    + rewrite lookup_delete_ne by done. intros Hd1.
      apply map_lookup_filter_Some. split; [by apply Hstep|].
      simpl. intros ->. destruct Hwf as [_ Hinj].
      apply Hne, (Hinj s1 s d); by apply Hstep.
  - cbn [pbind exec with_canonical_service fst snd].
    destruct (base _ (console_warn _ (no_canonical_provider s)) w)
      as [[] w1].
    by split.
Qed.

(** C8.  Both registries are guarded.  The text content path throws on a
    second registration and on unregistering an absent scheme, making no
    call and leaving the instance as it was.  On the canonical-URI path,
    unregistering an absent scheme only warns on the console and leaves the
    instance as it was; and with the bridge in step with the canonical-URI
    service, registering a scheme that the bridge holds already is refused:
    the one call to the service throws, the method rejects, and the instance
    and the service are as they were. *)
Theorem both_registries_guarded {W} (base : Env WorkspaceCall W) (w : W)
  (service : CanonicalUriService) (self : WorkspaceMainImpl) (s : string) :
  in_step self service ->
  let env := with_canonical_service base in
  (is_Some (TextContent.providers (resourceResolver self) !! s) ->
   exec env (registerTextDocumentContentProvider _ s self) (service, w) =
   ([], (Rejected {| message := TextContent.already_registered s |}, self),
    (service, w))) /\
  (TextContent.providers (resourceResolver self) !! s = None ->
   exec env (unregisterTextDocumentContentProvider _ s self) (service, w) =
   ([], (Rejected {| message := TextContent.not_registered s |}, self),
    (service, w))) /\
  (canonicalUriProviders self !! s = None ->
   let warning := console_warn _ (no_canonical_provider s) in
   exec env (unregisterCanonicalUriProvider _ s self) (service, w) =
   ([called warning], (Resolved tt, self), (service, (base _ warning w).2)))
  /\
  (is_Some (canonicalUriProviders self !! s) ->
   exists err,
     exec env (registerCanonicalUriProvider _ s self) (service, w) =
     ([called (canonicalUriService_register _ s)], (Rejected err, self),
      (service, w)) /\
     canonicalUriProviders self !! s = service_providers service !! s).
Proof.
  intros Hstep env.
  destruct (registry_methods env (service, w) self s)
    as (Htaken & Habsent & Hwarn & Hregister).
  split; [exact Htaken|]. split; [exact Habsent|]. split.
  - intros Hs warning. rewrite (Hwarn Hs). reflexivity.
  - intros [d Hd]. exists {| message := provider_exists s |}.
    pose proof (Hstep s d Hd) as Hservice.
    split; [|by rewrite Hd, Hservice].
    rewrite Hregister. subst env.
    cbn [with_canonical_service fst snd].
    rewrite service_register_taken by eauto. reflexivity.
Qed.

End RegistryFacts.

Lemma both_registries_guarded_witness :
  let env := Workspace.with_canonical_service (Examples.workspace_env
                                                 (Resolved 0)) in
  let first :=
    exec env
      (Workspace.registerCanonicalUriProvider unit "git"
         (Examples.workspace ∅ None)) (Workspace.new_service, tt) in
  first.1.2.1 = Resolved tt /\
  Workspace.canonicalUriProviders first.1.2.2 !! "git" = Some 0 /\
  exists err,
    exec env (Workspace.registerCanonicalUriProvider unit "git" first.1.2.2)
      (first.2.1, tt) =
    ([called (Workspace.canonicalUriService_register unit "git")],
     (Rejected err, first.1.2.2), (first.2.1, tt)).
Proof.
  intros env first.
  split; [reflexivity|]. split; [reflexivity|].
  destruct (both_registries_guarded unit (Examples.workspace_env (Resolved 0))
              tt first.2.1 first.1.2.2 "git")
    as (_ & _ & _ & Hguard).
  - apply (registerCanonicalUriProvider_in_step unit
             (Examples.workspace_env (Resolved 0)) tt Workspace.new_service
             (Examples.workspace ∅ None) "git").
    + apply service_wf_new.
    + by apply in_step_new.
  - destruct Hguard as (err & Hexec & _); [by exists 0|].
    exists err. exact Hexec.
Defined.

(** ** Text search *)

Section SearchFacts.
Context `{UriApi} {SearchMatch : Type}.
Import Workspace.

Implicit Types (ms : list SearchMatch) (c : FindTextInFiles).
Implicit Types (es : list (SearchEffect SearchMatch)).
Implicit Types (ins : list (SearchInput SearchMatch)).

Lemma splice_last_take ms : splice_last ms = take (length ms - 1) ms.
Proof.
  unfold splice_last. induction ms as [|x [|y ms] IH]; try done.
  change (removelast (x :: y :: ms)) with (x :: removelast (y :: ms)).
  rewrite IH. simpl. by rewrite Nat.sub_0_r.
Qed.

(** With the count below the cap the loop ends, within as many rounds as
    there are matches, and keeps the matches that still fit. *)
Lemma truncate_loop_fits (fuel : nat) (matches maxHits : Z) ms :
  (matches <= maxHits)%Z ->
  length ms <= fuel + Z.to_nat (maxHits - matches) ->
  truncate_loop fuel matches maxHits ms =
  Some (take (Z.to_nat (maxHits - matches)) ms).
Proof.
  intros Hle. revert ms.
  induction fuel as [|fuel IH]; intros ms Hlen; simpl.
  - rewrite (proj2 (Z.ltb_ge _ _)) by lia.
    by rewrite take_ge by lia.
  - destruct (Z.ltb_spec maxHits (matches + Z.of_nat (length ms))) as [Hgt|Hfit].
    + rewrite IH.
      * rewrite splice_last_take, take_take. f_equal. f_equal. lia.
      * rewrite splice_last_take, length_take. lia.
    + by rewrite take_ge by lia.
Qed.

(** With the count above the cap the loop never ends. *)
Lemma truncate_loop_diverges (fuel : nat) (matches maxHits : Z) ms :
  (maxHits < matches)%Z -> truncate_loop fuel matches maxHits ms = None.
Proof.
  intros Hgt. revert ms. induction fuel as [|fuel IH]; intros ms; simpl;
    rewrite (proj2 (Z.ltb_lt _ _)) by lia; [done | apply IH].
Qed.

(** So the rounds [handle_onResult] allows the loop are all it can use. *)
Lemma truncate_loop_fuel (fuel : nat) (matches maxHits : Z) ms :
  S (length ms) <= fuel ->
  truncate_loop fuel matches maxHits ms =
  truncate_loop (S (length ms)) matches maxHits ms.
Proof.
  intros Hfuel. destruct (Z.le_gt_cases matches maxHits) as [Hle|Hgt].
  - rewrite !truncate_loop_fits by lia. done.
  - rewrite !truncate_loop_diverges by lia. done.
Qed.

(** What one callback does, from a state with the count within the cap:
    it returns, the count stays within the cap and grows by what was
    delivered, and a truncated batch brings the count to the cap. *)
Lemma step_within_cap (i : SearchInput SearchMatch) c :
  (matches c <= maxHits c)%Z ->
  exists c' es,
    step i c = Some (c', es) /\
    maxHits c' = maxHits c /\
    matches c' = (matches c + delivered es)%Z /\
    (0 <= delivered es)%Z /\
    (matches c' <= maxHits c')%Z /\
    promise_value es =
      (if is_onDone i then Some (maxHits c <=? matches c)%Z else None) /\
    (truncates i c = true -> matches c' = maxHits c).
Proof.
  intros Hle. unfold truncates. destruct i as [searchId result|searchId|]; simpl.
  - unfold handle_onResult.
    destruct (canceledRequest c).
    { exists c, []. simpl. repeat split; try lia; try done. by destruct result. }
    set (c1 := if negb _ then _ else c).
    assert (matches c1 = matches c /\ maxHits c1 = maxHits c
            /\ searchRequestId c1 = searchRequestId c) as (Hm & Hh & Hr).
    { subst c1. by destruct (negb _). }
    destruct (isCancellationRequested c1).
    { eexists _, _. split; [done|]. simpl.
      repeat split; try lia; try done. by destruct result. }
    destruct result as [r|]; [|eexists _, _; split; [done|]; simpl; repeat split; try lia; done].
    destruct (Nat.ltb_spec 0 (length (result_matches r))) as [Hlen|Hlen];
      [|eexists _, _; split; [done|]; simpl; repeat split; try lia; done].
    rewrite truncate_loop_fits by lia.
    set (ms := take _ _).
    assert (length ms = Nat.min (Z.to_nat (maxHits c1 - matches c1))
                          (length (result_matches r))) as Hms
        by apply length_take.
    eexists _, _. split; [done|]. simpl.
    repeat split; try lia.
    + by destruct (_ <=? _)%Z; simpl; lia.
    + by destruct (_ <=? _)%Z; simpl; lia.
    + by destruct (_ <=? _)%Z.
    + destruct (Nat.ltb_spec (length ms) (length (result_matches r)));
        simpl; [lia|].
      by destruct (_ <=? _)%Z.
  - unfold handle_onDone. destruct (bool_decide _);
      eexists _, _; (split; [done|]); simpl; repeat split; try lia; done.
  - unfold handle_cancellation. eexists _, _. split; [done|]. simpl.
    assert (forall ls : list Z,
              delivered (cancel (SearchMatch := SearchMatch) <$> ls) = 0%Z
              /\ promise_value (cancel (SearchMatch := SearchMatch) <$> ls)
                 = None) as Hcancel.
    { induction ls as [|l ls [IH1 IH2]]; [done|].
      split; [exact IH1 | exact IH2]. }
    destruct (Hcancel (token_listeners c)) as [-> ->].
    by destruct (token_listeners c); repeat split; simpl; try lia.
Qed.

Lemma delivered_app es1 es2 :
  delivered (es1 ++ es2) = (delivered es1 + delivered es2)%Z.
Proof.
  unfold delivered. induction es1 as [|e es1 IH]; simpl; [done|].
  rewrite IH. lia.
Qed.

Lemma promise_value_app es1 es2 :
  promise_value (es1 ++ es2) =
  match promise_value es1 with
  | Some limitHit => Some limitHit
  | None => promise_value es2
  end.
Proof. induction es1 as [|[] es1 IH]; simpl; done. Qed.

Lemma run_app ins1 ins2 c :
  run (ins1 ++ ins2) c =
  match run ins1 c with
  | None => None
  | Some (c1, e1) =>
      match run ins2 c1 with
      | None => None
      | Some (c2, e2) => Some (c2, e1 ++ e2)
      end
  end.
Proof.
  revert c. induction ins1 as [|i ins1 IH]; intros c; simpl.
  - by destruct (run ins2 c) as [[c2 e2]|].
  - destruct (step i c) as [[c1 e1]|]; [|done]. rewrite IH.
    destruct (run ins1 c1) as [[c2 e2]|]; [|done].
    destruct (run ins2 c2) as [[c3 e3]|]; [|done].
    by rewrite app_assoc.
Qed.

(** Every callback of a search returns; the matches delivered are the
    growth of the count, which stays within the cap. *)
Lemma run_within_cap ins c :
  (matches c <= maxHits c)%Z ->
  exists c' es,
    run ins c = Some (c', es) /\
    maxHits c' = maxHits c /\
    matches c' = (matches c + delivered es)%Z /\
    (0 <= delivered es)%Z /\
    (matches c' <= maxHits c')%Z.
Proof.
  revert c. induction ins as [|i ins IH]; intros c Hle; simpl.
  - exists c, []. unfold delivered. simpl. repeat split; try lia; done.
  - destruct (step_within_cap i c Hle)
      as (c1 & e1 & -> & Hh1 & Hm1 & Hd1 & Hle1 & _).
    destruct (IH c1 Hle1) as (c2 & e2 & -> & Hh2 & Hm2 & Hd2 & Hle2).
    exists c2, (e1 ++ e2). rewrite delivered_app.
    repeat split; try lia; congruence.
Qed.

(** Until the search is done the promise is not settled. *)
Lemma run_unsettled ins c c' es :
  (matches c <= maxHits c)%Z ->
  forallb (fun i => negb (is_onDone i)) ins = true ->
  run ins c = Some (c', es) -> promise_value es = None.
Proof.
  revert c es. induction ins as [|i ins IH]; intros c es Hle Hno; simpl.
  - by intros [= _ <-].
  - simpl in Hno. apply andb_prop in Hno as [Hi Hno].
    destruct (step_within_cap i c Hle)
      as (c1 & e1 & -> & _ & _ & _ & Hle1 & Hp & _).
    destruct (run ins c1) as [[c2 e2]|] eqn:Hrun; [|done].
    intros [= <- <-]. rewrite promise_value_app, Hp.
    destruct (is_onDone i); [done|]. by apply (IH c1).
Qed.

(** Once the count is at the cap the promise, if it settles, settles with
    [limitHit = true]. *)
Lemma run_at_cap ins c c' es :
  matches c = maxHits c ->
  run ins c = Some (c', es) ->
  matches c' = maxHits c' /\ promise_value es <> Some false.
Proof.
  revert c es. induction ins as [|i ins IH]; intros c es Hat; simpl.
  - by intros [= <- <-].
  - destruct (step_within_cap i c ltac:(lia))
      as (c1 & e1 & -> & Hh1 & Hm1 & Hd1 & Hle1 & Hp & _).
    destruct (run ins c1) as [[c2 e2]|] eqn:Hrun; [|done].
    intros [= <- <-].
    destruct (IH c1 e2 ltac:(lia) Hrun) as [Hat2 Hp2].
    split; [done|]. rewrite promise_value_app, Hp.
    destruct (is_onDone i); [|done].
    by rewrite (proj2 (Z.leb_le _ _)) by lia.
Qed.

(** C1, as the code has it.  For [options.maxResults] absent or a
    non-negative integer, the cap [N] is [maxResults] when that is positive
    and 150 otherwise (absent or 0).  Whatever results, completions and
    cancellations arrive, every callback returns and the matches handed to
    [$onTextSearchResult] add up to at most [N]; and when, before any
    completion, a batch reached the plugin with fewer matches than it had,
    the promise resolves with [limitHit = true] at the completion. *)
Theorem findTextInFiles_cap (self : WorkspaceMainImpl)
  (maxResults : option Z) (requestId : Z) (token_cancelled : bool) ins :
  (forall n, maxResults = Some n -> (0 <= n)%Z) ->
  let N := match maxResults with
           | Some n => if decide (0 < n)%Z then n else 150%Z
           | None => 150%Z
           end in
  let c0 := findTextInFiles self maxResults requestId token_cancelled in
  exists c es,
    run ins c0 = Some (c, es) /\
    (delivered es <= N)%Z /\
    forall before i rest c1 e1,
      ins = before ++ i :: rest ->
      forallb (fun j => negb (is_onDone j)) before = true ->
      run before c0 = Some (c1, e1) ->
      truncates i c1 = true ->
      forall searchId,
      exists c' es',
        run (ins ++ [onDone searchId]) c0 = Some (c', es') /\
        promise_value es' = Some true.
Proof.
  intros Hnonneg N c0.
  assert (maxHits c0 = N /\ (0 < N)%Z) as [HN Hpos].
  { subst N c0. simpl. unfold maxHits_of. destruct maxResults as [n|]; [|done].
    specialize (Hnonneg n eq_refl).
    destruct (Z.eqb_spec n 0) as [->|Hn]; [done|].
    rewrite decide_True by lia. lia. }
  assert (matches c0 <= maxHits c0)%Z as Hle0 by (simpl; simpl in HN; lia).
  destruct (run_within_cap ins c0 Hle0) as (c & es & Hrun & Hh & Hm & Hd & Hle).
  exists c, es. split; [done|]. split.
  { change (matches c0) with 0%Z in Hm. lia. }
  intros before i rest c1 e1 -> Hno Hbefore Htr searchId.
  (* the run up to the truncated batch *)
  destruct (run_within_cap before c0 Hle0)
    as (c1' & e1' & Hrun1 & Hh1 & _ & _ & Hle1).
  rewrite Hbefore in Hrun1. injection Hrun1 as <- <-.
  pose proof (run_unsettled before c0 c1 e1 Hle0 Hno Hbefore) as Hp1.
  destruct (step_within_cap i c1 Hle1)
    as (c2 & e2 & Hstep & Hh2 & _ & _ & Hle2 & Hp2 & Hat).
  specialize (Hat Htr).
  assert (is_onDone i = false) as Hi.
  { unfold truncates in Htr. by destruct i. }
  rewrite Hi in Hp2.
  (* from there on the count is at the cap *)
  destruct (run_within_cap rest c2 Hle2) as (c3 & e3 & Hrun3 & _).
  destruct (run_at_cap rest c2 c3 e3 ltac:(lia) Hrun3) as [Hat3 Hp3].
  destruct (step_within_cap (onDone searchId) c3 ltac:(lia))
    as (c4 & e4 & Hstep4 & _ & _ & _ & _ & Hp4 & _).
  simpl in Hp4. rewrite (proj2 (Z.leb_le _ _)) in Hp4 by lia.
  exists c4, (e1 ++ e2 ++ e3 ++ e4 ++ []). split.
  - rewrite <- app_assoc, run_app, Hbefore.
    change ((i :: rest) ++ [onDone searchId])
      with (i :: rest ++ [onDone searchId]).
    cbn [run]. rewrite Hstep, run_app, Hrun3. cbn [run].
    by rewrite Hstep4.
  - rewrite !promise_value_app, Hp1, Hp2, Hp4.
    by destruct (promise_value e3) as [[]|].
Qed.

(** A negative cap: the first batch with a match makes [onResult] loop for
    ever, whatever number of rounds it is given. *)
Lemma onResult_negative_cap_diverges c ms (fuel : nat) :
  (maxHits c < 0)%Z -> (0 <= matches c)%Z ->
  truncate_loop fuel (matches c) (maxHits c) ms = None.
Proof. intros. apply truncate_loop_diverges. lia. Qed.

End SearchFacts.

(** C1 as stated fails for [maxResults = 0]: [0] is falsy, the cap is 150,
    and a batch of three matches is delivered whole. *)
Lemma findTextInFiles_zero_maxResults :
  exists c es,
    Workspace.run [Workspace.onResult 1 (Some Examples.three_matches)]
      (Workspace.findTextInFiles (Examples.workspace ∅ None) (Some 0%Z) 7
         false) = Some (c, es) /\
    (stated_cap (Some 0) < Workspace.delivered es)%Z.
Proof. eexists _, _. split; [vm_compute; reflexivity | vm_compute; reflexivity]. Qed.

Lemma findTextInFiles_cap_witness :
  let c0 := Workspace.findTextInFiles (Examples.workspace ∅ None)
              (Some 2%Z) 7 false in
  let ins := [Workspace.onResult 1 (Some Examples.three_matches)] in
  (exists c es,
     Workspace.run ins c0 = Some (c, es) /\
     (Workspace.delivered es <= 2)%Z) /\
  (exists c' es',
     Workspace.run (ins ++ [Workspace.onDone 1]) c0 = Some (c', es') /\
     Workspace.promise_value es' = Some true).
Proof.
  intros c0 ins.
  destruct (findTextInFiles_cap (Examples.workspace ∅ None) (Some 2%Z) 7
              false ins) as (c & es & Hrun & Hcap & Hlimit).
  { intros n [= <-]. lia. }
  split.
  - exists c, es. split; [exact Hrun | exact Hcap].
  - apply (Hlimit [] (Workspace.onResult 1 (Some Examples.three_matches)) []
             c0 [] eq_refl eq_refl eq_refl).
    vm_compute. reflexivity.
Defined.

(** ** The notebook documents bridge *)

Section NotebookFacts.
Context `{UriApi} `{NotebookTypes}.
Import NotebookDocuments.

Implicit Types (e : NotebookContentChangedEvent).
Implicit Types (events : list NotebookContentChangedEvent).
Implicit Types (raw : list NotebookRawContentEventDto).

Lemma switch_pushes raw e : switch raw e = raw ++ switch [] e.
Proof. destruct e; simpl; by rewrite ?app_nil_r. Qed.

(** The loop pushes, event after event, what the switch pushes for each. *)
Lemma rawEvents_concat events raw :
  fold_left switch events raw = raw ++ concat (switch [] <$> events).
Proof.
  revert raw. induction events as [|e events IH]; intros raw; simpl.
  - by rewrite app_nil_r.
  - rewrite IH, (switch_pushes raw e). by rewrite <- app_assoc.
Qed.

(** An event of a kind the switch does not name adds no entry. *)
Lemma switch_other (k : OtherKind) (fields : RawFields) raw :
  switch raw (OtherEvent k fields) = raw.
Proof. done. Qed.

Lemma is_ChangeDocumentMetadata_kind e :
  is_ChangeDocumentMetadata e = true <-> kind e = ChangeDocumentMetadata.
Proof.
  unfold is_ChangeDocumentMetadata.
  destruct (kind e); split; congruence.
Qed.

Lemma find_metadata_change events :
  is_Some (find is_ChangeDocumentMetadata events) <->
  Exists (fun e => kind e = ChangeDocumentMetadata) events.
Proof.
  induction events as [|e events IH]; simpl.
  - rewrite Exists_nil. split; [intros [? [=]] | done].
  - rewrite Exists_cons, <- IH, <- is_ChangeDocumentMetadata_kind.
    destruct (is_ChangeDocumentMetadata e); split; eauto.
    intros [|]; done.
Qed.

(** an event of a kind the switch names becomes its wire representation *)
Lemma splice_to_dto_wire (changes : list (Splice NotebookCellModel)) :
  Forall2 (fun diff dto =>
             splice_fields _ dto = splice_fields _ diff /\
             newItems _ dto = toNotebookCellDto <$> newItems _ diff)
    changes (splice_to_dto <$> changes).
Proof. induction changes; csimpl; constructor; done. Qed.

Lemma switch_wire e :
  is_named e = true ->
  exists d, switch [] e = [d] /\ wire_representation e d.
Proof.
  destruct e; simpl; intros Hn; try done; eexists; (split; [done|]);
    constructor.
  apply splice_to_dto_wire.
Qed.

Lemma switch_unnamed e : is_named e = false -> switch [] e = [].
Proof. by destruct e. Qed.

Lemma rawEvents_wire events :
  Forall2 wire_representation (List.filter is_named events)
    (fold_left switch events []).
Proof.
  rewrite rawEvents_concat. simpl.
  induction events as [|e events IH]; csimpl; [constructor|].
  destruct (is_named e) eqn:He.
  - destruct (switch_wire e He) as (d & -> & Hd). by constructor.
  - by rewrite (switch_unnamed e He).
Qed.

Lemma filter_named events :
  Forall named events -> List.filter is_named events = events.
Proof.
  induction 1 as [|e events He _ IH]; [done|]. simpl.
  destruct e; try done; simpl; by rewrite IH.
Qed.

(** C2, as the code has it.  For every batch the listener makes one call,
    [$acceptModelChanged], with the notebook's URI and dirty flag.  Its DTO
    holds, in the order of the batch, the wire representation of every
    event whose kind the switch names, and nothing for an event of another
    kind; so for a batch of named kinds only it holds one entry per event.
    The call carries the notebook's metadata when some event of the batch
    is a [ChangeDocumentMetadata], and [undefined] otherwise. *)
Theorem content_listener_batch {W} (env : Env NotebookCall W) (w : W)
  (notebook : NotebookModel) events :
  exists dto newMetadata,
    trace_of env (content_listener notebook events) w =
      [called (acceptModelChanged (toComponents (uri notebook)) dto
                 (isDirty notebook) newMetadata)] /\
    versionId dto = 1%Z /\
    Forall2 wire_representation (List.filter is_named events)
      (rawEvents dto) /\
    (Forall named events ->
     length (rawEvents dto) = length events /\
     Forall2 wire_representation events (rawEvents dto)) /\
    (newMetadata = Some (metadata notebook) <->
     Exists (fun e => kind e = ChangeDocumentMetadata) events) /\
    (newMetadata = None <->
     ~ Exists (fun e => kind e = ChangeDocumentMetadata) events).
Proof.
  pose proof (rawEvents_wire events) as Hraw.
  eexists (eventDto events), _. split.
  { unfold trace_of, content_listener. simpl.
    by destruct (env _ _ w) as [[] w1]. }
  split; [done|]. split; [done|]. split.
  { intros Hnamed. rewrite (filter_named events Hnamed) in Hraw.
    split; [symmetry; by eapply Forall2_length | done]. }
  pose proof (find_metadata_change events) as Hfind.
  destruct (find is_ChangeDocumentMetadata events) as [e|].
  - assert (Exists (fun e => kind e = ChangeDocumentMetadata) events)
      as Hex by (apply Hfind; eauto).
    split; split; try done.
  - assert (~ Exists (fun e => kind e = ChangeDocumentMetadata) events)
      as Hno by (intros Hex; apply Hfind in Hex as [? [=]]).
    split; split; try done.
Qed.

(** When the enum has no kind besides those the switch names, every batch
    is of named events. *)
Lemma named_all events : (OtherKind -> False) -> Forall named events.
Proof.
  intros Hnone. apply Forall_forall. intros [] _; simpl; done.
Qed.

(** C4, as the code has it.  [$tryCreateNotebook] asks the model resolver
    for an untitled notebook, reports it dirty and returns its URI as
    components.  [$tryOpenNotebook] asks nobody: it returns the components
    of the URI made from its argument.  [$trySaveNotebook] asks the model
    resolver for the notebook, saves it, disposes the reference after the
    save and returns [true]. *)
Theorem notebook_rpc_methods {W} (env : Env NotebookCall W) (w : W)
  (self : NotebookDocumentsMainImpl) (viewType : string)
  (uriComponents : UriComponents) :
  (forall ref w1,
     env _ (resolveUntitledResource viewType) w = (Resolved ref, w1) ->
     (exec env (tryCreateNotebook viewType self) w).1 =
     ([called (resolveUntitledResource viewType);
       called (acceptDirtyStateChanged (toComponents (uri ref)) true)],
      (Resolved (toComponents (uri ref)), self))) /\
  tryOpenNotebook uriComponents self =
    Ret (Resolved (toComponents (fromComponents uriComponents)), self) /\
  (forall ref w1 saved w2,
     env _ (resolve (fromComponents uriComponents)) w = (Resolved ref, w1) ->
     env _ (save ref) w1 = (Resolved saved, w2) ->
     (exec env (trySaveNotebook uriComponents self) w).1 =
     ([called (resolve (fromComponents uriComponents));
       called (save ref);
       called (dispose_ref ref)],
      (Resolved true, self))).
Proof.
  split; [|split].
  - intros ref w1 Href.
    unfold tryCreateNotebook, Method.bind, Method.await, Method.call. simpl.
    rewrite Href. simpl. by destruct (env _ _ w1) as [[] w2].
  - done.
  - intros ref w1 saved w2 Href Hsave.
    unfold trySaveNotebook, Method.bind, Method.await, Method.call. simpl.
    rewrite Href. simpl. rewrite Hsave. simpl.
    by destruct (env _ _ w2) as [[] w3].
Qed.

(** A save that fails leaves the reference undisposed, and a notebook that
    does not resolve is not saved. *)
Lemma trySaveNotebook_rejected {W} (env : Env NotebookCall W) (w : W)
  (self : NotebookDocumentsMainImpl) (uriComponents : UriComponents) :
  (forall err w1,
     env _ (resolve (fromComponents uriComponents)) w = (Rejected err, w1) ->
     (exec env (trySaveNotebook uriComponents self) w).1 =
     ([called (resolve (fromComponents uriComponents))],
      (Rejected err, self))) /\
  (forall ref w1 err w2,
     env _ (resolve (fromComponents uriComponents)) w = (Resolved ref, w1) ->
     env _ (save ref) w1 = (Rejected err, w2) ->
     (exec env (trySaveNotebook uriComponents self) w).1 =
     ([called (resolve (fromComponents uriComponents)); called (save ref)],
      (Rejected err, self))).
Proof.
  split.
  - intros err w1 Href.
    unfold trySaveNotebook, Method.bind, Method.await. simpl.
    by rewrite Href.
  - intros ref w1 err w2 Href Hsave.
    unfold trySaveNotebook, Method.bind, Method.await. simpl.
    rewrite Href. simpl. by rewrite Hsave.
Qed.

(** *** The listener map *)

Lemma set_mapping_id (self : NotebookDocumentsMainImpl) :
  set_mapping (fun _ => documentEventListenersMapping self) self = self.
Proof. by destruct self. Qed.

(** What [handleNotebooksAdded] does for one notebook. *)
Lemma handleNotebooksAdded_one {W} (env : Env NotebookCall W) (w : W)
  (self : NotebookDocumentsMainImpl) (notebook : NotebookModel) :
  exec env (handleNotebooksAdded [notebook] self) w =
  ([called (onDidChangeContent notebook)],
   (Resolved tt,
    set_mapping
      (insert (uri_toString (uri notebook))
         [(env _ (onDidChangeContent notebook) w).1]) self),
   (env _ (onDidChangeContent notebook) w).2).
Proof.
  unfold handleNotebooksAdded, Method.bind, Method.call. simpl.
  by destruct (env _ _ w) as [listener w1].
Qed.

(** [handleNotebooksRemoved] looks every document up under the one key
    [[object Object]]: with nothing stored there it does nothing. *)
Lemma handleNotebooksRemoved_nothing {W} (env : Env NotebookCall W) (w : W)
  (self : NotebookDocumentsMainImpl) (uris : list UriComponents) :
  documentEventListenersMapping self !! Js.object_toString = None ->
  exec env (handleNotebooksRemoved uris self) w = ([], (Resolved tt, self), w).
Proof.
  intros Hnone. unfold handleNotebooksRemoved.
  induction uris as [|u uris IH]; [done|].
  cbn [for_each]. unfold Method.bind at 1. unfold Method.bind at 1.
  unfold Method.bind at 1. simpl.
  unfold UriComponents_toString at 1. rewrite Hnone. simpl.
  unfold UriComponents_toString at 1.
  replace (set_mapping (delete Js.object_toString) self) with self.
  - exact IH.
  - destruct self as [m]. unfold set_mapping. simpl in *.
    by rewrite delete_id.
Qed.

(** C7 fails on the code.  After a notebook is added, removing it with its
    [UriComponents] disposes nothing and leaves its listener set in the
    map: the entry was stored under [notebook.uri.toString()], and the
    removal looks under [uri.toString()] of the components, a plain object,
    which is [[object Object]]. *)
Theorem handleNotebooksRemoved_keeps_listeners {W} (env : Env NotebookCall W)
  (w : W) (self : NotebookDocumentsMainImpl) (notebook : NotebookModel) :
  uri_toString (uri notebook) <> Js.object_toString ->
  documentEventListenersMapping self !! Js.object_toString = None ->
  let added := exec env (handleNotebooksAdded [notebook] self) w in
  let removed :=
    exec env
      (handleNotebooksRemoved [toComponents (uri notebook)] added.1.2.2)
      added.2 in
  removed = ([], (Resolved tt, added.1.2.2), added.2) /\
  is_Some (documentEventListenersMapping removed.1.2.2
             !! uri_toString (uri notebook)).
Proof.
  intros Hkey Hnone added removed. subst removed added.
  rewrite handleNotebooksAdded_one. simpl.
  rewrite handleNotebooksRemoved_nothing.
  - split; [done|]. simpl. rewrite lookup_insert_eq. eauto.
  - simpl. by rewrite lookup_insert_ne.
Qed.

(** The removal does work on the key it computes: a listener set stored
    under [[object Object]] is disposed and dropped. *)
Lemma handleNotebooksRemoved_object_key {W} (env : Env NotebookCall W) (w : W)
  (self : NotebookDocumentsMainImpl) (u : UriComponents)
  (collection : list Disposable) :
  documentEventListenersMapping self !! Js.object_toString = Some collection ->
  exec env (handleNotebooksRemoved [u] self) w =
  ([called (dispose collection)],
   (Resolved tt, set_mapping (delete Js.object_toString) self),
   (env _ (dispose collection) w).2).
Proof.
  intros Hsome. unfold handleNotebooksRemoved. cbn [for_each].
  unfold Method.bind, Method.get, Method.call, Method.modify, Method.ret,
    UriComponents_toString.
  cbn [pbind]. rewrite Hsome. simpl.
  by destruct (env _ _ w) as [[] w1].
Qed.

End NotebookFacts.

(** C2 as stated fails: of a batch of four events, two of them of the
    kinds [Unknown] and [Initialize], which the switch does not name, the
    DTO holds two entries. *)
Lemma content_listener_drops_unnamed :
  let nb :=
    @NotebookDocuments.Build_NotebookModel plain_uri Examples.theia_notebooks
      (file_uri "/nb.ipynb") true 5 in
  let events : list (@NotebookDocuments.NotebookContentChangedEvent
                       Examples.theia_notebooks) :=
    [NotebookDocuments.MoveEvent 0 1 2;
     NotebookDocuments.OtherEvent
       (Examples.Unknown : @OtherKind Examples.theia_notebooks)
       (0 : @RawFields Examples.theia_notebooks);
     NotebookDocuments.DocumentMetadataEvent
       (5 : @NotebookDocumentMetadata Examples.theia_notebooks);
     NotebookDocuments.OtherEvent
       (Examples.Initialize : @OtherKind Examples.theia_notebooks)
       (0 : @RawFields Examples.theia_notebooks)] in
  let dto :=
    {| NotebookDocuments.versionId := 1;
       NotebookDocuments.rawEvents :=
         [NotebookDocuments.MoveDto 0 1 2;
          NotebookDocuments.DocumentMetadataDto
            (5 : @NotebookDocumentMetadata Examples.theia_notebooks)] |} in
  trace_of (Examples.accepting_env Examples.theia_notebooks nb)
    (NotebookDocuments.content_listener nb events) tt =
  [called (NotebookDocuments.acceptModelChanged (file_uri "/nb.ipynb") dto
             true (Some 5))] /\
  length events = 4 /\
  length (NotebookDocuments.rawEvents dto) = 2.
Proof. vm_compute. done. Qed.

Lemma content_listener_batch_witness :
  let nb := Examples.notebook "/nb.ipynb" true 5 in
  let events : list (@NotebookDocuments.NotebookContentChangedEvent
                       Examples.plain_notebooks) :=
    [NotebookDocuments.MoveEvent 0 1 2;
     NotebookDocuments.DocumentMetadataEvent (5 : @NotebookDocumentMetadata
                                                    Examples.plain_notebooks);
     NotebookDocuments.CellChangeEvent NotebookDocuments.Content
       (3 : @RawFields Examples.plain_notebooks)] in
  exists dto newMetadata,
    trace_of (Examples.notebook_env nb)
      (NotebookDocuments.content_listener nb events) tt =
    [called (NotebookDocuments.acceptModelChanged (file_uri "/nb.ipynb") dto
               true newMetadata)] /\
    length (NotebookDocuments.rawEvents dto) = 3 /\
    Forall2 NotebookDocuments.wire_representation events
      (NotebookDocuments.rawEvents dto).
Proof.
  intros nb events.
  destruct (content_listener_batch (Examples.notebook_env nb) tt nb events)
    as (dto & newMetadata & Htrace & _ & _ & Hnamed & _).
  destruct Hnamed as [Hlen Hwire]; [repeat constructor|].
  exists dto, newMetadata. split; [exact Htrace|].
  split; [exact Hlen | exact Hwire].
Defined.

(** C4 as stated fails: [$tryOpenNotebook] does not ask the model resolver
    (it makes no call at all), and [$trySaveNotebook] returns [true], not
    an identifier. *)
Lemma tryOpenNotebook_asks_nobody :
  let nb := Examples.notebook "/nb.ipynb" false 0 in
  trace_of (Examples.notebook_env nb)
    (NotebookDocuments.tryOpenNotebook (file_uri "/nb.ipynb")
       Examples.no_listeners) tt = [] /\
  (result_of (Examples.notebook_env nb)
     (NotebookDocuments.trySaveNotebook (file_uri "/nb.ipynb")
        Examples.no_listeners) tt).1 = Resolved true.
Proof. vm_compute. done. Qed.

Lemma notebook_rpc_methods_witness :
  let nb := Examples.notebook "/nb.ipynb" false 0 in
  let env := Examples.notebook_env nb in
  (exec env (NotebookDocuments.tryCreateNotebook "jupyter-notebook"
               Examples.no_listeners) tt).1 =
  ([called (NotebookDocuments.resolveUntitledResource "jupyter-notebook");
    called (NotebookDocuments.acceptDirtyStateChanged
              (file_uri "/nb.ipynb") true)],
   (Resolved (file_uri "/nb.ipynb"), Examples.no_listeners)) /\
  (exec env (NotebookDocuments.trySaveNotebook (file_uri "/nb.ipynb")
               Examples.no_listeners) tt).1 =
  ([called (NotebookDocuments.resolve (file_uri "/nb.ipynb" : @URI plain_uri));
    called (NotebookDocuments.save nb);
    called (NotebookDocuments.dispose_ref nb)],
   (Resolved true, Examples.no_listeners)).
Proof.
  intros nb env.
  destruct (notebook_rpc_methods env tt Examples.no_listeners
              "jupyter-notebook" (file_uri "/nb.ipynb"))
    as (Hcreate & _ & Hsave).
  split.
  - apply (Hcreate nb tt). reflexivity.
  - apply (Hsave nb tt true tt); reflexivity.
Defined.

Lemma handleNotebooksRemoved_keeps_listeners_witness :
  let nb := Examples.notebook "/nb.ipynb" false 0 in
  let env := Examples.notebook_env nb in
  let added :=
    exec env (NotebookDocuments.handleNotebooksAdded [nb]
                Examples.no_listeners) tt in
  let removed :=
    exec env
      (NotebookDocuments.handleNotebooksRemoved [file_uri "/nb.ipynb"]
         added.1.2.2) added.2 in
  removed = ([], (Resolved tt, added.1.2.2), added.2) /\
  is_Some (NotebookDocuments.documentEventListenersMapping removed.1.2.2
             !! "file:/nb.ipynb").
Proof.
  intros nb env.
  apply (handleNotebooksRemoved_keeps_listeners env tt Examples.no_listeners
           nb).
  - discriminate.
  - reflexivity.
Defined.

(** ** Notebook cell resources *)

Section CellFacts.
Context `{UriApi}.
Variable CellUri_scheme : string.
Variable CellUri_parse : URI -> option (URI * Z).
Import NotebookCell.

Abbreviation resolve := (resolve CellUri_scheme CellUri_parse).

Lemma find_handle_None (h : Z) (l : list NotebookCellModel) :
  find (fun cell => bool_decide (handle cell = h)) l = None <->
  forall cell, In cell l -> handle cell <> h.
Proof.
  split.
  - intros Hnone cell Hin.
    pose proof (find_none _ _ Hnone cell Hin) as Hc. simpl in Hc.
    by apply bool_decide_eq_false in Hc.
  - intros Hall. induction l as [|cell l IH]; [done|]. simpl.
    rewrite bool_decide_eq_false_2 by (apply Hall; by left).
    apply IH. intros c Hc. apply Hall. by right.
Qed.

(** C9.  [resolve] rejects exactly when the scheme is not the cell scheme,
    or the URI does not parse, or the service has no notebook for the
    parsed notebook URI, or that notebook has no cell with the parsed
    handle.  Otherwise it resolves to a resource for the URI holding the
    first cell with that handle, and reading the resource resolves to that
    cell's source. *)
Theorem resolve_rejects_iff (notebookService : NotebookService) (u : URI) :
  let unresolvable :=
    uri_scheme u <> CellUri_scheme \/
    CellUri_parse u = None \/
    (exists notebook h,
       CellUri_parse u = Some (notebook, h) /\
       notebookService notebook = None) \/
    (exists notebook h notebookModel,
       CellUri_parse u = Some (notebook, h) /\
       notebookService notebook = Some notebookModel /\
       forall cell, In cell (cells notebookModel) -> handle cell <> h) in
  ((exists err, resolve notebookService u = Rejected err) <-> unresolvable) /\
  (~ unresolvable ->
   exists notebook h notebookModel found,
     CellUri_parse u = Some (notebook, h) /\
     notebookService notebook = Some notebookModel /\
     find (fun cell => bool_decide (handle cell = h)) (cells notebookModel)
       = Some found /\
     In found (cells notebookModel) /\ handle found = h /\
     resolve notebookService u = Resolved {| uri := u; cell := found |} /\
     readContents {| uri := u; cell := found |} = Resolved (source found)).
Proof.
  intros unresolvable. subst unresolvable. unfold NotebookCell.resolve.
  destruct (decide (uri_scheme u = CellUri_scheme)) as [Hs|Hs].
  2:{ rewrite bool_decide_eq_true_2 by done.
      split; [split; eauto | intros []; eauto]. }
  rewrite bool_decide_eq_false_2 by (intros Hne; done).
  destruct (CellUri_parse u) as [[notebook h]|] eqn:Hparse.
  2:{ split; [split; eauto | intros []; eauto]. }
  destruct (notebookService notebook) as [notebookModel|] eqn:Hmodel.
  2:{ split; [split; [|eauto] | intros []; right; right; left; eauto].
      intros _. right. right. left. eauto. }
  destruct (find _ (cells notebookModel)) as [found|] eqn:Hfind.
  - pose proof (find_some _ _ Hfind) as [Hin Hh]. simpl in Hh.
    apply bool_decide_eq_true in Hh.
    split.
    + split; [intros [err [=]]|].
      intros [Hne | [[=] | [(nb & h' & [= <- <-] & Hno) |
                            (nb & h' & m & [= <- <-] & Hm & Hall)]]].
      * done.
      * congruence.
      * assert (m = notebookModel) as -> by congruence.
        by destruct (Hall found Hin).
    + intros _. exists notebook, h, notebookModel, found. eauto 10.
  - pose proof (proj1 (find_handle_None h _) Hfind) as Hall.
    assert (exists notebook0 h0 notebookModel0,
              Some (notebook, h) = Some (notebook0, h0) /\
              notebookService notebook0 = Some notebookModel0 /\
              forall cell, In cell (cells notebookModel0) -> handle cell <> h0)
      as Hfourth by eauto 10.
    split; [split; eauto 10 | intros []; eauto 10].
Qed.

End CellFacts.

Lemma resolve_rejects_iff_witness :
  exists found,
    NotebookCell.resolve Examples.cell_scheme Examples.parse_cell
      Examples.one_notebook (Examples.cell_uri "/nb.ipynb" "ab") =
    Resolved {| NotebookCell.uri := Examples.cell_uri "/nb.ipynb" "ab";
                NotebookCell.cell := found |} /\
    NotebookCell.readContents
      {| NotebookCell.uri := Examples.cell_uri "/nb.ipynb" "ab";
         NotebookCell.cell := found |} = Resolved "print(1)".
Proof.
  destruct (resolve_rejects_iff Examples.cell_scheme Examples.parse_cell
              Examples.one_notebook (Examples.cell_uri "/nb.ipynb" "ab"))
    as [_ Hresolved].
  destruct Hresolved
    as (notebook & h & notebookModel & found & Hparse & Hmodel & Hfind & _
        & _ & Hres & Hread).
  - intros [Hscheme | [Hparse | [(nb & h & Hparse & Hnone) |
                                 (nb & h & m & Hparse & Hm & Hall)]]].
    + by apply Hscheme.
    + discriminate Hparse.
    + injection Hparse as <- <-. discriminate Hnone.
    + injection Hparse as <- <-. injection Hm as <-.
      apply (Hall {| NotebookCell.handle := 2;
                     NotebookCell.source := "print(1)" |}).
      * right. left. reflexivity.
      * reflexivity.
  - exists found. split; [exact Hres|].
    injection Hparse as <- <-. injection Hmodel as <-.
    injection Hfind as <-. exact Hread.
Defined.

(** * Further properties of the bridges *)

(** ** The text content resolver: opening, changing and disposing resources *)

Section ResolverLifecycle.
Context `{UriApi}.
Import TextContent.

Lemma set_resources_id (self : TextContentResourceResolver) :
  set_resources (fun _ => resources self) self = self.
Proof. by destruct self. Qed.

(** X1.  With no provider for the scheme of a URI, [resolve] rejects and
    leaves the resolver as it was; registering a provider for a free scheme
    and unregistering it again gives the resolver back exactly, so that the
    URI is unresolvable again. *)
Theorem register_unregister_round_trip {E}
  (self : TextContentResourceResolver) (u : URI) (p : WorkspaceExt) :
  providers self !! uri_scheme u = None ->
  resolve (E := E) u self =
    Ret (Rejected {| message := no_provider (uri_scheme u) |}, self) /\
  (registerContentProvider (E := E) (uri_scheme u) p ;;
   unregisterContentProvider (uri_scheme u))%method self =
    Ret (Resolved tt, self) /\
  (registerContentProvider (E := E) (uri_scheme u) p ;;
   unregisterContentProvider (uri_scheme u) ;;
   resolve u)%method self =
    Ret (Rejected {| message := no_provider (uri_scheme u) |}, self).
Proof.
  intros Hfree.
  assert (resolve (E := E) u self =
          Ret (Rejected {| message := no_provider (uri_scheme u) |}, self))
    as Hreject.
  { unfold resolve, Method.bind. simpl. by rewrite Hfree. }
  assert (set_providers (delete (uri_scheme u))
            (set_providers
               (insert (uri_scheme u) {| provider_proxy := p |}) self)
          = self) as Hback.
  { destruct self as [ps rs]. unfold set_providers. simpl in *.
    by rewrite delete_insert_id. }
  split; [done|]. split.
  - unfold Method.bind at 1.
    rewrite registerContentProvider_free by done. simpl.
    rewrite unregisterContentProvider_present
      by (simpl; rewrite lookup_insert_eq; eauto).
    by rewrite Hback.
  - unfold Method.bind at 1.
    rewrite registerContentProvider_free by done. simpl.
    unfold Method.bind at 1.
    rewrite unregisterContentProvider_present
      by (simpl; rewrite lookup_insert_eq; eauto).
    simpl. by rewrite Hback.
Qed.

(** X2.  With a provider for its scheme, a URI resolves to a resource that
    is stored under its URI string; resolving again, with this or any other
    URI of the same string, returns that same resource and changes
    nothing.  A resource opened anew has the provider's proxy and an empty
    cache. *)
Theorem resolve_opens_once {E} (self : TextContentResourceResolver)
  (u : URI) (provider : TextContentResourceProvider) :
  providers self !! uri_scheme u = Some provider ->
  exists resource self1,
    resolve (E := E) u self = Ret (Resolved resource, self1) /\
    resources self1 !! uri_toString u = Some resource /\
    providers self1 = providers self /\
    (resources self !! uri_toString u = None ->
     resource = {| uri := u; proxy := provider_proxy provider;
                   cache := None |}) /\
    forall u',
      uri_toString u' = uri_toString u ->
      is_Some (providers self !! uri_scheme u') ->
      resolve (E := E) u' self1 = Ret (Resolved resource, self1).
Proof.
  intros Hp. unfold resolve, provideResource, Method.bind. simpl.
  rewrite Hp. simpl.
  destruct (resources self !! uri_toString u) as [stored|] eqn:Hstored;
    simpl.
  - exists stored, self. repeat split; try done.
    intros u' Hsame [provider' Hp']. rewrite Hp'. simpl.
    by rewrite Hsame, Hstored.
  - eexists _, _. split; [done|]. simpl. rewrite lookup_insert_eq.
    repeat split; try done.
    intros u' Hsame [provider' Hp']. rewrite Hp'. simpl.
    by rewrite Hsame, lookup_insert_eq.
Qed.

(** X3.  A content change for a URI string that has no opened resource is
    dropped: no event is fired and nothing is stored.  For an opened
    resource it is cached and fires one change event, and the next read of
    that resource is answered from the cache, without asking the plugin
    side, and empties the cache again. *)
Theorem onContentChange_reaches_opened {W} (env : Env ResourceCall W) (w : W)
  (self : TextContentResourceResolver) (key content : string) :
  (resources self !! key = None ->
   exec env (onContentChange key content self) w =
   ([], (Resolved tt, self), w)) /\
  (forall resource,
     resources self !! key = Some resource ->
     content <> "" ->
     let changed := set_cache (Some content) resource in
     let self1 := set_resources (insert key changed) self in
     exec env (onContentChange key content self) w =
     ([called fireDidChangeContents], (Resolved tt, self1),
      (env _ fireDidChangeContents w).2) /\
     forall w',
       exec env (on_resource key changed readContents self1) w' =
       ([], (Resolved (Js.val content),
             set_resources (insert key (set_cache None resource)) self),
        w')).
Proof.
  split.
  - intros Hnone. unfold onContentChange, Method.bind. simpl.
    by rewrite Hnone.
  - intros resource Hsome Hcontent changed self1. split.
    + unfold onContentChange, Method.bind. simpl. rewrite Hsome.
      unfold on_resource, setContent, Method.bind, Method.modify,
        Method.call. simpl.
      by destruct (env _ fireDidChangeContents w) as [[] w1].
    + intros w'. unfold on_resource.
      rewrite (readContents_cached changed content eq_refl Hcontent).
      simpl. subst self1. unfold set_resources. simpl.
      by rewrite insert_insert_eq.
Qed.

(** X4.  Disposing a resource removes it from the resolver: a content
    change that arrives afterwards is dropped, and resolving its URI again
    opens a new resource with an empty cache, whatever the disposed one had
    cached. *)
Theorem dispose_forgets_resource {W} (env : Env ResourceCall W) (w : W)
  (self : TextContentResourceResolver) (resource : TextContentResource)
  (content : string) (provider : TextContentResourceProvider) :
  providers self !! uri_scheme (uri resource) = Some provider ->
  let key := uri_toString (uri resource) in
  let opened := {| uri := uri resource; proxy := provider_proxy provider;
                   cache := None |} in
  exec env ((dispose resource ;; onContentChange key content)%method self) w
  = ([], (Resolved tt, set_resources (delete key) self), w) /\
  (dispose (E := ResourceCall) resource ;; resolve (uri resource))%method self
  = Ret (Resolved opened, set_resources (insert key opened) self).
Proof.
  intros Hp key opened. split.
  - unfold dispose, onContentChange, Method.bind, Method.modify. simpl.
    fold key. by rewrite lookup_delete_eq.
  - unfold dispose, resolve, provideResource, Method.bind, Method.modify.
    simpl. rewrite Hp. simpl. fold key. rewrite lookup_delete_eq. simpl.
    unfold set_resources. simpl. by rewrite insert_delete_eq.
Qed.

End ResolverLifecycle.

Lemma register_unregister_round_trip_witness :
  (TextContent.registerContentProvider (E := NoCall) "file" 3 ;;
   TextContent.unregisterContentProvider "file")%method
    (Examples.after (H := plain_uri) [Examples.Register "git" 1]) =
  Ret (Resolved tt, Examples.after [Examples.Register "git" 1]).
Proof.
  apply (register_unregister_round_trip (E := NoCall)
           (Examples.after (H := plain_uri) [Examples.Register "git" 1])
           (file_uri "/readme" : @URI plain_uri) 3).
  reflexivity.
Defined.

Lemma resolve_opens_once_witness :
  exists resource self1,
    TextContent.resolve (E := NoCall) (Examples.git_uri "/a")
      (Examples.after (H := plain_uri) [Examples.Register "git" 1]) =
    Ret (Resolved resource, self1) /\
    TextContent.resolve (E := NoCall) (Examples.git_uri "/a") self1 =
    Ret (Resolved resource, self1).
Proof.
  destruct (resolve_opens_once (E := NoCall)
              (Examples.after (H := plain_uri) [Examples.Register "git" 1])
              (Examples.git_uri "/a")
              {| TextContent.provider_proxy := 1 |} eq_refl)
    as (resource & self1 & Hfirst & _ & _ & _ & Hagain).
  exists resource, self1. split; [exact Hfirst|].
  apply Hagain; [reflexivity|]. by eexists.
Defined.

Lemma onContentChange_reaches_opened_witness :
  exec (Examples.answering (Resolved Js.undefined))
    (TextContent.onContentChange "file:/readme" "text"
       (Examples.fresh (H := plain_uri))) tt =
  ([], (Resolved tt, Examples.fresh), tt) /\
  exec (Examples.answering (Resolved Js.undefined))
    (TextContent.onContentChange "file:/readme" "text"
       Examples.readme_opened) tt =
  ([called TextContent.fireDidChangeContents],
   (Resolved tt,
    TextContent.set_resources
      (insert "file:/readme"
         (TextContent.set_cache (Some "text") Examples.readme))
      Examples.readme_opened),
   tt).
Proof.
  destruct (onContentChange_reaches_opened
              (Examples.answering (Resolved Js.undefined)) tt
              (Examples.fresh (H := plain_uri)) "file:/readme" "text")
    as [Hdropped _].
  destruct (onContentChange_reaches_opened
              (Examples.answering (Resolved Js.undefined)) tt
              Examples.readme_opened "file:/readme" "text")
    as [_ Hopened].
  split.
  - apply Hdropped. reflexivity.
  - apply (Hopened Examples.readme); [reflexivity | discriminate].
Defined.

Lemma dispose_forgets_resource_witness :
  (TextContent.dispose (E := TextContent.ResourceCall)
     (Examples.git_resource "/a" (Some "old text")) ;;
   TextContent.resolve (Examples.git_uri "/a"))%method
    (Examples.after (H := plain_uri) [Examples.Register "git" 1]) =
  Ret (Resolved (Examples.git_resource "/a" None),
       TextContent.set_resources
         (insert "git:/a" (Examples.git_resource "/a" None))
         (Examples.after [Examples.Register "git" 1])).
Proof.
  apply (dispose_forgets_resource
           (Examples.answering (Resolved Js.undefined)) tt
           (Examples.after (H := plain_uri) [Examples.Register "git" 1])
           (Examples.git_resource "/a" (Some "old text")) "text"
           {| TextContent.provider_proxy := 1 |}).
  reflexivity.
Defined.

(** ** Workspace roots, again *)

Section RootsMore.
Context `{UriApi}.
Variable KeysToKeysToAnyValue : Type.
Import Workspace.

Abbreviation WorkspaceCall := (WorkspaceCall KeysToKeysToAnyValue).

Lemma isAnyRootChanged_same (self : WorkspaceMainImpl)
  (new_roots : list string) :
  roots self = Some new_roots -> isAnyRootChanged new_roots self = false.
Proof.
  intros Hroots. apply not_true_is_false. intros Hchanged.
  apply (isAnyRootChanged_differs self new_roots new_roots Hroots) in Hchanged.
  by apply differs_neq in Hchanged.
Qed.

Lemma isAnyRootChanged_false (self : WorkspaceMainImpl)
  (new_roots : list string) :
  isAnyRootChanged new_roots self = false -> roots self = Some new_roots.
Proof.
  intros Hsame. destruct (roots self) as [old|] eqn:Hroots.
  - f_equal. destruct (decide (old = new_roots)) as [|Hne]; [done|].
    apply differs_neq in Hne.
    apply (isAnyRootChanged_differs self old new_roots Hroots) in Hne.
    congruence.
  - unfold isAnyRootChanged in Hsame. by rewrite Hroots in Hsame.
Qed.

(** the roots after [processWorkspaceFoldersChanged] are the new ones *)
Lemma processWorkspaceFoldersChanged_roots {W} (env : Env WorkspaceCall W)
  (w : W) (self : WorkspaceMainImpl) (new_roots : list string) :
  roots (exec env (processWorkspaceFoldersChanged _ new_roots self) w).1.2.2
  = Some new_roots.
Proof.
  unfold processWorkspaceFoldersChanged, Method.bind, Method.get. simpl.
  destruct (isAnyRootChanged new_roots self) eqn:Hchanged; simpl.
  - unfold Method.call, Method.await. simpl.
    destruct (env _ (onWorkspaceFoldersChanged _ new_roots) w) as [[] w1].
    destruct (env _ (workspace_resource _) w1) as [ws w2].
    destruct (env _ (tryGetRoots _) w2) as [current w3].
    destruct (env _ (getAllStorageValues _ ws current) w3) as [[data|e] w4];
      simpl; [|done].
    by destruct (env _ (updatePluginsWorkspaceData _ data) w4) as [[] w5].
  - by apply isAnyRootChanged_false.
Qed.

(** X5.  Before any roots are stored every list, the empty one too, is
    announced to the plugin side.  Whatever was stored, after
    [processWorkspaceFoldersChanged] the stored roots are the new list, and
    a second call with the same list makes no call and changes nothing. *)
Theorem processWorkspaceFoldersChanged_repeat_silent {W}
  (env : Env WorkspaceCall W) (w w' : W) (self : WorkspaceMainImpl)
  (new_roots : list string) :
  let first := exec env (processWorkspaceFoldersChanged _ new_roots self) w in
  (roots self = None ->
   exists rest,
     first.1.1 = called (onWorkspaceFoldersChanged _ new_roots) :: rest) /\
  roots first.1.2.2 = Some new_roots /\
  exec env (processWorkspaceFoldersChanged _ new_roots first.1.2.2) w' =
  ([], (Resolved tt, first.1.2.2), w').
Proof.
  intros first. split; [|split].
  - intros Hunset. subst first.
    unfold processWorkspaceFoldersChanged, Method.bind, Method.get. simpl.
    unfold isAnyRootChanged. rewrite Hunset. simpl.
    unfold Method.call, Method.await. simpl.
    destruct (env _ (onWorkspaceFoldersChanged _ new_roots) w) as [[] w1].
    destruct (env _ (workspace_resource _) w1) as [ws w2].
    destruct (env _ (tryGetRoots _) w2) as [current w3].
    destruct (env _ (getAllStorageValues _ ws current) w3) as [[data|e] w4];
      simpl; [|eauto].
    destruct (env _ (updatePluginsWorkspaceData _ data) w4) as [[] w5].
    simpl. eauto.
  - apply processWorkspaceFoldersChanged_roots.
  - pose proof (processWorkspaceFoldersChanged_roots env w self new_roots)
      as Hroots. fold first in Hroots.
    unfold processWorkspaceFoldersChanged, Method.bind, Method.get. simpl.
    by rewrite (isAnyRootChanged_same _ _ Hroots).
Qed.

(** X6.  When the roots changed and the plugin server fails to read the
    storage, the method rejects with that error after the new roots were
    stored and announced: the stored roots are the new list; the storage of
    the plugin side is not updated. *)
Theorem processWorkspaceFoldersChanged_storage_fails {W}
  (env : Env WorkspaceCall W) (w : W) (self : WorkspaceMainImpl)
  (new_roots : list string) (err : Error) :
  isAnyRootChanged new_roots self = true ->
  (forall workspace current w0,
     (env _ (getAllStorageValues _ workspace current) w0).1 = Rejected err) ->
  let out := exec env (processWorkspaceFoldersChanged _ new_roots self) w in
  out.1.2 = (Rejected err, set_roots (Some new_roots) self) /\
  roots out.1.2.2 = Some new_roots /\
  exists workspace current,
    out.1.1 = [called (onWorkspaceFoldersChanged _ new_roots);
               called (workspace_resource _);
               called (tryGetRoots _);
               called (getAllStorageValues _ workspace current)].
Proof.
  intros Hchanged Hfails out. subst out.
  unfold processWorkspaceFoldersChanged, Method.bind, Method.get. simpl.
  rewrite Hchanged. simpl. unfold Method.call, Method.await. simpl.
  destruct (env _ (onWorkspaceFoldersChanged _ new_roots) w) as [[] w1].
  destruct (env _ (workspace_resource _) w1) as [ws w2].
  destruct (env _ (tryGetRoots _) w2) as [current w3].
  specialize (Hfails ws current w3).
  destruct (env _ (getAllStorageValues _ ws current) w3) as [answer w4].
  simpl in Hfails. subst answer. simpl. eauto.
Qed.

(** X7.  Unregistering a canonical-URI provider that is registered removes
    its entry and disposes the disposable stored for it, once.  So a
    registration for a free scheme followed by its unregistration asks the
    service, disposes what the service returned and leaves the instance as
    it was. *)
Theorem canonicalUriProvider_round_trip {W} (env : Env WorkspaceCall W)
  (w : W) (self : WorkspaceMainImpl) (s : string) :
  (forall d,
     canonicalUriProviders self !! s = Some d ->
     exec env (unregisterCanonicalUriProvider _ s self) w =
     ([called (dispose _ d)],
      (Resolved tt, set_canonicalUriProviders (delete s) self),
      (env _ (dispose _ d) w).2)) /\
  (forall d w1,
     canonicalUriProviders self !! s = None ->
     env _ (canonicalUriService_register _ s) w = (Resolved d, w1) ->
     exec env ((registerCanonicalUriProvider _ s ;;
                unregisterCanonicalUriProvider _ s)%method self) w =
     ([called (canonicalUriService_register _ s); called (dispose _ d)],
      (Resolved tt, self), (env _ (dispose _ d) w1).2)).
Proof.
  split.
  - intros d Hd.
    unfold unregisterCanonicalUriProvider, Method.bind, Method.call. simpl.
    rewrite Hd. simpl. by destruct (env _ (dispose _ d) w) as [[] w1].
  - intros d w1 Hfree Hd.
    unfold registerCanonicalUriProvider, unregisterCanonicalUriProvider,
      Method.bind, Method.await, Method.call. simpl.
    rewrite Hd. simpl. rewrite lookup_insert_eq. simpl.
    destruct (env _ (dispose _ d) w1) as [[] w2]. simpl.
    do 2 f_equal. f_equal. destruct self. unfold set_canonicalUriProviders.
    simpl in *. by rewrite delete_insert_id.
Qed.

End RootsMore.

Lemma processWorkspaceFoldersChanged_repeat_silent_witness :
  exists rest,
    (exec (Examples.workspace_env (Resolved 0))
       (Workspace.processWorkspaceFoldersChanged unit []
          (Examples.workspace ∅ None)) tt).1.1 =
    called (Workspace.onWorkspaceFoldersChanged unit []) :: rest.
Proof.
  apply (processWorkspaceFoldersChanged_repeat_silent unit
           (Examples.workspace_env (Resolved 0)) tt tt
           (Examples.workspace ∅ None) []).
  reflexivity.
Defined.

Lemma processWorkspaceFoldersChanged_storage_fails_witness :
  (exec (Examples.storage_failing {| message := "disk" |})
     (Workspace.processWorkspaceFoldersChanged unit ["file:///b"]
        (Examples.workspace ∅ (Some ["file:///a"]))) tt).1.2 =
  (Rejected {| message := "disk" |},
   Workspace.set_roots (Some ["file:///b"])
     (Examples.workspace ∅ (Some ["file:///a"]))).
Proof.
  apply (processWorkspaceFoldersChanged_storage_fails unit
           (Examples.storage_failing {| message := "disk" |}) tt
           (Examples.workspace ∅ (Some ["file:///a"])) ["file:///b"]
           {| message := "disk" |}).
  - reflexivity.
  - reflexivity.
Defined.

Lemma canonicalUriProvider_round_trip_witness :
  let env := Examples.workspace_env (Resolved 2) in
  exec env (Workspace.unregisterCanonicalUriProvider unit "git"
              (Examples.workspace {["git" := 1]} None)) tt =
  ([called (Workspace.dispose unit 1)],
   (Resolved tt,
    Workspace.set_canonicalUriProviders (delete "git")
      (Examples.workspace {["git" := 1]} None)), tt) /\
  exec env ((Workspace.registerCanonicalUriProvider unit "git" ;;
             Workspace.unregisterCanonicalUriProvider unit "git")%method
              (Examples.workspace ∅ None)) tt =
  ([called (Workspace.canonicalUriService_register unit "git");
    called (Workspace.dispose unit 2)],
   (Resolved tt, Examples.workspace ∅ None), tt).
Proof.
  intros env. split.
  - destruct (canonicalUriProvider_round_trip unit env tt
                (Examples.workspace {["git" := 1]} None) "git")
      as [Hpresent _].
    apply (Hpresent 1). reflexivity.
  - destruct (canonicalUriProvider_round_trip unit env tt
                (Examples.workspace ∅ None) "git") as [_ Hround].
    apply (Hround 2 tt); reflexivity.
Defined.

(** ** Text search: cancellation, the cap and the search ids *)

Section SearchMore.
Context `{UriApi} {SearchMatch : Type}.
Import Workspace.

Implicit Types (ms : list SearchMatch) (c : FindTextInFiles).
Implicit Types (es : list (SearchEffect SearchMatch)).
Implicit Types (ins : list (SearchInput SearchMatch)).

Lemma delivered_cancels (ls : list Z) :
  delivered (cancel (SearchMatch := SearchMatch) <$> ls) = 0%Z.
Proof. induction ls as [|l ls IH]; [done | exact IH]. Qed.

(** a request whose token is cancelled, or whose callback has seen it *)
Lemma step_cancelled (i : SearchInput SearchMatch) c :
  canceledRequest c = true \/ isCancellationRequested c = true ->
  exists c' es,
    step i c = Some (c', es) /\ delivered es = 0%Z /\
    (canceledRequest c' = true \/ isCancellationRequested c' = true).
Proof.
  intros Hc. destruct i as [searchId result|searchId|]; simpl.
  - unfold handle_onResult.
    destruct (canceledRequest c) eqn:Hflag; [by exists c, []; eauto|].
    destruct Hc as [|Htoken]; [done|].
    set (c1 := if negb _ then _ else c).
    assert (isCancellationRequested c1 = true) as ->
        by (subst c1; by destruct (negb _)).
    eexists _, _. split; [done|]. split; [done|]. by left.
  - unfold handle_onDone.
    destruct (bool_decide _); eexists _, _; (split; [done|]);
      (split; [done|]); exact Hc.
  - unfold handle_cancellation. eexists _, _. split; [done|].
    split; [apply delivered_cancels|]. right.
    by destruct (token_listeners _).
Qed.

Lemma run_cancelled ins c :
  canceledRequest c = true \/ isCancellationRequested c = true ->
  exists c' es, run ins c = Some (c', es) /\ delivered es = 0%Z.
Proof.
  revert c. induction ins as [|i ins IH]; intros c Hc; simpl.
  - by exists c, [].
  - destruct (step_cancelled i c Hc) as (c1 & e1 & -> & Hd1 & Hc1).
    destruct (IH c1 Hc1) as (c2 & e2 & -> & Hd2).
    exists c2, (e1 ++ e2). split; [done|]. rewrite delivered_app. lia.
Qed.

(** X8.  A search whose token is cancelled from the start never delivers a
    match, and from the moment the token is cancelled no match is delivered
    any more: every callback returns, whatever arrives and whatever the
    cap and the count are. *)
Theorem cancellation_stops_delivery (self : WorkspaceMainImpl)
  (maxResults : option Z) (requestId : Z) c ins :
  (exists c' es,
     run ins (findTextInFiles self maxResults requestId true) = Some (c', es)
     /\ delivered es = 0%Z) /\
  (exists c' es,
     run (cancellationRequested :: ins) c = Some (c', es) /\
     delivered es = 0%Z).
Proof.
  split.
  - apply run_cancelled. by right.
  - cbn [run step].
    destruct (handle_cancellation c) as [c1 e1] eqn:Hcancel.
    assert (isCancellationRequested c1 = true /\ delivered e1 = 0%Z)
      as [Htoken Hd1].
    { unfold handle_cancellation in Hcancel. injection Hcancel as <- <-.
      split; [by destruct (token_listeners _) | apply delivered_cancels]. }
    destruct (run_cancelled ins c1 (or_intror Htoken)) as (c2 & e2 & -> & Hd2).
    exists c2, (e1 ++ e2). split; [done|]. rewrite delivered_app. lia.
Qed.

(** X9.  For [maxResults] absent or a non-negative integer and a search that
    is done once, at the end, the promise resolves with [limitHit = true]
    exactly when the matches delivered add up to the cap: also when they
    were just as many as the cap and nothing was cut. *)
Theorem limitHit_iff_cap_reached (self : WorkspaceMainImpl)
  (maxResults : option Z) (requestId : Z) (token_cancelled : bool) ins
  (searchId : Z) :
  (forall n, maxResults = Some n -> (0 <= n)%Z) ->
  forallb (fun i => negb (is_onDone i)) ins = true ->
  exists c es limitHit,
    run (ins ++ [onDone searchId])
      (findTextInFiles self maxResults requestId token_cancelled)
    = Some (c, es) /\
    promise_value es = Some limitHit /\
    (limitHit = true <-> delivered es = maxHits_of maxResults).
Proof.
  intros Hnonneg Hno.
  set (c0 := findTextInFiles self maxResults requestId token_cancelled).
  assert (0 < maxHits c0)%Z as Hpos.
  { subst c0. simpl. unfold maxHits_of. destruct maxResults as [n|]; [|done].
    specialize (Hnonneg n eq_refl). destruct (Z.eqb_spec n 0); lia. }
  assert (matches c0 <= maxHits c0)%Z as Hle0 by (simpl in *; lia).
  destruct (run_within_cap ins c0 Hle0)
    as (c1 & e1 & Hrun1 & Hh1 & Hm1 & Hd1 & Hle1).
  pose proof (run_unsettled ins c0 c1 e1 Hle0 Hno Hrun1) as Hp1.
  destruct (handle_onDone (SearchMatch := SearchMatch) searchId c1)
    as [c2 e2] eqn:Hdone.
  assert (promise_value e2 = Some (maxHits c1 <=? matches c1)%Z
          /\ delivered e2 = 0%Z) as [Hp2 Hd2].
  { unfold handle_onDone in Hdone.
    by destruct (bool_decide _); injection Hdone as <- <-. }
  exists c2, (e1 ++ e2 ++ []), (maxHits c1 <=? matches c1)%Z. split.
  - rewrite run_app, Hrun1. cbn [run step]. by rewrite Hdone.
  - rewrite promise_value_app, Hp1, promise_value_app, Hp2.
    split; [done|]. rewrite !delivered_app, Hd2.
    change (matches c0) with 0%Z in Hm1.
    change (maxHits c0) with (maxHits_of maxResults) in Hh1.
    change (delivered []) with 0%Z.
    rewrite Z.leb_le. lia.
Qed.

(** X10.  A batch with matches that reaches a request that is not cancelled
    and whose count is within the cap is handed to the plugin, for the same
    file and root, cut to its first matches, as many as still fit under the
    cap and in their order;
    the count grows by that number, and the underlying search is cancelled
    in the same callback exactly when the cap is now reached.  At the cap
    the batch is still handed over, with no match in it. *)
Theorem onResult_delivers_prefix (searchId : Z)
  (r : SearchInWorkspaceResult SearchMatch) c :
  (matches c <= maxHits c)%Z ->
  canceledRequest c = false ->
  isCancellationRequested c = false ->
  result_matches r <> [] ->
  let room := Z.to_nat (maxHits c - matches c) in
  let cut := set_result_matches (take room (result_matches r)) r in
  exists c',
    step (onResult searchId (Some r)) c =
    Some (c',
          onTextSearchResult (searchRequestId c) false (Some cut)
          :: if bool_decide (room <= length (result_matches r))
             then [cancel searchId] else []) /\
    matches c' =
      (matches c + Z.of_nat (Nat.min room (length (result_matches r))))%Z /\
    result_matches cut = take room (result_matches r) /\
    fileUri cut = fileUri r /\
    root cut = root r.
Proof.
  intros Hle Hflag Htoken Hms room cut. subst cut. simpl.
  unfold handle_onResult.
  rewrite Hflag.
  set (c1 := if negb _ then _ else c).
  assert (matches c1 = matches c /\ maxHits c1 = maxHits c
          /\ searchRequestId c1 = searchRequestId c
          /\ isCancellationRequested c1 = false) as (Hm & Hh & Hr & ->).
  { subst c1. by destruct (negb _). }
  destruct (result_matches r) as [|m ms] eqn:Hr'; [done|].
  rewrite <- Hr'.
  assert (0 < length (result_matches r)) as Hlen by (rewrite Hr'; simpl; lia).
  rewrite (proj2 (Nat.ltb_lt _ _) Hlen).
  rewrite truncate_loop_fits by lia.
  rewrite Hm, Hh. fold room.
  eexists. split.
  - simpl. apply (f_equal Some), f_equal2; [reflexivity|].
    rewrite Hr, Hh, length_take. f_equal.
    destruct (Z.leb_spec (maxHits c)
                (matches c +
                 Z.of_nat (Nat.min room (length (result_matches r)))));
      [rewrite bool_decide_eq_true_2 | rewrite bool_decide_eq_false_2];
      try done; subst room; lia.
  - simpl. by rewrite length_take.
Qed.

Lemma step_frame (i : SearchInput SearchMatch) c c' es (id : Z) :
  step i c = Some (c', es) ->
  searchId_of i <> Some id ->
  (id ∈ workspaceSearch (this c') <-> id ∈ workspaceSearch (this c)) /\
  set_workspaceSearch (fun _ => workspaceSearch (this c)) (this c') = this c.
Proof.
  assert (set_workspaceSearch (fun _ => workspaceSearch (this c)) (this c)
          = this c) as Hid by by destruct (this c).
  destruct i as [searchId result|searchId|]; simpl; intros Hstep Hid'.
  - assert (searchId <> id) as Hne by congruence.
    unfold handle_onResult in Hstep.
    destruct (canceledRequest c); [by simplify_eq|].
    set (c1 := if negb _ then _ else c) in Hstep.
    assert ((id ∈ workspaceSearch (this c1) <-> id ∈ workspaceSearch (this c))
            /\ set_workspaceSearch (fun _ => workspaceSearch (this c))
                 (this c1) = this c) as Hc1.
    { subst c1. destruct (negb _); [|done]. simpl.
      split; [rewrite elem_of_union, elem_of_singleton; intuition congruence|].
      by destruct (this c). }
    destruct (isCancellationRequested c1); [by simplify_eq|].
    destruct result as [r|]; [|by simplify_eq].
    destruct (0 <? length (result_matches r))%nat;
      [|by simplify_eq].
    destruct (truncate_loop _ _ _ _); [|done].
    by simplify_eq.
  - assert (searchId <> id) as Hne by congruence.
    unfold handle_onDone in Hstep.
    destruct (bool_decide _); simplify_eq; [|done].
    simpl.
    split; [rewrite elem_of_difference, elem_of_singleton; intuition congruence|].
    by destruct (this c).
  - unfold handle_cancellation in Hstep. simplify_eq.
    by destruct (token_listeners _).
Qed.

(** X11.  A search request keeps the set of known search ids tidy: ids that
    none of its callbacks was called with are in the set afterwards exactly
    if they were before, nothing else of the instance changes, and after
    the completion callback of a search its id is not in the set. *)
Theorem workspaceSearch_bookkeeping ins c c' es :
  run ins c = Some (c', es) ->
  (forall id,
     Some id ∉ searchId_of <$> ins ->
     (id ∈ workspaceSearch (this c') <-> id ∈ workspaceSearch (this c))) /\
  set_workspaceSearch (fun _ => workspaceSearch (this c)) (this c') = this c
  /\
  (forall before searchId,
     ins = before ++ [onDone searchId] ->
     searchId ∉ workspaceSearch (this c')).
Proof.
  intros Hrun. split; [|split].
  - revert c es Hrun. induction ins as [|i ins IH]; intros c es; cbn [run].
    + by intros [= <- <-].
    + destruct (step i c) as [[c1 e1]|] eqn:Hstep; [|done].
      destruct (run ins c1) as [[c2 e2]|] eqn:Hrun; [|done].
      intros [= <- <-] id Hid. rewrite fmap_cons, not_elem_of_cons in Hid.
      destruct Hid as [Hi Hid].
      rewrite (IH c1 e2 Hrun id Hid).
      by apply (step_frame i c c1 e1 id Hstep).
  - revert c es Hrun. induction ins as [|i ins IH]; intros c es; simpl.
    + intros [= <- <-]. by destruct (this c).
    + destruct (step i c) as [[c1 e1]|] eqn:Hstep; [|done].
      destruct (run ins c1) as [[c2 e2]|] eqn:Hrun; [|done].
      intros [= <- <-].
      pose proof (IH c1 e2 Hrun) as H2.
      assert (set_workspaceSearch (fun _ => workspaceSearch (this c))
                (this c1) = this c) as H1.
      { destruct i as [searchId result|searchId|].
        - apply (step_frame _ c c1 e1 (searchId + 1) Hstep). simpl.
          intros [=]. lia.
        - apply (step_frame _ c c1 e1 (searchId + 1) Hstep). simpl.
          intros [=]. lia.
        - by apply (step_frame _ c c1 e1 0 Hstep). }
      rewrite <- H1, <- H2. by destruct (this c2).
  - intros before searchId ->. rewrite run_app in Hrun.
    destruct (run before c) as [[c1 e1]|]; [|done].
    cbn [run step] in Hrun. unfold handle_onDone in Hrun.
    destruct (bool_decide _) eqn:Hin; simplify_eq.
    + simpl. rewrite elem_of_difference, elem_of_singleton. intuition congruence.
    + by apply bool_decide_eq_false in Hin.
Qed.

End SearchMore.

Lemma limitHit_iff_cap_reached_witness :
  exists c es limitHit,
    Workspace.run
      ([Workspace.onResult 1 (Some Examples.three_matches)]
       ++ [Workspace.onDone 1])
      (Workspace.findTextInFiles (Examples.workspace ∅ None) (Some 3%Z) 7
         false)
    = Some (c, es) /\
    Workspace.promise_value es = Some limitHit /\
    (limitHit = true <-> Workspace.delivered es = 3%Z).
Proof.
  apply (limitHit_iff_cap_reached (Examples.workspace ∅ None) (Some 3%Z) 7
           false [Workspace.onResult 1 (Some Examples.three_matches)] 1).
  - intros n [= <-]. lia.
  - reflexivity.
Defined.

Lemma onResult_delivers_prefix_witness :
  let c := Workspace.findTextInFiles (Examples.workspace ∅ None) (Some 2%Z) 7
             false in
  exists c',
    Workspace.step (Workspace.onResult 1 (Some Examples.three_matches)) c =
    Some (c',
          [Workspace.onTextSearchResult 7 false
             (Some (Workspace.set_result_matches [10; 20]
                      Examples.three_matches));
           Workspace.cancel 1]) /\
    Workspace.matches c' = 2%Z.
Proof.
  intros c.
  destruct (onResult_delivers_prefix 1 Examples.three_matches c)
    as (c' & Hstep & Hmatches & _).
  - simpl. lia.
  - reflexivity.
  - reflexivity.
  - discriminate.
  - exists c'. split; [exact Hstep | exact Hmatches].
Defined.

Lemma workspaceSearch_bookkeeping_witness :
  exists c' es,
    Workspace.run
      [Workspace.onResult 1 (Some Examples.three_matches);
       Workspace.onDone 1]
      (Workspace.findTextInFiles (Examples.workspace ∅ None) (Some 2%Z) 7
         false) = Some (c', es) /\
    1%Z ∉ Workspace.workspaceSearch (Workspace.this c').
Proof.
  destruct (Workspace.run
              [Workspace.onResult 1 (Some Examples.three_matches);
               Workspace.onDone 1]
              (Workspace.findTextInFiles (Examples.workspace ∅ None)
                 (Some 2%Z) 7 false)) as [[c' es]|] eqn:Hrun.
  - exists c', es. split; [reflexivity|].
    destruct (workspaceSearch_bookkeeping _ _ c' es Hrun) as (_ & _ & Hdone).
    apply (Hdone [Workspace.onResult 1 (Some Examples.three_matches)] 1%Z).
    reflexivity.
  - vm_compute in Hrun. discriminate Hrun.
Defined.

(** ** The notebook documents bridge: listeners, batches and failures *)

Section NotebookMore.
Context `{UriApi} `{NotebookTypes}.
Import NotebookDocuments.

Implicit Types (events : list NotebookContentChangedEvent).
Implicit Types (self : NotebookDocumentsMainImpl).

Lemma handleNotebooksAdded_cons {W} (env : Env NotebookCall W) (w : W) self
  (notebook : NotebookModel) (notebooks : list NotebookModel) :
  exec env (handleNotebooksAdded (notebook :: notebooks) self) w =
  (let '(listener, w1) := env _ (onDidChangeContent notebook) w in
   let '(tr, r, w2) :=
     exec env
       (handleNotebooksAdded notebooks
          (set_mapping (insert (uri_toString (uri notebook)) [listener])
             self)) w1 in
   (called (onDidChangeContent notebook) :: tr, r, w2)).
Proof.
  unfold handleNotebooksAdded. cbn [for_each].
  unfold Method.bind at 1. unfold Method.bind at 1. unfold Method.call.
  simpl. by destruct (env _ (onDidChangeContent notebook) w) as [l w1].
Qed.

(** X12.  [handleNotebooksAdded] subscribes to every notebook of the list,
    in order, and disposes nothing.  Afterwards every notebook of the list
    has a listener set of one listener under its URI string, and the
    entries under other keys are as before.  For two notebooks of the same
    URI string the entry holds the listener of the second: the listener of
    the first is dropped from the map without being disposed. *)
Theorem handleNotebooksAdded_subscribes {W} (env : Env NotebookCall W) (w : W)
  self (notebooks : list NotebookModel) :
  let out := exec env (handleNotebooksAdded notebooks self) w in
  let final := documentEventListenersMapping out.1.2.2 in
  out.1.1 = (fun nb => called (onDidChangeContent nb)) <$> notebooks /\
  out.1.2.1 = Resolved tt /\
  (forall key,
     key ∉ (fun nb => uri_toString (uri nb)) <$> notebooks ->
     final !! key = documentEventListenersMapping self !! key) /\
  (forall nb,
     nb ∈ notebooks ->
     exists listener, final !! uri_toString (uri nb) = Some [listener]) /\
  (forall nb1 nb2,
     notebooks = [nb1; nb2] ->
     uri_toString (uri nb1) = uri_toString (uri nb2) ->
     final !! uri_toString (uri nb1) =
     Some [(env _ (onDidChangeContent nb2)
              (env _ (onDidChangeContent nb1) w).2).1]).
Proof.
  intros out final. subst final out.
  assert (forall self0 w0,
    let out := exec env (handleNotebooksAdded notebooks self0) w0 in
    out.1.1 = (fun nb => called (onDidChangeContent nb)) <$> notebooks /\
    out.1.2.1 = Resolved tt /\
    (forall key,
       key ∉ (fun nb => uri_toString (uri nb)) <$> notebooks ->
       documentEventListenersMapping out.1.2.2 !! key =
       documentEventListenersMapping self0 !! key) /\
    (forall nb,
       nb ∈ notebooks ->
       exists listener,
         documentEventListenersMapping out.1.2.2 !! uri_toString (uri nb)
         = Some [listener])) as Hgen.
  { induction notebooks as [|nb0 nbs IH]; intros self0 w0.
    - simpl. repeat split; try done. intros nb Hin. by apply elem_of_nil in Hin.
    - cbn zeta. rewrite handleNotebooksAdded_cons.
      destruct (env _ (onDidChangeContent nb0) w0) as [l w1].
      specialize (IH (set_mapping (insert (uri_toString (uri nb0)) [l]) self0)
                    w1).
      cbn zeta in IH.
      destruct (exec env (handleNotebooksAdded nbs _) w1) as [[tr r] w2].
      cbn [fst snd] in *. destruct IH as (Htr & Hr & Hframe & Hin).
      split; [by rewrite fmap_cons, Htr|]. split; [done|]. split.
      + intros key Hkey. rewrite fmap_cons, not_elem_of_cons in Hkey.
        destruct Hkey as [Hne Hkey].
        rewrite (Hframe key Hkey). simpl. by rewrite lookup_insert_ne.
      + intros nb Hnb. apply elem_of_cons in Hnb as [->|Hnb]; [|by apply Hin].
        destruct (decide (uri_toString (uri nb0)
                            ∈ (fun nb => uri_toString (uri nb)) <$> nbs))
          as [Hdup|Hfresh].
        * apply list_elem_of_fmap in Hdup as (nb' & -> & Hnb').
          by apply Hin.
        * rewrite (Hframe _ Hfresh). simpl. rewrite lookup_insert_eq. eauto. }
  destruct (Hgen self w) as (Htr & Hr & Hframe & Hin).
  repeat split; try done.
  intros nb1 nb2 -> Hsame.
  rewrite !handleNotebooksAdded_cons.
  destruct (env _ (onDidChangeContent nb1) w) as [l1 w1]. simpl.
  destruct (env _ (onDidChangeContent nb2) w1) as [l2 w2]. simpl.
  by rewrite Hsame, lookup_insert_eq.
Qed.

(** X13.  [handleNotebooksRemoved] only ever looks at the key
    [[object Object]]: whatever documents it is given, the entries under
    all other keys stay as they were, and nothing but a listener set stored
    under that key is disposed, at most once; given at least one document,
    that key has no entry afterwards. *)
Theorem handleNotebooksRemoved_frame {W} (env : Env NotebookCall W) (w : W)
  self (uris : list UriComponents) :
  let out := exec env (handleNotebooksRemoved uris self) w in
  let final := documentEventListenersMapping out.1.2.2 in
  (forall key, key <> Js.object_toString ->
               final !! key = documentEventListenersMapping self !! key) /\
  (uris <> [] -> final !! Js.object_toString = None) /\
  length out.1.1 <= 1 /\
  (forall collection,
     In (called (dispose collection)) out.1.1 ->
     documentEventListenersMapping self !! Js.object_toString
     = Some collection).
Proof.
  intros out final. subst final out.
  destruct (documentEventListenersMapping self !! Js.object_toString)
    as [collection|] eqn:Hkey.
  2:{ rewrite handleNotebooksRemoved_nothing by done. simpl.
      repeat split; try done; try lia. }
  destruct uris as [|u uris].
  { simpl. repeat split; try done; try lia. }
  pose proof (handleNotebooksRemoved_nothing env
                (env _ (dispose collection) w).2
                (set_mapping (delete Js.object_toString) self) uris) as Hrest.
  unfold handleNotebooksRemoved in *. cbn [for_each].
  set (rest := for_each uris _) in *.
  unfold Method.bind, Method.get, Method.call, Method.modify,
    UriComponents_toString.
  cbn [pbind]. rewrite Hkey. cbn [pbind exec].
  destruct (env _ (dispose collection) w) as [[] w1]. cbn [pbind].
  simpl in Hrest. rewrite Hrest by apply lookup_delete_eq.
  simpl. repeat split.
  - intros key Hne. by rewrite lookup_delete_ne.
  - intros _. apply lookup_delete_eq.
  - lia.
  - intros c [Hc|[]]. by inversion Hc.
Qed.

(** X14.  The wire events of a batch are those of its first part followed
    by those of the rest, however the batch is split; no event yields more
    than one wire event, and the empty batch yields none. *)
Theorem eventDto_app events1 events2 :
  rawEvents (eventDto (events1 ++ events2)) =
    rawEvents (eventDto events1) ++ rawEvents (eventDto events2) /\
  length (rawEvents (eventDto events1)) <= length events1 /\
  rawEvents (eventDto []) = [].
Proof.
  split; [|split; [|done]].
  - simpl. rewrite !rawEvents_concat. simpl.
    by rewrite fmap_app, concat_app.
  - simpl. rewrite rawEvents_concat. simpl.
    induction events1 as [|e events IH]; [done|].
    rewrite fmap_cons. simpl. rewrite length_app.
    assert (length (switch [] e) <= 1) by (destruct e; simpl; lia). lia.
Qed.

(** X15.  When the model resolver fails, [$tryCreateNotebook] rejects
    without announcing a dirty notebook and [$trySaveNotebook] rejects
    without saving; when the save fails, [$trySaveNotebook] rejects and the
    resolved reference is not disposed. *)
Theorem notebook_rpc_failures {W} (env : Env NotebookCall W) (w : W) self
  (viewType : string) (uriComponents : UriComponents) :
  (forall err w1,
     env _ (resolveUntitledResource viewType) w = (Rejected err, w1) ->
     (exec env (tryCreateNotebook viewType self) w).1 =
     ([called (resolveUntitledResource viewType)], (Rejected err, self))) /\
  (forall err w1,
     env _ (resolve (fromComponents uriComponents)) w = (Rejected err, w1) ->
     (exec env (trySaveNotebook uriComponents self) w).1 =
     ([called (resolve (fromComponents uriComponents))],
      (Rejected err, self))) /\
  (forall ref w1 err w2,
     env _ (resolve (fromComponents uriComponents)) w = (Resolved ref, w1) ->
     env _ (save ref) w1 = (Rejected err, w2) ->
     (exec env (trySaveNotebook uriComponents self) w).1 =
     ([called (resolve (fromComponents uriComponents)); called (save ref)],
      (Rejected err, self))).
Proof.
  split; [|apply trySaveNotebook_rejected].
  intros err w1 Href.
  unfold tryCreateNotebook, Method.bind, Method.await. simpl.
  by rewrite Href.
Qed.

End NotebookMore.

Lemma handleNotebooksAdded_subscribes_witness :
  let nb := Examples.notebook "/nb.ipynb" false 0 in
  let out :=
    exec (Examples.notebook_env nb)
      (NotebookDocuments.handleNotebooksAdded [nb; nb] Examples.no_listeners)
      tt in
  (exists listener,
     NotebookDocuments.documentEventListenersMapping out.1.2.2
       !! "file:/nb.ipynb" = Some [listener]) /\
  NotebookDocuments.documentEventListenersMapping out.1.2.2
    !! "file:/nb.ipynb" = Some [1] /\
  NotebookDocuments.documentEventListenersMapping out.1.2.2
    !! "file:/other.ipynb" = None.
Proof.
  intros nb out.
  destruct (handleNotebooksAdded_subscribes (Examples.notebook_env nb) tt
              Examples.no_listeners [nb; nb])
    as (_ & _ & Hframe & Hin & Hlast).
  split; [|split].
  - apply (Hin nb). by left.
  - apply (Hlast nb nb); reflexivity.
  - apply (Hframe "file:/other.ipynb").
    intros Hkey.
    apply elem_of_cons in Hkey as [Hkey|Hkey]; [discriminate Hkey|].
    apply elem_of_cons in Hkey as [Hkey|Hkey]; [discriminate Hkey|].
    by apply elem_of_nil in Hkey.
Defined.

Lemma handleNotebooksRemoved_frame_witness :
  let nb := Examples.notebook "/nb.ipynb" false 0 in
  let self :=
    {| NotebookDocuments.documentEventListenersMapping :=
         {[ "file:/nb.ipynb" := [1]; "[object Object]" := [4] ]} |} in
  let out :=
    exec (Examples.notebook_env nb)
      (NotebookDocuments.handleNotebooksRemoved [file_uri "/nb.ipynb"] self)
      tt in
  NotebookDocuments.documentEventListenersMapping out.1.2.2
    !! "file:/nb.ipynb" = Some [1] /\
  NotebookDocuments.documentEventListenersMapping out.1.2.2
    !! "[object Object]" = None.
Proof.
  intros nb self out.
  destruct (handleNotebooksRemoved_frame (Examples.notebook_env nb) tt self
              [file_uri "/nb.ipynb"]) as (Hframe & Hgone & _ & _).
  split.
  - apply (Hframe "file:/nb.ipynb"). discriminate.
  - apply Hgone. discriminate.
Defined.

Lemma notebook_rpc_failures_witness :
  let nb := Examples.notebook "/nb.ipynb" false 0 in
  let err := {| message := "save failed" |} in
  (exec (Examples.failing_notebook_env true nb err)
     (NotebookDocuments.tryCreateNotebook "jupyter-notebook"
        Examples.no_listeners) tt).1 =
  ([called (NotebookDocuments.resolveUntitledResource "jupyter-notebook")],
   (Rejected err, Examples.no_listeners)) /\
  (exec (Examples.failing_notebook_env true nb err)
     (NotebookDocuments.trySaveNotebook (file_uri "/nb.ipynb")
        Examples.no_listeners) tt).1 =
  ([called (NotebookDocuments.resolve
              (file_uri "/nb.ipynb" : @URI plain_uri))],
   (Rejected err, Examples.no_listeners)) /\
  (exec (Examples.failing_notebook_env false nb err)
     (NotebookDocuments.trySaveNotebook (file_uri "/nb.ipynb")
        Examples.no_listeners) tt).1 =
  ([called (NotebookDocuments.resolve
              (file_uri "/nb.ipynb" : @URI plain_uri));
    called (NotebookDocuments.save nb)],
   (Rejected err, Examples.no_listeners)).
Proof.
  intros nb err.
  destruct (notebook_rpc_failures (Examples.failing_notebook_env true nb err)
              tt Examples.no_listeners "jupyter-notebook"
              (file_uri "/nb.ipynb")) as (Hcreate & Hresolve & _).
  destruct (notebook_rpc_failures (Examples.failing_notebook_env false nb err)
              tt Examples.no_listeners "jupyter-notebook"
              (file_uri "/nb.ipynb")) as (_ & _ & Hsave).
  split; [|split].
  - apply (Hcreate err tt). reflexivity.
  - apply (Hresolve err tt). reflexivity.
  - apply (Hsave nb tt err tt); reflexivity.
Defined.

(** ** The workspace folder picker *)

Section StringFacts.
Import Workspace.

Lemma lastIndexOf_range (c : Ascii.ascii) (s : string) :
  (-1 <= lastIndexOf c s < Z.of_nat (String.length s))%Z.
Proof.
  induction s as [|a s IH]; simpl; [lia|].
  destruct (Z.leb_spec 0 (lastIndexOf c s)); [lia|].
  destruct (Ascii.eqb a c); lia.
Qed.

Lemma append_nil_l (s : string) : ("" ++ s)%string = s.
Proof. reflexivity. Qed.

Lemma append_cons (a : Ascii.ascii) (p s : string) :
  (String a p ++ s)%string = String a (p ++ s)%string.
Proof. reflexivity. Qed.

Lemma append_slash (pre post : string) :
  ((pre ++ "/") ++ post)%string = (pre ++ String slash post)%string.
Proof.
  induction pre as [|a pre IH]; [reflexivity|].
  rewrite !append_cons. by f_equal.
Qed.

Lemma length_append_slash (pre : string) :
  String.length (pre ++ "/")%string = S (String.length pre).
Proof.
  induction pre as [|a pre IH]; [reflexivity|].
  rewrite append_cons. simpl. by f_equal.
Qed.

Lemma lastIndexOf_absent (c : Ascii.ascii) (s : string) :
  lastIndexOf c s = (-1)%Z ->
  forall pre post, s <> (pre ++ String c post)%string.
Proof.
  induction s as [|a s IH]; simpl; intros Hnone pre post.
  - destruct pre; [rewrite append_nil_l | rewrite append_cons]; discriminate.
  - pose proof (lastIndexOf_range c s) as Hrange.
    destruct (Z.leb_spec 0 (lastIndexOf c s)); [lia|].
    destruct (Ascii.eqb_spec a c) as [|Hne]; [lia|].
    destruct pre as [|b pre].
    + rewrite append_nil_l. congruence.
    + rewrite append_cons. intros [= _ Hs].
      by apply (IH ltac:(lia) pre post).
Qed.

Lemma lastIndexOf_split (c : Ascii.ascii) (s : string) :
  (0 <= lastIndexOf c s)%Z ->
  exists pre post,
    s = (pre ++ String c post)%string /\
    lastIndexOf c s = Z.of_nat (String.length pre) /\
    lastIndexOf c post = (-1)%Z.
Proof.
  induction s as [|a s IH]; simpl; [lia|]. intros Hfound.
  pose proof (lastIndexOf_range c s) as Hrange.
  destruct (Z.leb_spec 0 (lastIndexOf c s)) as [Hs|Hs].
  - destruct (IH Hs) as (pre & post & Heq & Hlen & Hpost).
    exists (String a pre), post. rewrite append_cons, <- Heq.
    simpl. repeat split; [lia | done].
  - destruct (Ascii.eqb_spec a c) as [->|]; [|lia].
    exists EmptyString, s. rewrite append_nil_l. simpl.
    repeat split. lia.
Qed.

Lemma string_drop_app (pre s : string) :
  string_drop (String.length pre) (pre ++ s)%string = s.
Proof.
  induction pre as [|a pre IH]; [by destruct s|].
  rewrite append_cons. simpl. exact IH.
Qed.

(** a string that ends in ['/'] and ends in a non-empty [t] has [t] ending
    in ['/'] *)
Lemma ends_in_slash (s pre t : string) :
  t <> "" ->
  (s ++ "/")%string = (pre ++ t)%string ->
  exists q, t = (q ++ "/")%string.
Proof.
  intros Ht. revert pre. induction s as [|a s IH]; intros pre Heq.
  - destruct pre as [|a' pre].
    + exists "". by rewrite append_nil_l in *.
    + rewrite append_nil_l, append_cons in Heq. injection Heq as _ Heq.
      destruct pre, t; try done; discriminate.
  - destruct pre as [|a' pre].
    + exists (String a s). by rewrite append_nil_l in Heq.
    + rewrite !append_cons in Heq. injection Heq as _ Heq.
      by apply (IH pre).
Qed.

(** X16.  The name the picker shows for a root is the last segment of the
    path: the path is a directory part, empty or ending in ['/'], followed
    by the name, and the name has no ['/'] in it.  A path without ['/'] is
    its own name, and a path ending in ['/'] has the empty name. *)
Theorem rootPathName_last_segment (path : string) :
  (exists prefix,
     path = (prefix ++ rootPathName path)%string /\
     ((prefix = "" /\
       forall pre post, path <> (pre ++ String slash post)%string) \/
      exists dir, prefix = (dir ++ "/")%string)) /\
  (forall pre post,
     rootPathName path <> (pre ++ String slash post)%string) /\
  (forall dir, rootPathName (dir ++ "/")%string = "").
Proof.
  assert (forall p,
    (lastIndexOf slash p = (-1)%Z /\ rootPathName p = p) \/
    exists pre post,
      p = (pre ++ String slash post)%string /\
      lastIndexOf slash post = (-1)%Z /\ rootPathName p = post) as Hcases.
  { intros p. unfold rootPathName, substring_from.
    pose proof (lastIndexOf_range slash p) as Hrange.
    destruct (Z.leb_spec 0 (lastIndexOf slash p)) as [Hfound|Hnone].
    - right. destruct (lastIndexOf_split slash p Hfound)
        as (pre & post & Hp & Hlen & Hpost).
      exists pre, post. repeat split; try done.
      rewrite Hlen.
      replace (Z.to_nat (Z.of_nat (String.length pre) + 1))
        with (String.length (pre ++ "/")%string)
        by (rewrite length_append_slash; lia).
      rewrite Hp, <- (append_slash pre post).
      apply string_drop_app.
    - left. assert (lastIndexOf slash p = (-1)%Z) as Hminus by lia.
      split; [done|]. by rewrite Hminus. }
  split; [|split].
  - destruct (Hcases path) as [[Hnone Hname] | (pre & post & Hp & _ & Hname)].
    + exists "". rewrite Hname. split; [done|]. left. split; [done|].
      by apply lastIndexOf_absent.
    + exists (pre ++ "/")%string. rewrite Hname. split; [|eauto].
      by rewrite (append_slash pre post).
  - destruct (Hcases path) as [[Hnone ->] | (pre & post & _ & Hpost & ->)];
      by apply lastIndexOf_absent.
  - intros dir.
    destruct (Hcases (dir ++ "/")%string)
      as [[Hnone _] | (pre & post & Hp & Hpost & ->)].
    + exfalso. by apply (lastIndexOf_absent _ _ Hnone dir "").
    + destruct post as [|b post]; [done|]. exfalso.
      rewrite <- (append_slash pre (String b post)) in Hp.
      destruct (ends_in_slash dir (pre ++ "/")%string (String b post))
        as [q Hq]; [done | done |].
      by apply (lastIndexOf_absent _ _ Hpost q "").
Qed.

End StringFacts.

Section PickerFacts.
Context `{UriApi} {Uri HTMLElement : Type}.
Variable Uri_parse : string -> Uri.
Variable Uri_path : Uri -> string.
Import Workspace.

Abbreviation pick := (pickWorkspaceFolder (HTMLElement := HTMLElement)
                        Uri_parse Uri_path).
Abbreviation returnValue := (returnValue_after Uri_parse Uri_path).
Abbreviation folder_of := (picked_folder Uri_parse Uri_path).

Lemma returnValue_after_snoc (rootUris : list string) (before : list nat)
  (i : nat) :
  returnValue rootUris (before ++ [i]) =
  match rootUris !! i with
  | Some root => Some (folder_of root)
  | None => returnValue rootUris before
  end.
Proof. unfold returnValue_after. by rewrite fold_left_app. Qed.

Lemma returnValue_after_root (rootUris : list string) (executed : list nat)
  (folder : WorkspaceFolder Uri) :
  returnValue rootUris executed = Some folder ->
  exists i root,
    In i executed /\ rootUris !! i = Some root /\ folder = folder_of root.
Proof.
  induction executed as [|i executed IH] using rev_ind; [done|].
  rewrite returnValue_after_snoc.
  destruct (rootUris !! i) as [root|] eqn:Hi.
  - intros [= <-]. exists i, root. rewrite in_app_iff. simpl. eauto.
  - intros Hrv. destruct (IH Hrv) as (j & root & Hj & Hroot & ->).
    exists j, root. rewrite in_app_iff. eauto.
Qed.

(** X17.  With no roots, unset or empty, [$pickWorkspaceFolder] resolves to
    [undefined] without showing the menu.  Otherwise it shows one item per
    root, in the order of the roots, gives the focus back to the element
    that had it, if any, and resolves once the menu hides: to [undefined]
    when no item was run, and otherwise to the folder of the root whose
    item was run last, whose [index] is 0 whichever root that is. *)
Theorem pickWorkspaceFolder_picks {W} (env : Env (PickCall HTMLElement) W)
  (w : W) (self : WorkspaceMainImpl) :
  (roots self = None \/ roots self = Some [] ->
   exec env (pick self) w = ([], (Resolved None, self), w)) /\
  (forall rootUris,
     roots self = Some rootUris -> rootUris <> [] ->
     let active := env _ activeElement w in
     let menu := showQuickPick (pick_item Uri_parse Uri_path <$> rootUris) in
     let shown := env _ menu active.2 in
     exists picked w',
       exec env (pick self) w =
       (called activeElement :: called menu ::
          match active.1 with
          | Some element => [called (focus element)]
          | None => []
          end,
        (Resolved picked, self), w') /\
       (shown.1 = [] -> picked = None) /\
       (forall before i root,
          shown.1 = before ++ [i] -> rootUris !! i = Some root ->
          picked = Some (folder_of root)) /\
       (forall folder,
          picked = Some folder ->
          folder_index folder = 0%Z /\
          exists i root,
            In i shown.1 /\ rootUris !! i = Some root /\
            folder = folder_of root)).
Proof.
  split.
  - intros Hnone. unfold pickWorkspaceFolder, Method.bind. simpl.
    by destruct Hnone as [-> | ->].
  - intros rootUris Hroots Hne active menu shown.
    assert (forall folder executed,
              returnValue rootUris executed = Some folder ->
              folder_index folder = 0%Z /\
              exists i root,
                In i executed /\ rootUris !! i = Some root /\
                folder = folder_of root) as Hfolder.
    { intros folder executed Hrv.
      destruct (returnValue_after_root _ _ _ Hrv) as (i & root & ? & ? & ->).
      split; [done|]. eauto. }
    unfold pickWorkspaceFolder, Method.bind, Method.call, Method.get,
      Method.ret.
    cbn [pbind]. rewrite Hroots.
    destruct rootUris as [|root0 rest]; [done|].
    remember (root0 :: rest) as rootUris eqn:Hlist.
    cbn beta iota. cbn [pbind exec]. fold menu. subst shown active.
    destruct (env _ activeElement w) as [element w1]. cbn [pbind exec fst snd].
    destruct (env _ menu w1) as [executed w2]. cbn [pbind exec fst snd].
    destruct element as [element|]; cbn [pbind exec].
    + destruct (env _ (focus element) w2) as [[] w3]. cbn [pbind exec].
      eexists _, _. split; [done|]. split; [by intros ->|].
      split; [|intros folder Hrv; by apply (Hfolder folder executed)].
      intros before i root -> Hi. by rewrite returnValue_after_snoc, Hi.
    + eexists _, _. split; [done|]. split; [by intros ->|].
      split; [|intros folder Hrv; by apply (Hfolder folder executed)].
      intros before i root -> Hi. by rewrite returnValue_after_snoc, Hi.
Qed.

End PickerFacts.

Lemma pickWorkspaceFolder_picks_witness :
  exec (Examples.picker_env [0; 1])
    (Workspace.pickWorkspaceFolder (fun root => root) Examples.path_of
       (Examples.workspace ∅ None)) tt =
  ([], (Resolved None, Examples.workspace ∅ None), tt) /\
  exists picked w',
    exec (Examples.picker_env [0; 1])
      (Workspace.pickWorkspaceFolder (fun root => root) Examples.path_of
         (Examples.workspace ∅ (Some ["file:///w/a"; "file:///w/b"]))) tt =
    ([called Workspace.activeElement;
      called (Workspace.showQuickPick
                [ {| Workspace.label := "a"; Workspace.detail := "/w/a" |};
                  {| Workspace.label := "b"; Workspace.detail := "/w/b" |} ]);
      called (Workspace.focus 5)],
     (Resolved picked, Examples.workspace ∅ (Some ["file:///w/a"; "file:///w/b"])),
     w') /\
    picked = Some {| Workspace.folder_uri := "file:///w/b";
                     Workspace.folder_name := "b";
                     Workspace.folder_index := 0 |}.
Proof.
  split.
  - apply (pickWorkspaceFolder_picks (fun root => root) Examples.path_of
             (Examples.picker_env [0; 1]) tt (Examples.workspace ∅ None)).
    left. reflexivity.
  - destruct (pickWorkspaceFolder_picks (fun root => root) Examples.path_of
                (Examples.picker_env [0; 1]) tt
                (Examples.workspace ∅ (Some ["file:///w/a"; "file:///w/b"])))
      as [_ Hshown].
    destruct (Hshown ["file:///w/a"; "file:///w/b"] eq_refl)
      as (picked & w' & Hexec & _ & Hlast & _); [discriminate|].
    exists picked, w'. split; [exact Hexec|].
    apply (Hlast [0] 1 "file:///w/b"); reflexivity.
Defined.

(** ** File search *)

Lemma exec_pbind {E W R S} (env : Env E W) (p : Prog E R)
  (f : R -> Prog E S) (w : W) :
  exec env (pbind p f) w =
  (let '(tr1, r, w1) := exec env p w in
   let '(tr2, s, w2) := exec env (f r) w1 in
   (tr1 ++ tr2, s, w2)).
Proof.
  revert w. induction p as [r|X e k IH]; intros w; simpl.
  - by destruct (exec env (f r) w) as [[tr2 s] w2].
  - destruct (env X e w) as [x w1]. rewrite IH.
    destruct (exec env (k x) w1) as [[tr1 r] w2].
    by destruct (exec env (f r) w2) as [[tr2 s] w3].
Qed.

Section FileSearchFacts.
Context `{UriApi} {Uri : Type}.
Variable Uri_parse : string -> Uri.
Import FileSearch.

Implicit Types (roots : RootOptions) (rootUris : list string).

Lemma searches_rootUris includeFolderUri self rootUris :
  searches includeFolderUri self rootUris ->
  match includeFolderUri with
  | Some folder =>
      if Js.truthy folder then Some [folder] else Workspace.roots self
  | None => Workspace.roots self
  end = Some rootUris.
Proof.
  intros [(folder & -> & Hfolder & ->) | [[-> | ->] Hroots]]; try done.
  by rewrite (proj2 (truthy_nonempty folder) Hfolder).
Qed.

(** the first loop: an entry without patterns for every root *)
Lemma first_loop_lookup rootUris roots (root : string) :
  foldl (fun roots rootUri => <[rootUri := None]> roots) roots rootUris
    !! root =
  if bool_decide (root ∈ rootUris) then Some None else roots !! root.
Proof.
  revert roots. induction rootUris as [|r rs IH]; intros roots; cbn [foldl].
  - by rewrite bool_decide_eq_false_2 by apply not_elem_of_nil.
  - rewrite IH. destruct (decide (root ∈ rs)) as [Hin|Hnot].
    + rewrite !bool_decide_eq_true_2; [done | by right | done].
    + rewrite (bool_decide_eq_false_2 _ Hnot).
      destruct (decide (r = root)) as [->|Hne].
      * rewrite lookup_insert_eq. by rewrite bool_decide_eq_true_2 by by left.
      * rewrite lookup_insert_ne by done.
        rewrite bool_decide_eq_false_2; [done|].
        intros Hin. apply elem_of_cons in Hin as [|]; congruence.
Qed.

(** the inner loop makes no call *)
Lemma exec_entries {W} (env : Env FileSearchCall W) (w : W) (rootUri : string)
  (entries : list (string * bool)) roots :
  exec env
    (for_each entries (fun '(excludePattern, enabled) =>
       if enabled : bool
       then Method.modify (push_exclude rootUri excludePattern)
       else Method.ret tt) roots) w =
  ([], (Resolved tt, apply_preference rootUri (Some entries) roots), w).
Proof.
  revert roots. induction entries as [|[p enabled] entries IH];
    intros roots; [done|].
  cbn [for_each]. unfold Method.bind at 1. rewrite exec_pbind.
  destruct enabled; simpl; by rewrite IH.
Qed.

(** the second loop asks the preference of every root, in order *)
Lemma exec_preferences {W} (env : Env FileSearchCall W)
  (prefs : string -> option (list (string * bool))) rootUris :
  (forall rootUri w0, (env _ (files_exclude rootUri) w0).1 = prefs rootUri) ->
  forall roots w,
  exists w',
    exec env (for_each rootUris exclude_of_preferences roots) w =
    ((fun rootUri => called (files_exclude rootUri)) <$> rootUris,
     (Resolved tt,
      foldl (fun roots rootUri =>
               apply_preference rootUri (prefs rootUri) roots)
        roots rootUris),
     w').
Proof.
  intros Hprefs. induction rootUris as [|r rs IH]; intros roots w.
  - by exists w.
  - cbn [for_each]. unfold Method.bind at 1. rewrite exec_pbind.
    unfold exclude_of_preferences at 1. unfold Method.bind at 1.
    rewrite exec_pbind. unfold Method.call at 1. cbn [exec].
    specialize (Hprefs r w).
    destruct (env _ (files_exclude r) w) as [answer w1]. simpl in Hprefs.
    subst answer. cbn [app].
    destruct (prefs r) as [entries|] eqn:Hr.
    + rewrite exec_entries.
      destruct (IH (apply_preference r (Some entries) roots) w1)
        as [w' ->].
      exists w'. rewrite fmap_cons. simpl. by rewrite Hr.
    + unfold Method.ret at 1. cbn [exec].
      destruct (IH roots w1) as [w' ->].
      exists w'. rewrite fmap_cons. simpl. by rewrite Hr.
Qed.

Lemma push_exclude_ne (r p root : string) roots :
  r <> root -> push_exclude r p roots !! root = roots !! root.
Proof. intros Hne. unfold push_exclude. by rewrite lookup_alter_ne. Qed.

Lemma apply_preference_ne (r root : string) pref roots :
  r <> root -> apply_preference r pref roots !! root = roots !! root.
Proof.
  intros Hne. destruct pref as [entries|]; [|done]. simpl.
  revert roots. induction entries as [|[p enabled] entries IH];
    intros roots; [done|].
  simpl. rewrite IH. destruct enabled; [by apply push_exclude_ne | done].
Qed.

(** the patterns switched on are appended to those the root has *)
Lemma apply_preference_eq (root : string) (entries : list (string * bool))
  roots (had : option (list string)) :
  roots !! root = Some had ->
  apply_preference root (Some entries) roots !! root =
  Some (match (filter (fun entry => entry.2 = true) entries).*1 with
        | [] => had
        | patterns => Some (default [] had ++ patterns)
        end).
Proof.
  simpl. revert roots had.
  induction entries as [|[p enabled] entries IH]; intros roots had Hhad;
    [done|].
  simpl. destruct enabled.
  - rewrite filter_cons_True by done. rewrite fmap_cons. simpl.
    rewrite (IH _ (Some (default [] had ++ [p]))).
    + simpl. destruct ((filter _ entries).*1) as [|q qs].
      * done.
      * by rewrite <- app_assoc.
    + unfold push_exclude. rewrite lookup_alter_eq. by rewrite Hhad.
  - rewrite filter_cons_False by (simpl; congruence). by apply IH.
Qed.

Lemma preferences_lookup
  (prefs : string -> option (list (string * bool))) rootUris roots
  (root : string) :
  NoDup rootUris -> root ∈ rootUris -> roots !! root = Some None ->
  foldl (fun roots rootUri => apply_preference rootUri (prefs rootUri) roots)
    roots rootUris !! root = Some (enabled_patterns (prefs root)).
Proof.
  intros Hnodup. revert roots.
  induction Hnodup as [|r rs Hr Hnodup IH]; intros roots Hin Hnone.
  - by apply elem_of_nil in Hin.
  - simpl. apply elem_of_cons in Hin as [->|Hin].
    + assert (forall roots',
                foldl (fun roots rootUri =>
                         apply_preference rootUri (prefs rootUri) roots)
                  roots' rs !! r = roots' !! r) as Hrest.
      { clear -Hr. induction rs as [|r' rs IH]; intros roots'; [done|].
        simpl. rewrite IH by (intros ?; apply Hr; by right).
        apply apply_preference_ne. intros ->. apply Hr. by left. }
      rewrite Hrest. unfold enabled_patterns.
      destruct (prefs r) as [entries|]; [|done].
      rewrite (apply_preference_eq r entries roots None Hnone).
      by destruct ((filter _ entries).*1).
    + apply IH; [done|].
      rewrite apply_preference_ne; [done|]. intros ->. by apply Hr.
Qed.

(** X18.  A search that disregards excludes asks no preference: it makes
    the one call to the search service, for the folder when one is given
    and for the stored workspace roots otherwise, with an entry without
    patterns for each of them and for nothing else, so with no entry at all
    when the workspace has no root; no exclude pattern, [useGitIgnore] off
    and [maxResults] as the limit, 0 included.  It returns the parsed URIs
    of the answer in its order, and rejects as the search service does. *)
Theorem startFileSearch_disregarding_excludes {W}
  (env : Env FileSearchCall W) (w : W) (self : Workspace.WorkspaceMainImpl)
  (includePattern : string) (includeFolderUri : option string)
  (maxResults : option Z) rootUris :
  searches includeFolderUri self rootUris ->
  exists opts,
    exec env
      (startFileSearch Uri_parse includePattern includeFolderUri
         excludes_false maxResults self) w =
    ([called (find "" opts)],
     (match (env _ (find "" opts) w).1 with
      | Resolved uriStrs => Resolved (Uri_parse <$> uriStrs)
      | Rejected e => Rejected e
      end, self),
     (env _ (find "" opts) w).2) /\
    (forall root,
       rootOptions opts !! root =
       if bool_decide (root ∈ rootUris) then Some None else None) /\
    (rootUris = [] -> rootOptions opts = ∅) /\
    useGitIgnore opts = false /\
    excludePatterns opts = None /\
    includePatterns opts =
      (if Js.truthy includePattern then Some [includePattern] else None) /\
    limit opts = maxResults.
Proof.
  intros Hsearch.
  unfold startFileSearch, Method.bind, Method.get. cbn [pbind].
  rewrite (searches_rootUris _ _ _ Hsearch).
  unfold with_local, Method.ret, Method.await. cbn [is_not_false pbind exec].
  match goal with |- context [find "" ?o] => exists o end. split.
  - by destruct (env _ (find "" _) w) as [[uriStrs|e] w1].
  - simpl. repeat split; try done.
    + intros root. rewrite first_loop_lookup, lookup_empty. done.
    + by intros ->.
Qed.

(** X19.  A search that does not disregard excludes asks the
    ['files.exclude'] preference of every root, in order, before the one
    call to the search service.  For distinct roots, each root then
    excludes exactly the patterns its preference switches on, in the order
    of the preference, and nothing when there is no such pattern;
    [useGitIgnore] is on, the exclude pattern of the caller, if any, is
    passed beside them, and [maxResults] is the limit. *)
Theorem startFileSearch_preference_excludes {W}
  (env : Env FileSearchCall W) (w : W) (self : Workspace.WorkspaceMainImpl)
  (includePattern : string) (includeFolderUri : option string)
  (excludes : Excludes) (maxResults : option Z)
  (prefs : string -> option (list (string * bool))) rootUris :
  searches includeFolderUri self rootUris ->
  NoDup rootUris ->
  excludes <> excludes_false ->
  (forall rootUri w0, (env _ (files_exclude rootUri) w0).1 = prefs rootUri) ->
  exists opts,
    (exec env
       (startFileSearch Uri_parse includePattern includeFolderUri excludes
          maxResults self) w).1.1 =
    ((fun rootUri => called (files_exclude rootUri)) <$> rootUris)
    ++ [called (find "" opts)] /\
    (forall root,
       root ∈ rootUris ->
       rootOptions opts !! root = Some (enabled_patterns (prefs root))) /\
    useGitIgnore opts = true /\
    excludePatterns opts =
      match excludes with
      | excludes_pattern pattern => Some [pattern]
      | _ => None
      end /\
    limit opts = maxResults.
Proof.
  intros Hsearch Hnodup Hexcludes Hprefs.
  assert (is_not_false excludes = true) as Hnot by by destruct excludes.
  unfold startFileSearch, Method.bind, Method.get. cbn [pbind].
  rewrite (searches_rootUris _ _ _ Hsearch), Hnot.
  unfold with_local. rewrite !exec_pbind.
  destruct (exec_preferences env prefs rootUris Hprefs
              (foldl (fun roots rootUri => <[rootUri := None]> roots)
                 (∅ : RootOptions) rootUris) w) as [w1 ->].
  cbn [exec pbind]. unfold Method.await, Method.ret. cbn [exec pbind].
  match goal with |- context [find "" ?o] => exists o end. split.
  - destruct (env _ (find "" _) w1) as [[uriStrs|e] w2]; cbn;
      by rewrite app_nil_r.
  - simpl. repeat split; try done.
    intros root Hin. apply preferences_lookup; [done | done |].
    rewrite first_loop_lookup. by rewrite bool_decide_eq_true_2.
Qed.

End FileSearchFacts.

Lemma startFileSearch_disregarding_excludes_witness :
  (exists opts,
     exec Examples.file_search_env
       (FileSearch.startFileSearch (fun uriStr => uriStr) "**/*.ts"
          (Some "file:///w/a") FileSearch.excludes_false (Some 0%Z)
          (Examples.workspace ∅ (Some ["file:///w/b"]))) tt =
     ([called (FileSearch.find "" opts)],
      (Resolved ["file:///w/a/x.ts"; "file:///w/b/y.ts"],
       Examples.workspace ∅ (Some ["file:///w/b"])), tt) /\
     FileSearch.rootOptions opts !! "file:///w/a" = Some None /\
     FileSearch.rootOptions opts !! "file:///w/b" = None /\
     FileSearch.limit opts = Some 0%Z) /\
  (exists opts,
     exec Examples.file_search_env
       (FileSearch.startFileSearch (fun uriStr => uriStr) "**/*.ts" None
          FileSearch.excludes_false None (Examples.workspace ∅ (Some []))) tt =
     ([called (FileSearch.find "" opts)],
      (Resolved ["file:///w/a/x.ts"; "file:///w/b/y.ts"],
       Examples.workspace ∅ (Some [])), tt) /\
     FileSearch.rootOptions opts = ∅).
Proof.
  split.
  - destruct (startFileSearch_disregarding_excludes (fun uriStr => uriStr)
                Examples.file_search_env tt
                (Examples.workspace ∅ (Some ["file:///w/b"]))
                "**/*.ts" (Some "file:///w/a") (Some 0%Z) ["file:///w/a"])
      as (opts & Hexec & Hroots & _ & _ & _ & _ & Hlimit).
    { left. exists "file:///w/a". repeat split. discriminate. }
    exists opts. split; [exact Hexec|].
    split; [exact (Hroots "file:///w/a")|].
    split; [exact (Hroots "file:///w/b") | exact Hlimit].
  - destruct (startFileSearch_disregarding_excludes (fun uriStr => uriStr)
                Examples.file_search_env tt (Examples.workspace ∅ (Some []))
                "**/*.ts" None None [])
      as (opts & Hexec & _ & Hempty & _).
    { right. split; [by left | reflexivity]. }
    exists opts. split; [exact Hexec | exact (Hempty eq_refl)].
Defined.

Lemma startFileSearch_preference_excludes_witness :
  exists opts,
    (exec Examples.file_search_env
       (FileSearch.startFileSearch (fun uriStr => uriStr) ""
          None (FileSearch.excludes_pattern "**/*.log") None
          (Examples.workspace ∅ (Some ["file:///w/a"; "file:///w/b"])))
       tt).1.1 =
    [called (FileSearch.files_exclude "file:///w/a");
     called (FileSearch.files_exclude "file:///w/b");
     called (FileSearch.find "" opts)] /\
    FileSearch.rootOptions opts !! "file:///w/a" =
      Some (Some ["**/node_modules"]) /\
    FileSearch.rootOptions opts !! "file:///w/b" = Some None.
Proof.
  destruct (startFileSearch_preference_excludes (fun uriStr => uriStr)
              Examples.file_search_env tt
              (Examples.workspace ∅ (Some ["file:///w/a"; "file:///w/b"]))
              "" None (FileSearch.excludes_pattern "**/*.log") None
              (fun rootUri =>
                 if bool_decide (rootUri = "file:///w/a")
                 then Some [("**/node_modules", true); ("**/dist", false)]
                 else None)
              ["file:///w/a"; "file:///w/b"])
    as (opts & Htrace & Hroots & _).
  - right. split; [by left | reflexivity].
  - repeat constructor.
    + intros Hin. apply elem_of_cons in Hin as [Hin|Hin];
        [discriminate Hin | by apply elem_of_nil in Hin].
    + intros Hin. by apply elem_of_nil in Hin.
  - discriminate.
  - reflexivity.
  - exists opts. split; [exact Htrace|]. split.
    + apply (Hroots "file:///w/a"). by left.
    + apply (Hroots "file:///w/b"). right. by left.
Defined.

(** ** Text content providers of the workspace bridge *)

Section ProviderQueue.
Context `{UriApi}.
Variable KeysToKeysToAnyValue : Type.
Import Workspace.

Abbreviation WorkspaceCall := (WorkspaceCall KeysToKeysToAnyValue).

(** X20.  Registering a text content provider for a free scheme registers
    the proxy of the instance and queues one unregistration of the scheme
    for the disposal of the instance, without any call.  Unregistering the
    scheme afterwards restores the resolver but leaves that entry in the
    queue, and the unregistration it stands for then throws. *)
Theorem registerTextDocumentContentProvider_queues {W}
  (env : Env WorkspaceCall W) (w : W) (self : WorkspaceMainImpl)
  (s : string) :
  TextContent.providers (resourceResolver self) !! s = None ->
  let queued := set_toDispose (fun ds => ds ++ [s]) self in
  exec env (registerTextDocumentContentProvider _ s self) w =
  ([], (Resolved tt,
        set_toDispose (fun ds => ds ++ [s])
          (set_resourceResolver
             (TextContent.set_providers
                (insert s {| TextContent.provider_proxy := proxy self |})
                (resourceResolver self)) self)), w) /\
  exec env ((registerTextDocumentContentProvider _ s ;;
             unregisterTextDocumentContentProvider _ s)%method self) w =
  ([], (Resolved tt, queued), w) /\
  In s (toDispose queued) /\
  exec env (unregisterTextDocumentContentProvider _ s queued) w =
  ([], (Rejected {| message := TextContent.not_registered s |}, queued), w).
Proof.
  intros Hfree queued.
  assert (exec env (registerTextDocumentContentProvider _ s self) w =
          ([], (Resolved tt,
                set_toDispose (fun ds => ds ++ [s])
                  (set_resourceResolver
                     (TextContent.set_providers
                        (insert s
                           {| TextContent.provider_proxy := proxy self |})
                        (resourceResolver self)) self)), w)) as Hregister.
  { unfold registerTextDocumentContentProvider, Method.bind, zoom. simpl.
    by rewrite registerContentProvider_free. }
  split; [exact Hregister|]. split; [|split].
  - unfold Method.bind at 1. rewrite exec_pbind, Hregister. cbn [app].
    unfold unregisterTextDocumentContentProvider, zoom.
    rewrite unregisterContentProvider_present
      by (simpl; rewrite lookup_insert_eq; eauto).
    simpl. do 3 f_equal. subst queued. destruct self as [p r d ws cs rs].
    unfold set_toDispose, set_resourceResolver. simpl. f_equal.
    destruct r as [ps res]. unfold TextContent.set_providers. simpl in *.
    by rewrite delete_insert_id.
  - subst queued. simpl. apply in_app_iff. right. by left.
  - unfold unregisterTextDocumentContentProvider, zoom.
    rewrite unregisterContentProvider_absent by done. simpl.
    subst queued. by destruct self.
Qed.

End ProviderQueue.

Lemma registerTextDocumentContentProvider_queues_witness :
  let self := Examples.workspace ∅ None in
  exec (Examples.workspace_env (Resolved 2))
    ((Workspace.registerTextDocumentContentProvider unit "svn" ;;
      Workspace.unregisterTextDocumentContentProvider unit "svn")%method
       self) tt =
  ([], (Resolved tt,
        Workspace.set_toDispose (fun ds => ds ++ ["svn"]) self), tt).
Proof.
  intros self.
  apply (registerTextDocumentContentProvider_queues unit
           (Examples.workspace_env (Resolved 2)) tt self "svn").
  reflexivity.
Defined.
